(** * kova-ipfs-client: the IPFS client of [kova_ipfs_client/client.py]

    A shallow embedding of [IPFSClient] and of the three exception classes of
    [kova_ipfs_client/exceptions.py], and the properties of the client.

    The client is a thin layer over three things that are not part of the
    repository: the [ipfshttpclient] library (and the node behind it), the
    file system reached through [pathlib], and Python's [json] and UTF-8
    codecs.  They are modelled as follows.
    - The library is an interface, [Transport]: one field per call that the
      client makes, each a function of the node's state that returns a value
      or raises.  Statements quantify over every transport.
    - The file system is a finite map from resolved paths to files and
      directories, with [pathlib]'s [exists], [mkdir(parents=True,
      exist_ok=True)] and [write_bytes].
    - [bytes.decode()], [str.encode()], [json.dumps] and [json.loads] are
      executable functions over code points.  A float is kept as its literal:
      float arithmetic is not modelled.

    Every method is a computation in a state-and-exception monad over the
    client object, the node and the file system; [try]/[except] is
    [try_except].

    The first part of the file is the model, the second part its
    properties. *)

From Stdlib Require Import ZArith NArith Lia List String Ascii Bool.
From Stdlib.Strings Require Import Byte.
From Stdlib Require Import DecimalZ DecimalPos DecimalN.
From stdpp Require Import gmap list.

Import ListNotations.
Local Open Scope N_scope.

(* ===================================================================== *)
(** * Python strings and bytes *)
(* ===================================================================== *)

(** A Python [str] is a sequence of code points, a [bytes] a sequence of
    bytes. *)
Definition pystr := list N.
Definition bytes := list byte.

(** The code points of an ASCII literal. *)
Definition u (s : string) : pystr :=
  map (fun a => N_of_ascii a) (list_ascii_of_string s).
Arguments u : simpl never.

Definition bN (b : byte) : N := Byte.to_N b.

Definition byte_of_N (n : N) : byte :=
  match Byte.of_N n with
  | Some b => b
  | None => x00
  end.

(** [sep.join(parts)] *)
Fixpoint join (sep : pystr) (parts : list pystr) : pystr :=
  match parts with
  | [] => []
  | [p] => p
  | p :: rest => p ++ sep ++ join sep rest
  end.

(* ===================================================================== *)
(** * Exceptions *)
(* ===================================================================== *)

(** The classes that the client defines ([exceptions.py]), the built-in
    classes that the client's own statements can raise, and the classes of the
    transport library.  All of them derive from [Exception], so that
    [except Exception] catches each of them; what lies outside [Exception]
    ([KeyboardInterrupt], a cancellation) is not modelled. *)
Inductive exc_class : Type :=
| IPFSError
| IPFSConnectionError
| IPFSTimeoutError
| AttributeError
| TypeError
| KeyError
| UnicodeDecodeError
| UnicodeEncodeError
| JSONDecodeError
| FileNotFoundError
| FileExistsError
| NotADirectoryError
| IsADirectoryError
| LibraryError (name : string).

(** An exception object: its class and [str(e)]. *)
Record exn : Type := mkExn { exn_class : exc_class; exn_str : pystr }.


(** The classes named by [except (json.JSONDecodeError, UnicodeDecodeError)]. *)
Definition is_decode_error (c : exc_class) : bool :=
  match c with
  | JSONDecodeError | UnicodeDecodeError => true
  | _ => false
  end.

(** The outcome of evaluating an expression: a value, or a raised exception. *)
Inductive result (A : Type) : Type :=
| Ok (a : A)
| Raise (e : exn).
Arguments Ok {A} a.
Arguments Raise {A} e.

Definition raises {A} (r : result A) : Prop :=
  match r with
  | Ok _ => False
  | Raise _ => True
  end.

Definition raises_class {A} (c : exc_class) (r : result A) : Prop :=
  match r with
  | Ok _ => False
  | Raise e => exn_class e = c
  end.

(* ===================================================================== *)
(** * UTF-8: [bytes.decode()] and [str.encode()] *)
(* ===================================================================== *)

Definition is_cont (n : N) : bool := (0x80 <=? n) && (n <=? 0xBF).

(** The second byte of a three-byte sequence: no overlong form after [E0],
    no surrogate after [ED]. *)
Definition second_of_3 (n0 n1 : N) : bool :=
  if n0 =? 0xE0 then (0xA0 <=? n1) && (n1 <=? 0xBF)
  else if n0 =? 0xED then (0x80 <=? n1) && (n1 <=? 0x9F)
  else is_cont n1.

(** The second byte of a four-byte sequence: no overlong form after [F0],
    nothing above U+10FFFF after [F4]. *)
Definition second_of_4 (n0 n1 : N) : bool :=
  if n0 =? 0xF0 then (0x90 <=? n1) && (n1 <=? 0xBF)
  else if n0 =? 0xF4 then (0x80 <=? n1) && (n1 <=? 0x8F)
  else is_cont n1.

Definition cont_bits (n : N) : N := N.land n 0x3F.

(** The strict UTF-8 decoder; [None] is [UnicodeDecodeError]. *)
Fixpoint utf8_decode (bs : bytes) : option pystr :=
  match bs with
  | [] => Some []
  | b0 :: r0 =>
    let n0 := bN b0 in
    if n0 <? 0x80 then
      option_map (cons n0) (utf8_decode r0)
    else if (0xC2 <=? n0) && (n0 <=? 0xDF) then
      match r0 with
      | b1 :: r1 =>
        if is_cont (bN b1) then
          option_map
            (cons (N.lor (N.shiftl (N.land n0 0x1F) 6) (cont_bits (bN b1))))
            (utf8_decode r1)
        else None
      | _ => None
      end
    else if (0xE0 <=? n0) && (n0 <=? 0xEF) then
      match r0 with
      | b1 :: b2 :: r2 =>
        if second_of_3 n0 (bN b1) && is_cont (bN b2) then
          option_map
            (cons (N.lor (N.shiftl (N.land n0 0x0F) 12)
                    (N.lor (N.shiftl (cont_bits (bN b1)) 6)
                           (cont_bits (bN b2)))))
            (utf8_decode r2)
        else None
      | _ => None
      end
    else if (0xF0 <=? n0) && (n0 <=? 0xF4) then
      match r0 with
      | b1 :: b2 :: b3 :: r3 =>
        if second_of_4 n0 (bN b1) && is_cont (bN b2) && is_cont (bN b3) then
          option_map
            (cons (N.lor (N.shiftl (N.land n0 0x07) 18)
                    (N.lor (N.shiftl (cont_bits (bN b1)) 12)
                      (N.lor (N.shiftl (cont_bits (bN b2)) 6)
                             (cont_bits (bN b3))))))
            (utf8_decode r3)
        else None
      | _ => None
      end
    else None
  end.

Definition is_surrogate (c : N) : bool := (0xD800 <=? c) && (c <=? 0xDFFF).

(** The bytes of one code point; a surrogate cannot be encoded. *)
Definition utf8_encode_char (c : N) : option bytes :=
  if c <? 0x80 then Some [byte_of_N c]
  else if c <? 0x800 then
    Some [byte_of_N (N.lor 0xC0 (N.shiftr c 6));
          byte_of_N (N.lor 0x80 (N.land c 0x3F))]
  else if is_surrogate c then None
  else if c <? 0x10000 then
    Some [byte_of_N (N.lor 0xE0 (N.shiftr c 12));
          byte_of_N (N.lor 0x80 (N.land (N.shiftr c 6) 0x3F));
          byte_of_N (N.lor 0x80 (N.land c 0x3F))]
  else if c <? 0x110000 then
    Some [byte_of_N (N.lor 0xF0 (N.shiftr c 18));
          byte_of_N (N.lor 0x80 (N.land (N.shiftr c 12) 0x3F));
          byte_of_N (N.lor 0x80 (N.land (N.shiftr c 6) 0x3F));
          byte_of_N (N.lor 0x80 (N.land c 0x3F))]
  else None.

(** The UTF-8 encoder; [None] is [UnicodeEncodeError]. *)
Fixpoint utf8_encode (s : pystr) : option bytes :=
  match s with
  | [] => Some []
  | c :: r =>
    match utf8_encode_char c, utf8_encode r with
    | Some bs, Some rest => Some (bs ++ rest)
    | _, _ => None
    end
  end.

(** [data.decode()] *)
Definition bytes_decode (data : bytes) : result pystr :=
  match utf8_decode data with
  | Some s => Ok s
  | None =>
    Raise (mkExn UnicodeDecodeError
                 (u "'utf-8' codec can't decode bytes: invalid data"))
  end.

(** [data.encode()] *)
Definition str_encode (s : pystr) : result bytes :=
  match utf8_encode s with
  | Some b => Ok b
  | None =>
    Raise (mkExn UnicodeEncodeError
                 (u "'utf-8' codec can't encode character: surrogates not allowed"))
  end.

(* ===================================================================== *)
(** * Python values *)
(* ===================================================================== *)

(** The values that cross the client's interface: what [json.loads] builds,
    what the transport library answers, and what [add_data] accepts.  A dict
    is the list of its items in insertion order.  [PFloat] holds the literal
    of a float. *)
#[warnings="-register-all"]
Inductive pyvalue : Type :=
| PNone
| PBool (b : bool)
| PInt (z : Z)
| PFloat (lit : pystr)
| PStr (s : pystr)
| PBytes (b : bytes)
| PList (items : list pyvalue)
| PDict (items : list (pyvalue * pyvalue)).

(** [type(v).__name__] *)
Definition type_name (v : pyvalue) : pystr :=
  match v with
  | PNone => u "NoneType"
  | PBool _ => u "bool"
  | PInt _ => u "int"
  | PFloat _ => u "float"
  | PStr _ => u "str"
  | PBytes _ => u "bytes"
  | PList _ => u "list"
  | PDict _ => u "dict"
  end.

(** A hexadecimal digit, in lower case. *)
Definition hexdigit (d : N) : N := if d <? 10 then 48 + d else 87 + d.

(** One character of [repr(s)] between the quotes [quote]: the quote and the
    backslash are escaped, a control character is written [\t], [\n], [\r]
    or [\xNN].  A code point from 128 up is written as it is, which is what
    [repr] does with the printable ones. *)
Definition repr_char (quote c : N) : pystr :=
  if (c =? quote) || (c =? 92) then [92; c]
  else if c =? 9 then [92; 116]
  else if c =? 10 then [92; 110]
  else if c =? 13 then [92; 114]
  else if (c <? 32) || (c =? 127) then
    [92; 120; hexdigit (N.land (N.shiftr c 4) 15); hexdigit (N.land c 15)]
  else [c].

(** [repr(s)] of a string, as [str(KeyError(s))] and the message of an
    [OSError] show it: between single quotes, or between double quotes when
    the string holds a single quote and no double quote. *)
Definition str_repr (s : pystr) : pystr :=
  let quote :=
    if existsb (N.eqb 39) s && negb (existsb (N.eqb 34) s) then 34 else 39 in
  quote :: flat_map (repr_char quote) s ++ [quote].

(** Looking a string key up in the items of a dict. *)
Fixpoint dict_get (k : pystr) (d : list (pyvalue * pyvalue)) : option pyvalue :=
  match d with
  | [] => None
  | (PStr k', v) :: rest => if bool_decide (k = k') then Some v else dict_get k rest
  | _ :: rest => dict_get k rest
  end.

(** [d[k] = v] for a string key: an existing key keeps its place. *)
Fixpoint dict_set (k : pystr) (v : pyvalue) (d : list (pyvalue * pyvalue))
  : list (pyvalue * pyvalue) :=
  match d with
  | [] => [(PStr k, v)]
  | (PStr k', v') :: rest =>
    if bool_decide (k = k') then (PStr k', v) :: rest
    else (PStr k', v') :: dict_set k v rest
  | item :: rest => item :: dict_set k v rest
  end.

(** [dict(pairs)] for pairs with string keys. *)
Definition dict_of_pairs (pairs : list (pystr * pyvalue)) : list (pyvalue * pyvalue) :=
  fold_left (fun d kv => dict_set (fst kv) (snd kv) d) pairs [].

(** [v[k]] for a string [k]. *)
Definition py_getitem (v : pyvalue) (k : pystr) : result pyvalue :=
  match v with
  | PDict d =>
    match dict_get k d with
    | Some x => Ok x
    | None => Raise (mkExn KeyError (str_repr k))
    end
  | PStr _ =>
    Raise (mkExn TypeError (u "string indices must be integers, not 'str'"))
  | PBytes _ =>
    Raise (mkExn TypeError (u "byte indices must be integers or slices, not str"))
  | PList _ =>
    Raise (mkExn TypeError (u "list indices must be integers or slices, not str"))
  | _ =>
    Raise (mkExn TypeError
                 (u "'" ++ type_name v ++ u "' object is not subscriptable"))
  end.

(** [v.values()] *)
Definition py_values (v : pyvalue) : result (list pyvalue) :=
  match v with
  | PDict d => Ok (map snd d)
  | _ =>
    Raise (mkExn AttributeError
                 (u "'" ++ type_name v ++ u "' object has no attribute 'values'"))
  end.

(** A comprehension [[f(x) for x in xs]]: the first exception ends it. *)
Definition mapM {A B} (f : A -> result B) : list A -> result (list B) :=
  fix go (xs : list A) : result (list B) :=
    match xs with
    | [] => Ok []
    | x :: rest =>
      match f x with
      | Raise e => Raise e
      | Ok y =>
        match go rest with
        | Raise e => Raise e
        | Ok ys => Ok (y :: ys)
        end
      end
    end.

(* ===================================================================== *)
(** * [json.dumps] *)
(* ===================================================================== *)

Fixpoint uint_chars (d : Decimal.uint) : pystr :=
  match d with
  | Decimal.Nil => []
  | Decimal.D0 d' => 48 :: uint_chars d'
  | Decimal.D1 d' => 49 :: uint_chars d'
  | Decimal.D2 d' => 50 :: uint_chars d'
  | Decimal.D3 d' => 51 :: uint_chars d'
  | Decimal.D4 d' => 52 :: uint_chars d'
  | Decimal.D5 d' => 53 :: uint_chars d'
  | Decimal.D6 d' => 54 :: uint_chars d'
  | Decimal.D7 d' => 55 :: uint_chars d'
  | Decimal.D8 d' => 56 :: uint_chars d'
  | Decimal.D9 d' => 57 :: uint_chars d'
  end.

(** [repr] of an [int], also its form in an f-string. *)
Definition int_repr (z : Z) : pystr :=
  match Z.to_int z with
  | Decimal.Pos d => uint_chars d
  | Decimal.Neg d => 45 :: uint_chars d
  end.

(** ['{0:04x}'.format(n)] for [n < 0x10000]. *)
Definition hex4 (n : N) : pystr :=
  [hexdigit (N.land (N.shiftr n 12) 15); hexdigit (N.land (N.shiftr n 8) 15);
   hexdigit (N.land (N.shiftr n 4) 15); hexdigit (N.land n 15)].

(** One character under [ensure_ascii=True]. *)
Definition escape_char (c : N) : pystr :=
  if c =? 34 then [92; 34]
  else if c =? 92 then [92; 92]
  else if c =? 10 then [92; 110]
  else if c =? 13 then [92; 114]
  else if c =? 9 then [92; 116]
  else if c =? 12 then [92; 102]
  else if c =? 8 then [92; 98]
  else if (32 <=? c) && (c <=? 126) then [c]
  else if c <? 0x10000 then 92 :: 117 :: hex4 c
  else
    let n := c - 0x10000 in
    let s1 := N.lor 0xd800 (N.land (N.shiftr n 10) 0x3ff) in
    let s2 := N.lor 0xdc00 (N.land n 0x3ff) in
    (92 :: 117 :: hex4 s1) ++ (92 :: 117 :: hex4 s2).

(** [encode_basestring_ascii(s)] *)
Definition encode_basestring_ascii (s : pystr) : pystr :=
  34 :: flat_map escape_char s ++ [34].

(** The text of a dict key: a string as it is, a number, a boolean or [None]
    coerced to a string; anything else is a [TypeError]. *)
Definition json_key (k : pyvalue) : result pystr :=
  match k with
  | PStr s => Ok s
  | PFloat lit => Ok lit
  | PBool true => Ok (u "true")
  | PBool false => Ok (u "false")
  | PNone => Ok (u "null")
  | PInt z => Ok (int_repr z)
  | _ =>
    Raise (mkExn TypeError
                 (u "keys must be str, int, float, bool or None, not "
                    ++ type_name k))
  end.

(** [json.dumps(v)] with the default options: [ensure_ascii=True], the
    separators [", "] and [": "], keys in insertion order. *)
Fixpoint json_dumps (v : pyvalue) : result pystr :=
  match v with
  | PNone => Ok (u "null")
  | PBool true => Ok (u "true")
  | PBool false => Ok (u "false")
  | PInt z => Ok (int_repr z)
  | PFloat lit => Ok lit
  | PStr s => Ok (encode_basestring_ascii s)
  | PBytes _ =>
    Raise (mkExn TypeError (u "Object of type bytes is not JSON serializable"))
  | PList items =>
    match mapM json_dumps items with
    | Raise e => Raise e
    | Ok parts => Ok (91 :: join (u ", ") parts ++ [93])
    end
  | PDict items =>
    match mapM (fun kv : pyvalue * pyvalue =>
                  match json_key (fst kv) with
                  | Raise e => Raise e
                  | Ok k =>
                    match json_dumps (snd kv) with
                    | Raise e => Raise e
                    | Ok t => Ok (encode_basestring_ascii k ++ u ": " ++ t)
                    end
                  end) items with
    | Raise e => Raise e
    | Ok parts => Ok (123 :: join (u ", ") parts ++ [125])
    end
  end.

(** [{"a": 1}] *)
Definition items_a_1 : list (pyvalue * pyvalue) := [(PStr (u "a"), PInt 1)].

Definition dict_a_1 : pyvalue := PDict items_a_1.

(** [{1: 2}] *)
Definition items_1_2 : list (pyvalue * pyvalue) := [(PInt 1, PInt 2)].

(* ===================================================================== *)
(** * [json.loads] *)
(* ===================================================================== *)

Definition is_ws (c : N) : bool :=
  (c =? 32) || (c =? 9) || (c =? 10) || (c =? 13).

Fixpoint skip_ws (s : pystr) : pystr :=
  match s with
  | c :: r => if is_ws c then skip_ws r else s
  | [] => []
  end.

Definition is_digit (c : N) : bool := (48 <=? c) && (c <=? 57).

(** The text after the character [c], when [s] starts with it. *)
Definition eat (c : N) (s : pystr) : option pystr :=
  match s with
  | x :: r => if x =? c then Some r else None
  | [] => None
  end.

(** The longest run of digits at the head of [s], and what follows it. *)
Fixpoint take_digits (s : pystr) : pystr * pystr :=
  match s with
  | c :: r =>
    if is_digit c then let '(ds, rest) := take_digits r in (c :: ds, rest)
    else ([], s)
  | [] => ([], [])
  end.

Definition digit_cons (c : N) (d : Decimal.uint) : Decimal.uint :=
  if c =? 48 then Decimal.D0 d
  else if c =? 49 then Decimal.D1 d
  else if c =? 50 then Decimal.D2 d
  else if c =? 51 then Decimal.D3 d
  else if c =? 52 then Decimal.D4 d
  else if c =? 53 then Decimal.D5 d
  else if c =? 54 then Decimal.D6 d
  else if c =? 55 then Decimal.D7 d
  else if c =? 56 then Decimal.D8 d
  else Decimal.D9 d.

Fixpoint digits_uint (ds : pystr) : Decimal.uint :=
  match ds with
  | [] => Decimal.Nil
  | c :: r => digit_cons c (digits_uint r)
  end.

(** [int(lexeme)] for a lexeme of the number pattern. *)
Definition int_of_lexeme (neg : bool) (ds : pystr) : Z :=
  Z.of_int (if neg then Decimal.Neg (digits_uint ds) else Decimal.Pos (digits_uint ds)).

(** [NUMBER_RE] matched at the head of [s]: an optional minus sign, then a
    zero or a run of digits that starts with a non-zero digit, then an optional
    fraction (a dot and digits) and an optional exponent (e or E, an optional
    sign, digits).  The value is an [int] when there is neither fraction nor
    exponent, a float otherwise. *)
Definition parse_number (s : pystr) : option (pyvalue * pystr) :=
  let '(neg, s1) :=
    match eat 45 s with
    | Some r => (true, r)
    | None => (false, s)
    end in
  let int_part :=
    match s1 with
    | c :: r =>
      if c =? 48 then Some ([48], r)
      else if is_digit c then let '(ds, rest) := take_digits r in Some (c :: ds, rest)
      else None
    | [] => None
    end in
  match int_part with
  | None => None
  | Some (ds, r1) =>
    let '(frac, r2) :=
      match eat 46 r1 with
      | Some r =>
        match take_digits r with
        | ([], _) => ([], r1)
        | (fd, rest) => (46 :: fd, rest)
        end
      | None => ([], r1)
      end in
    let '(ex, r3) :=
      match r2 with
      | e :: r =>
        if (e =? 101) || (e =? 69) then
          let '(sign, r') :=
            match r with
            | sg :: r'' => if (sg =? 43) || (sg =? 45) then ([sg], r'') else ([], r)
            | [] => ([], r)
            end in
          match take_digits r' with
          | ([], _) => ([], r2)
          | (ed, rest) => (e :: sign ++ ed, rest)
          end
        else ([], r2)
      | [] => ([], r2)
      end in
    match frac, ex with
    | [], [] => Some (PInt (int_of_lexeme neg ds), r3)
    | _, _ => Some (PFloat ((if neg then [45] else []) ++ ds ++ frac ++ ex), r3)
    end
  end.

Definition hexval (c : N) : option N :=
  if is_digit c then Some (c - 48)
  else if (97 <=? c) && (c <=? 102) then Some (c - 87)
  else if (65 <=? c) && (c <=? 70) then Some (c - 55)
  else None.

(** The four hexadecimal digits of a [\uXXXX] escape. *)
Definition decode_uXXXX (s : pystr) : option (N * pystr) :=
  match s with
  | a :: b :: c :: d :: rest =>
    match hexval a, hexval b, hexval c, hexval d with
    | Some x3, Some x2, Some x1, Some x0 =>
      Some (((x3 * 16 + x2) * 16 + x1) * 16 + x0, rest)
    | _, _, _, _ => None
    end
  | _ => None
  end.

(** The character of a one-letter escape. *)
Definition simple_escape (e : N) : option N :=
  if e =? 34 then Some 34
  else if e =? 92 then Some 92
  else if e =? 47 then Some 47
  else if e =? 98 then Some 8
  else if e =? 102 then Some 12
  else if e =? 110 then Some 10
  else if e =? 114 then Some 13
  else if e =? 116 then Some 9
  else None.

(** [s.startswith(prefix)], answering with the rest of [s]. *)
Fixpoint strip_prefix (prefix s : pystr) : option pystr :=
  match prefix, s with
  | [], _ => Some s
  | p :: prefix', c :: r => if p =? c then strip_prefix prefix' r else None
  | _ :: _, [] => None
  end.

(** [scanstring], strict, from just after the opening quote: the string and
    the text that follows its closing quote.  Each step consumes a character,
    so [length s] steps are enough on [s]. *)
Fixpoint scanstring (fuel : nat) (s : pystr) : option (pystr * pystr) :=
  match fuel with
  | O => None
  | S fuel' =>
    match s with
    | [] => None
    | c :: r =>
      if c =? 34 then Some ([], r)
      else if c =? 92 then
        match r with
        | [] => None
        | e :: r' =>
          if e =? 117 then
            match decode_uXXXX r' with
            | None => None
            | Some (uni, r1) =>
              let paired :=
                if (0xd800 <=? uni) && (uni <=? 0xdbff) then
                  match strip_prefix [92; 117] r1 with
                  | Some r2 =>
                    match decode_uXXXX r2 with
                    | None => None
                    | Some (uni2, r3) =>
                      if (0xdc00 <=? uni2) && (uni2 <=? 0xdfff) then
                        Some (0x10000
                              + N.lor (N.shiftl (uni - 0xd800) 10) (uni2 - 0xdc00),
                              r3)
                      else Some (uni, r1)
                    end
                  | None => Some (uni, r1)
                  end
                else Some (uni, r1) in
              match paired with
              | None => None
              | Some (ch, rest) =>
                match scanstring fuel' rest with
                | None => None
                | Some (str, rest') => Some (ch :: str, rest')
                end
              end
            end
          else
            match simple_escape e with
            | None => None
            | Some ch =>
              match scanstring fuel' r' with
              | None => None
              | Some (str, rest') => Some (ch :: str, rest')
              end
            end
        end
      else if c <? 32 then None
      else
        match scanstring fuel' r with
        | None => None
        | Some (str, rest') => Some (c :: str, rest')
        end
    end
  end.

(** The constants and numbers of [scan_once], in its order. *)
Definition parse_atom (s : pystr) : option (pyvalue * pystr) :=
  match strip_prefix (u "null") s with
  | Some r => Some (PNone, r)
  | None =>
  match strip_prefix (u "true") s with
  | Some r => Some (PBool true, r)
  | None =>
  match strip_prefix (u "false") s with
  | Some r => Some (PBool false, r)
  | None =>
  match parse_number s with
  | Some x => Some x
  | None =>
  match strip_prefix (u "NaN") s with
  | Some r => Some (PFloat (u "NaN"), r)
  | None =>
  match strip_prefix (u "Infinity") s with
  | Some r => Some (PFloat (u "Infinity"), r)
  | None =>
  match strip_prefix (u "-Infinity") s with
  | Some r => Some (PFloat (u "-Infinity"), r)
  | None => None
  end end end end end end end.

(** [scan_once], [JSONArray] and [JSONObject].  [parse_elements] starts at an
    element of an array, [parse_members] just after the opening quote of a
    key.  Two nested calls consume at least one character between them, so
    fuel [2 * length s + 2] never runs out on [s]. *)
Fixpoint parse_value (fuel : nat) (s : pystr) {struct fuel}
  : option (pyvalue * pystr) :=
  match fuel with
  | O => None
  | S fuel' =>
    match s with
    | [] => None
    | c :: r =>
      if c =? 34 then
        match scanstring (length r) r with
        | None => None
        | Some (str, rest) => Some (PStr str, rest)
        end
      else if c =? 123 then
        let r0 := skip_ws r in
        match eat 125 r0 with
        | Some rest => Some (PDict [], rest)
        | None =>
          match eat 34 r0 with
          | None => None
          | Some r1 =>
            match parse_members fuel' r1 with
            | None => None
            | Some (pairs, rest) => Some (PDict (dict_of_pairs pairs), rest)
            end
          end
        end
      else if c =? 91 then
        let r0 := skip_ws r in
        match eat 93 r0 with
        | Some rest => Some (PList [], rest)
        | None =>
          match parse_elements fuel' r0 with
          | None => None
          | Some (items, rest) => Some (PList items, rest)
          end
        end
      else parse_atom s
    end
  end
with parse_elements (fuel : nat) (s : pystr) {struct fuel}
  : option (list pyvalue * pystr) :=
  match fuel with
  | O => None
  | S fuel' =>
    match parse_value fuel' s with
    | None => None
    | Some (v, r) =>
      let r0 := skip_ws r in
      match eat 93 r0 with
      | Some rest => Some ([v], rest)
      | None =>
        match eat 44 r0 with
        | None => None
        | Some r1 =>
          match parse_elements fuel' (skip_ws r1) with
          | None => None
          | Some (vs, rest) => Some (v :: vs, rest)
          end
        end
      end
    end
  end
with parse_members (fuel : nat) (s : pystr) {struct fuel}
  : option (list (pystr * pyvalue) * pystr) :=
  match fuel with
  | O => None
  | S fuel' =>
    match scanstring (length s) s with
    | None => None
    | Some (key, r) =>
      match eat 58 (skip_ws r) with
      | None => None
      | Some r1 =>
        match parse_value fuel' (skip_ws r1) with
        | None => None
        | Some (v, r2) =>
          let r0 := skip_ws r2 in
          match eat 125 r0 with
          | Some rest => Some ([(key, v)], rest)
          | None =>
            match eat 44 r0 with
            | None => None
            | Some r3 =>
              match eat 34 (skip_ws r3) with
              | None => None
              | Some r4 =>
                match parse_members fuel' r4 with
                | None => None
                | Some (kvs, rest) => Some ((key, v) :: kvs, rest)
                end
              end
            end
          end
        end
      end
    end
  end.

(** [json.loads(s)] for a [str]: no byte-order mark, one value between
    optional white space, nothing after it; [None] is [JSONDecodeError]. *)
Definition json_decode (s : pystr) : option pyvalue :=
  match eat 0xFEFF s with
  | Some _ => None
  | None =>
    match parse_value (2 * length s + 2) (skip_ws s) with
    | None => None
    | Some (v, rest) =>
      match skip_ws rest with
      | [] => Some v
      | _ :: _ => None
      end
    end
  end.

Definition json_loads (s : pystr) : result pyvalue :=
  match json_decode s with
  | Some v => Ok v
  | None => Raise (mkExn JSONDecodeError (u "Expecting value"))
  end.

(* ===================================================================== *)
(** * The file system, as [pathlib] sees it *)
(* ===================================================================== *)

(** A resolved location: the names from the root down. *)
Definition fspath := list pystr.

Inductive fnode : Type :=
| FDir
| FFile (content : bytes).

(** The working directory and the tree.  The root is a directory; in the
    tree of a file system the parent of every entry is a directory.  The
    tree holds directories and regular files with one name each: a file
    system with links, symbolic or hard, is outside the model.  So are
    permissions and the limits of the device.  Names are looked up as they
    are written; the statements about paths are about ordinary paths
    ([ordinary_path] below), which have no [..] part. *)
Record filesystem : Type := mkFs {
  fs_cwd : fspath;
  fs_tree : gmap fspath fnode
}.

Definition fs_lookup (fs : filesystem) (q : fspath) : option fnode :=
  match q with
  | [] => Some FDir
  | _ => fs_tree fs !! q
  end.

Definition fs_insert (q : fspath) (n : fnode) (fs : filesystem) : filesystem :=
  mkFs (fs_cwd fs) (<[q := n]> (fs_tree fs)).

(** Where a path starts: at the working directory, at the root, or at the
    root written with two slashes, which [pathlib] keeps apart. *)
Inductive anchor : Type :=
| Relative
| Root
| TwoSlashes.

(** A [pathlib.Path]: its anchor and its parts. *)
Record pypath : Type := mkPath { p_anchor : anchor; p_parts : list pystr }.

(** The parts of a path string: the pieces between slashes, without the
    empty ones and the single dots. *)
Fixpoint split_parts (cur : pystr) (s : pystr) : list pystr :=
  let piece := if bool_decide (cur = []) || bool_decide (cur = [46]) then [] else [cur] in
  match s with
  | [] => piece
  | c :: r => if c =? 47 then piece ++ split_parts [] r else split_parts (cur ++ [c]) r
  end.

(** [Path(s)] for a string, as a POSIX path: exactly two leading slashes
    are an anchor of their own, one slash, or three and more, are the root.
    The parts are kept as they are written: a [..] stays a part. *)
Definition Path_of_str (s : pystr) : pypath :=
  mkPath (match eat 47 s with
          | None => Relative
          | Some r1 =>
            match eat 47 r1 with
            | None => Root
            | Some r2 =>
              match eat 47 r2 with
              | None => TwoSlashes
              | Some _ => Root
              end
            end
          end)
         (split_parts [] s).

(** What a caller may pass where [Union[str, Path]] is declared. *)
Inductive path_like : Type :=
| PLStr (s : pystr)
| PLPath (p : pypath).

(** [Path(x)] *)
Definition Path_of (x : path_like) : pypath :=
  match x with
  | PLStr s => Path_of_str s
  | PLPath p => p
  end.

(** [bool(x)]: an empty string is false, a [Path] object is true. *)
Definition path_like_truthy (x : path_like) : bool :=
  match x with
  | PLStr [] => false
  | PLStr (_ :: _) => true
  | PLPath _ => true
  end.

(** [p.parent] *)
Definition path_parent (p : pypath) : pypath :=
  mkPath (p_anchor p) (removelast (p_parts p)).

(** [str(p)] *)
Definition path_str (p : pypath) : pystr :=
  match p_anchor p with
  | Root => 47 :: join [47] (p_parts p)
  | TwoSlashes => 47 :: 47 :: join [47] (p_parts p)
  | Relative =>
    match p_parts p with
    | [] => [46]
    | parts => join [47] parts
    end
  end.

(** A character of an ordinary name: printable ASCII, and no slash. *)
Definition name_char (c : N) : bool :=
  (32 <=? c) && (c <=? 126) && negb (c =? 47).

(** An ordinary name: not empty, neither [.] nor [..], of ordinary
    characters, and no longer than the 255 bytes a name may have. *)
Definition ordinary_name (part : pystr) : bool :=
  negb (bool_decide (part = [])) && negb (bool_decide (part = [46]))
  && negb (bool_decide (part = [46; 46]))
  && forallb name_char part && (length part <=? 255)%nat.

(** An ordinary path: ordinary names, and shorter than the 4096 bytes a
    path may have. *)
Definition ordinary_path (p : pypath) : bool :=
  forallb ordinary_name (p_parts p) && (length (path_str p) <? 4096)%nat.

(** The location that a path names, for a path without [..] parts.  The
    system takes two leading slashes for the root. *)
Definition resolve (fs : filesystem) (p : pypath) : fspath :=
  match p_anchor p with
  | Relative => fs_cwd fs ++ p_parts p
  | _ => p_parts p
  end.

(** [str(e)] of an [OSError] on the path [p]. *)
Definition os_error (c : exc_class) (p : pypath) : exn :=
  mkExn c
    (match c with
     | FileNotFoundError => u "[Errno 2] No such file or directory: "
     | FileExistsError => u "[Errno 17] File exists: "
     | NotADirectoryError => u "[Errno 20] Not a directory: "
     | IsADirectoryError => u "[Errno 21] Is a directory: "
     | _ => u "[Errno] "
     end ++ str_repr (path_str p)).

(** Walking down [todo] from the directory [done]: the first name that is
    missing or is a file stops the walk. *)
Fixpoint walk_dirs (fs : filesystem) (done : fspath) (todo : list pystr)
  : option exc_class :=
  match todo with
  | [] => None
  | n :: rest =>
    match fs_lookup fs (done ++ [n]) with
    | None => Some FileNotFoundError
    | Some (FFile _) => Some NotADirectoryError
    | Some FDir => walk_dirs fs (done ++ [n]) rest
    end
  end.

(** [p.exists()] *)
Definition fs_exists (p : pypath) (fs : filesystem) : bool :=
  match fs_lookup fs (resolve fs p) with
  | Some _ => true
  | None => false
  end.

(** Creating the directories of [todo] below [done], top down: an existing
    directory is kept, a file in the way is an error. *)
Fixpoint make_dirs (done : fspath) (todo : list pystr) (fs : filesystem)
  : option exc_class * filesystem :=
  match todo with
  | [] => (None, fs)
  | n :: rest =>
    match fs_lookup fs (done ++ [n]) with
    | Some FDir => make_dirs (done ++ [n]) rest fs
    | Some (FFile _) =>
      (Some (match rest with [] => FileExistsError | _ => NotADirectoryError end), fs)
    | None => make_dirs (done ++ [n]) rest (fs_insert (done ++ [n]) FDir fs)
    end
  end.

(** [p.mkdir(parents=True, exist_ok=True)] *)
Definition fs_mkdir_parents (p : pypath) (fs : filesystem) : result unit * filesystem :=
  match make_dirs [] (resolve fs p) fs with
  | (None, fs') => (Ok tt, fs')
  | (Some c, fs') => (Raise (os_error c p), fs')
  end.

(** [p.write_bytes(data)]: the parent must be a directory and [p] must not be
    one; the file is created or its content replaced. *)
Definition fs_write_bytes (p : pypath) (data : bytes) (fs : filesystem)
  : result unit * filesystem :=
  let q := resolve fs p in
  match walk_dirs fs [] (removelast q) with
  | Some c => (Raise (os_error c p), fs)
  | None =>
    match fs_lookup fs q with
    | Some FDir => (Raise (os_error IsADirectoryError p), fs)
    | _ => (Ok tt, fs_insert q (FFile data) fs)
    end
  end.

(** [p.read_bytes()], for stating what a write leaves behind. *)
Definition fs_read_bytes (p : pypath) (fs : filesystem) : option bytes :=
  match fs_lookup fs (resolve fs p) with
  | Some (FFile b) => Some b
  | _ => None
  end.



(* ===================================================================== *)
(** * The transport library *)
(* ===================================================================== *)

(** What the client uses of [ipfshttpclient]: [connect] and nine methods of
    the object it returns.  [node] is everything behind the library: the
    daemon, its blocks and pins, the sessions.  Each call maps the node's
    state to an outcome and a new state; [lib_add] also reads the file
    system. *)
Record Transport : Type := mkTransport {
  node : Type;
  handle : Type;
  lib_connect : pystr -> node -> result handle * node;
  lib_close : handle -> node -> result unit * node;
  lib_add : handle -> pystr -> bool -> filesystem -> node -> result pyvalue * node;
  lib_add_bytes : handle -> bytes -> bool -> node -> result pystr * node;
  lib_cat : handle -> pystr -> node -> result bytes * node;
  lib_pin_add : handle -> pystr -> node -> result pyvalue * node;
  lib_pin_rm : handle -> pystr -> node -> result pyvalue * node;
  lib_pin_ls : handle -> pystr -> node -> result pyvalue * node;
  lib_stats_bw : handle -> node -> result pyvalue * node;
  lib_id : handle -> node -> result pyvalue * node
}.

(* ===================================================================== *)
(** * The client *)
(* ===================================================================== *)

(** The attributes of an [IPFSClient] object. *)
Record IPFSClient (T : Transport) : Type := mkClient {
  host : pystr;
  port : Z;
  protocol : pystr;
  api_url : pystr;
  _client : option (handle T)
}.
Arguments mkClient {T}.
Arguments host {T}.
Arguments port {T}.
Arguments protocol {T}.
Arguments api_url {T}.
Arguments _client {T}.

(** What a method call can read and change: the object, the node, the file
    system. *)
Record state (T : Transport) : Type := mkState {
  st_self : IPFSClient T;
  st_node : node T;
  st_fs : filesystem
}.
Arguments mkState {T}.
Arguments st_self {T}.
Arguments st_node {T}.
Arguments st_fs {T}.

(** What [add_data] accepts: [Union[str, bytes, dict]]. *)
Inductive payload : Type :=
| DStr (s : pystr)
| DBytes (b : bytes)
| DDict (items : list (pyvalue * pyvalue)).

(** A statement: from a state to an outcome and the state it leaves. *)
Definition M (T : Transport) (A : Type) : Type := state T -> result A * state T.

Definition ret {T A} (a : A) : M T A := fun s => (Ok a, s).

Definition raise {T A} (e : exn) : M T A := fun s => (Raise e, s).

Definition bind {T A B} (m : M T A) (k : A -> M T B) : M T B :=
  fun s =>
    match m s with
    | (Ok a, s') => k a s'
    | (Raise e, s') => (Raise e, s')
    end.

Notation "'let*' x ':=' c1 'in' c2" := (bind c1 (fun x => c2))
  (at level 10, x name, c1 at level 200, c2 at level 200).

(** [try: body except Exception as e: handler(e)].  What the body changed
    before it raised stays changed. *)
Definition try_except {T A} (body : M T A) (handler : exn -> M T A) : M T A :=
  fun s =>
    match body s with
    | (Ok a, s') => (Ok a, s')
    | (Raise e, s') => handler e s'
    end.

(** [try: body except (C1, C2): handler]: other classes pass through. *)
Definition try_except_in {T A} (classes : exc_class -> bool)
    (body : M T A) (handler : M T A) : M T A :=
  fun s =>
    match body s with
    | (Ok a, s') => (Ok a, s')
    | (Raise e, s') => if classes (exn_class e) then handler s' else (Raise e, s')
    end.

(** An expression without effect. *)
Definition lift {T A} (r : result A) : M T A := fun s => (r, s).

Definition get_self {T} : M T (IPFSClient T) := fun s => (Ok (st_self s), s).

(** [self._client = v] *)
Definition set_client {T} (v : option (handle T)) : M T unit :=
  fun s =>
    let c := st_self s in
    (Ok tt,
     mkState (mkClient (host c) (port c) (protocol c) (api_url c) v)
             (st_node s) (st_fs s)).

(** A call into the library. *)
Definition call {T A} (f : node T -> result A * node T) : M T A :=
  fun s =>
    let '(r, n') := f (st_node s) in
    (r, mkState (st_self s) n' (st_fs s)).

(** A call into the library that reads the file system. *)
Definition call_fs {T A} (f : filesystem -> node T -> result A * node T) : M T A :=
  fun s =>
    let '(r, n') := f (st_fs s) (st_node s) in
    (r, mkState (st_self s) n' (st_fs s)).

(** A file-system operation. *)
Definition on_fs {T A} (f : filesystem -> result A * filesystem) : M T A :=
  fun s =>
    let '(r, fs') := f (st_fs s) in
    (r, mkState (st_self s) (st_node s) fs').

(** [self._client.<name>]: [None] has no attribute. *)
Definition client_attr {T} (name : string) : M T (handle T) :=
  fun s =>
    match _client (st_self s) with
    | Some h => (Ok h, s)
    | None =>
      (Raise (mkExn AttributeError
                    (u "'NoneType' object has no attribute '" ++ u name ++ u "'")),
       s)
    end.

Section Methods.

Context {T : Transport}.

(** [IPFSClient.__init__] *)
Definition IPFSClient_init (host : pystr) (port : Z) (protocol : pystr)
  : IPFSClient T :=
  mkClient host port protocol
           (protocol ++ u "://" ++ host ++ u ":" ++ int_repr port ++ u "/api/v0")
           None.

(** [IPFSClient()] with the default arguments. *)
Definition IPFSClient_default : IPFSClient T :=
  IPFSClient_init (u "127.0.0.1") 5001 (u "http").

(** [IPFSClient.connect] *)
Definition connect : M T unit :=
  try_except
    (let* self := get_self in
     let* c := call (lib_connect T
                       (u "/" ++ protocol self ++ u "/" ++ host self
                          ++ u "/" ++ int_repr (port self))) in
     set_client (Some c))
    (fun e =>
       raise (mkExn IPFSConnectionError
                    (u "Failed to connect to IPFS daemon: " ++ exn_str e))).

(** [IPFSClient.close].  [if self._client:] is false for [None] and true for
    a client object of the library. *)
Definition close : M T unit :=
  let* self := get_self in
  match _client self with
  | None => ret tt
  | Some c => call (lib_close T c)
  end.

(** [IPFSClient.__aenter__]: the object itself is the value. *)
Definition aenter : M T unit := connect.

(** [IPFSClient.__aexit__] *)
Definition aexit : M T unit := close.

(** [IPFSClient.add_file] *)
Definition add_file (file_path : path_like) (pin : bool) : M T pyvalue :=
  try_except
    (let file_path := Path_of file_path in
     let* found := on_fs (fun fs => (Ok (fs_exists file_path fs), fs)) in
     if negb found then
       raise (mkExn IPFSError (u "File not found: " ++ path_str file_path))
     else
       let* c := client_attr "add" in
       let* result := call_fs (lib_add T c (path_str file_path) pin) in
       lift (py_getitem result (u "Hash")))
    (fun e => raise (mkExn IPFSError (u "Failed to add file: " ++ exn_str e))).

(** [IPFSClient.add_data] *)
Definition add_data (data : payload) (pin : bool) : M T pystr :=
  try_except
    (let* data :=
       match data with
       | DDict items =>
         let* text := lift (json_dumps (PDict items)) in
         lift (str_encode text)
       | DStr s => lift (str_encode s)
       | DBytes b => ret b
       end in
     let* c := client_attr "add_bytes" in
     call (lib_add_bytes T c data pin))
    (fun e => raise (mkExn IPFSError (u "Failed to add data: " ++ exn_str e))).

(** [IPFSClient.get_file] *)
Definition get_file (hash : pystr) (output_path : option path_like) : M T bytes :=
  try_except
    (let* c := client_attr "cat" in
     let* data := call (lib_cat T c hash) in
     let* _ :=
       match output_path with
       | Some op =>
         if path_like_truthy op then
           let output_path := Path_of op in
           let* _ := on_fs (fs_mkdir_parents (path_parent output_path)) in
           on_fs (fs_write_bytes output_path data)
         else ret tt
       | None => ret tt
       end in
     ret data)
    (fun e => raise (mkExn IPFSError (u "Failed to get file: " ++ exn_str e))).

(** [IPFSClient.get_data] *)
Definition get_data (hash : pystr) : M T pyvalue :=
  try_except
    (let* c := client_attr "cat" in
     let* data := call (lib_cat T c hash) in
     try_except_in is_decode_error
       (let* text := lift (bytes_decode data) in
        lift (json_loads text))
       (let* text := lift (bytes_decode data) in
        ret (PStr text)))
    (fun e => raise (mkExn IPFSError (u "Failed to get data: " ++ exn_str e))).

(** [IPFSClient.pin] *)
Definition pin (hash : pystr) : M T bool :=
  try_except
    (let* c := client_attr "pin" in
     let* _ := call (lib_pin_add T c hash) in
     ret true)
    (fun e => raise (mkExn IPFSError (u "Failed to pin content: " ++ exn_str e))).

(** [IPFSClient.unpin] *)
Definition unpin (hash : pystr) : M T bool :=
  try_except
    (let* c := client_attr "pin" in
     let* _ := call (lib_pin_rm T c hash) in
     ret true)
    (fun e => raise (mkExn IPFSError (u "Failed to unpin content: " ++ exn_str e))).

(** [IPFSClient.list_pins] *)
Definition list_pins : M T (list pyvalue) :=
  try_except
    (let* c := client_attr "pin" in
     let* pins := call (lib_pin_ls T c (u "recursive")) in
     let* keys := lift (py_getitem pins (u "Keys")) in
     let* entries := lift (py_values keys) in
     lift (mapM (fun pin => py_getitem pin (u "Hash")) entries))
    (fun e => raise (mkExn IPFSError (u "Failed to list pins: " ++ exn_str e))).

(** [IPFSClient.get_stats] *)
Definition get_stats : M T pyvalue :=
  try_except
    (let* c := client_attr "stats" in
     call (lib_stats_bw T c))
    (fun e => raise (mkExn IPFSError (u "Failed to get stats: " ++ exn_str e))).

(** [IPFSClient.is_connected]: the bare [except:] catches everything. *)
Definition is_connected : M T bool :=
  try_except
    (let* c := client_attr "id" in
     let* _ := call (lib_id T c) in
     ret true)
    (fun _ => ret false).

End Methods.

(* ===================================================================== *)
(** * A reference library *)
(* ===================================================================== *)

(** One concrete transport, for running the client on concrete inputs: a
    daemon with a block store and a pin set, behind a library that answers
    the calls of the client as [ipfshttpclient] does.
    - [connect] asks the daemon, and raises when it does not answer.  (It
      also refuses an address that is no multiaddr, as the one that the
      default arguments of [IPFSClient] give is; the runs below connect with
      arguments that give [/ip4/127.0.0.1/tcp/5001].)
    - [close] closes the session if one is open and does nothing otherwise;
      the calls need no session, and [connect] opens none.
    - [add] takes the [pin] keyword; [add_bytes] does not, so that the call
      [add_bytes(data, pin=pin)] raises [TypeError] before anything is sent.
    - The listing of [pin.ls] holds each pinned identifier as a key under
      ["Keys"], and under it the type of the pin.
    - The client object of the library has no attribute [stats]. *)
Module RefNode.

Record ref_node : Type := mkRef {
  rn_up : bool;
  rn_blocks : list (pystr * bytes);
  rn_pins : list pystr
}.

Definition lib_error (name : string) (msg : string) : exn :=
  mkExn (LibraryError name) (u msg).

(** The identifier of a block: a prefix and the bytes as code points. *)
Definition cid_of (b : bytes) : pystr := u "Qm" ++ map bN b.

Definition set_store (blocks : list (pystr * bytes)) (pins : list pystr)
    (n : ref_node) : ref_node :=
  mkRef (rn_up n) blocks pins.

Fixpoint find_block (id : pystr) (blocks : list (pystr * bytes)) : option bytes :=
  match blocks with
  | [] => None
  | (k, b) :: rest => if bool_decide (k = id) then Some b else find_block id rest
  end.

Definition is_pinned (id : pystr) (pins : list pystr) : bool :=
  existsb (fun k => bool_decide (k = id)) pins.

Definition remove_pin (id : pystr) (pins : list pystr) : list pystr :=
  filter (fun k => k <> id) pins.

(** An address that the library takes for a multiaddr.  Of the check of the
    library only the first component is kept: it must name a host. *)
Definition names_a_host (addr : pystr) : bool :=
  existsb (fun p => match strip_prefix (u p) addr with Some _ => true | None => false end)
          ["/ip4/"; "/ip6/"; "/dns/"; "/dns4/"; "/dns6/"]%string.

(** A request: the daemon must answer. *)
Definition request {A} (n : ref_node) (k : result A * ref_node) : result A * ref_node :=
  if rn_up n then k
  else (Raise (lib_error "ConnectionError" "connection refused"), n).

Definition ref_connect (addr : pystr) (n : ref_node) : result unit * ref_node :=
  if names_a_host addr then request n (Ok tt, n)
  else (Raise (lib_error "AddressError" "address is not a multiaddr"), n).

Definition ref_close (c : unit) (n : ref_node) : result unit * ref_node :=
  (Ok tt, n).

Definition store_block (b : bytes) (pin : bool) (n : ref_node) : ref_node :=
  set_store ((cid_of b, b) :: rn_blocks n)
            (if pin then cid_of b :: rn_pins n else rn_pins n) n.

Definition ref_add_bytes (c : unit) (b : bytes) (pin : bool) (n : ref_node)
  : result pystr * ref_node :=
  (Raise (mkExn TypeError (u "request() got an unexpected keyword argument 'pin'")),
   n).

Definition ref_add (c : unit) (path : pystr) (pin : bool) (fs : filesystem)
    (n : ref_node) : result pyvalue * ref_node :=
  match fs_read_bytes (Path_of_str path) fs with
  | None => (Raise (os_error FileNotFoundError (Path_of_str path)), n)
  | Some b =>
    request n (Ok (PDict [(PStr (u "Name"), PStr path);
                          (PStr (u "Hash"), PStr (cid_of b));
                          (PStr (u "Size"), PStr (int_repr (Z.of_nat (length b))))]),
               store_block b pin n)
  end.

Definition ref_cat (c : unit) (id : pystr) (n : ref_node) : result bytes * ref_node :=
  request n
    match find_block id (rn_blocks n) with
    | Some b => (Ok b, n)
    | None => (Raise (lib_error "ErrorResponse" "block not found"), n)
    end.

Definition pins_answer (id : pystr) : pyvalue :=
  PDict [(PStr (u "Pins"), PList [PStr id])].

Definition ref_pin_add (c : unit) (id : pystr) (n : ref_node)
  : result pyvalue * ref_node :=
  request n
    match find_block id (rn_blocks n) with
    | Some _ =>
      (Ok (pins_answer id),
       if is_pinned id (rn_pins n) then n
       else set_store (rn_blocks n) (id :: rn_pins n) n)
    | None => (Raise (lib_error "ErrorResponse" "block not found"), n)
    end.

Definition ref_pin_rm (c : unit) (id : pystr) (n : ref_node)
  : result pyvalue * ref_node :=
  request n
    (if is_pinned id (rn_pins n) then
       (Ok (pins_answer id), set_store (rn_blocks n) (remove_pin id (rn_pins n)) n)
     else (Raise (lib_error "ErrorResponse" "not pinned or pinned indirectly"), n)).

End RefNode.

(** The listing of [pin.ls]: under ["Keys"], one entry per pinned
    identifier, with the identifier as key and the type of the pin under
    ["Type"]. *)
Definition pin_entry (kind : pystr) (id : pystr) : pyvalue * pyvalue :=
  (PStr id, PDict [(PStr (u "Type"), PStr kind)]).

Definition pins_listing (kind : pystr) (ids : list pystr) : pyvalue :=
  PDict [(PStr (u "Keys"), PDict (map (pin_entry kind) ids))].

Module RefTransport.
Import RefNode.

Definition ref_pin_ls (c : unit) (kind : pystr) (n : ref_node)
  : result pyvalue * ref_node :=
  request n (Ok (pins_listing kind (rn_pins n)), n).

Definition ref_stats_bw (c : unit) (n : ref_node) : result pyvalue * ref_node :=
  (Raise (mkExn AttributeError (u "'Client' object has no attribute 'stats'")), n).

Definition ref_id (c : unit) (n : ref_node) : result pyvalue * ref_node :=
  request n (Ok (PDict [(PStr (u "ID"), PStr (u "peer"))]), n).

Definition transport : Transport :=
  mkTransport ref_node unit ref_connect ref_close ref_add ref_add_bytes ref_cat
              ref_pin_add ref_pin_rm ref_pin_ls ref_stats_bw ref_id.

(** A running daemon that holds the blocks [blocks], none of them pinned. *)
Definition node_with (blocks : list bytes) : ref_node :=
  mkRef true (map (fun b => (cid_of b, b)) blocks) [].

(** A running daemon with nothing stored. *)
Definition fresh_node : ref_node := node_with [].

(** A daemon that does not answer. *)
Definition down_node : ref_node := mkRef false [] [].

Definition empty_fs : filesystem := mkFs [] ∅.

(** A client just constructed with the default arguments, in front of
    [n] and [fs]. *)
Definition start (n : ref_node) (fs : filesystem) : state transport :=
  mkState (T := transport) IPFSClient_default n fs.

(** [IPFSClient("127.0.0.1/tcp", 5001, "ip4")]: the address that [connect]
    builds from these is [/ip4/127.0.0.1/tcp/5001]. *)
Definition start_ip4 (n : ref_node) (fs : filesystem) : state transport :=
  mkState (T := transport) (IPFSClient_init (u "127.0.0.1/tcp") 5001 (u "ip4")) n fs.

(** The state a statement leaves. *)
Definition after {A} (m : M transport A) (s : state transport) : state transport :=
  snd (m s).

End RefTransport.

(* ===================================================================== *)
(** * The vocabulary of the statements *)
(* ===================================================================== *)

(** An outcome that is a value, or an exception of exactly the class [c]. *)
Definition fails_only_with {A} (c : exc_class) (r : result A) : Prop :=
  match r with
  | Ok _ => True
  | Raise e => exn_class e = c
  end.



Section Statements.

Context {T : Transport}.

(** A statement that never assigns to an attribute of [self]. *)
Definition keeps_self {A} (m : M T A) : Prop :=
  forall s, st_self (snd (m s)) = st_self s.

(** The probe of [is_connected]: [self._client.id()] returned. *)
Definition probe_succeeds (s : state T) : bool :=
  match _client (st_self s) with
  | None => false
  | Some c =>
    match fst (lib_id T c (st_node s)) with
    | Ok _ => true
    | Raise _ => false
    end
  end.

(** What a data operation could do on a client that was never connected,
    were it to guard the connection: connect by itself, or refuse with the
    connection error. *)
Definition connects_or_refuses {A} (m : M T A) (s : state T) : Prop :=
  _client (st_self (snd (m s))) <> None \/
  raises_class IPFSConnectionError (fst (m s)).

(** The outcome of a data operation that stops at [self._client.<name>]. *)
Definition raised_before_the_node {A} (m : M T A) (s : state T) : Prop :=
  raises_class IPFSError (fst (m s)) /\ snd (m s) = s.

End Statements.

(** A code point that has a UTF-8 encoding: at most U+10FFFF and no
    surrogate. *)
Definition valid_char (c : N) : bool := (c <? 0x110000) && negb (is_surrogate c).

Definition valid_text (s : pystr) : bool := forallb valid_char s.

(** The string keys of the items of a dict. *)
Fixpoint str_keys (items : list (pyvalue * pyvalue)) : list pystr :=
  match items with
  | [] => []
  | (PStr k, _) :: rest => k :: str_keys rest
  | _ :: rest => str_keys rest
  end.

(** The items of a dict with string keys, as [JSONObject] collects them. *)
Fixpoint str_pairs (items : list (pyvalue * pyvalue)) : list (pystr * pyvalue) :=
  match items with
  | [] => []
  | (PStr k, v) :: rest => (k, v) :: str_pairs rest
  | _ :: rest => str_pairs rest
  end.

(** The values that JSON has, floats apart: [None], booleans, integers,
    strings, lists, and dicts whose keys are strings.  The strings are text
    (no surrogate code points), and the items of a dict have distinct keys,
    as the items of a Python dict do. *)
Fixpoint json_value (v : pyvalue) : bool :=
  match v with
  | PNone | PBool _ | PInt _ => true
  | PStr s => valid_text s
  | PFloat _ | PBytes _ => false
  | PList items => forallb json_value items
  | PDict items =>
    bool_decide (NoDup (str_keys items))
    && forallb (fun kv : pyvalue * pyvalue =>
                  match fst kv with
                  | PStr k => valid_text k
                  | _ => false
                  end && json_value (snd kv)) items
  end.

(** Induction on a value, with the property at hand for the items of a list
    and for the values of a dict. *)
Fixpoint pyvalue_nested_ind (P : pyvalue -> Prop)
    (HNone : P PNone) (HBool : forall b, P (PBool b)) (HInt : forall z, P (PInt z))
    (HFloat : forall lit, P (PFloat lit)) (HStr : forall s, P (PStr s))
    (HBytes : forall b, P (PBytes b))
    (HList : forall items, Forall P items -> P (PList items))
    (HDict : forall items, Forall (fun kv => P (snd kv)) items -> P (PDict items))
    (v : pyvalue) {struct v} : P v :=
  match v with
  | PNone => HNone
  | PBool b => HBool b
  | PInt z => HInt z
  | PFloat lit => HFloat lit
  | PStr s => HStr s
  | PBytes b => HBytes b
  | PList items =>
    HList items
      ((fix go (l : list pyvalue) : Forall P l :=
          match l with
          | [] => List.Forall_nil P
          | x :: r =>
            @List.Forall_cons _ P x r
              (pyvalue_nested_ind P HNone HBool HInt HFloat HStr HBytes HList HDict x)
              (go r)
          end) items)
  | PDict items =>
    HDict items
      ((fix go (l : list (pyvalue * pyvalue)) : Forall (fun kv => P (snd kv)) l :=
          match l with
          | [] => List.Forall_nil _
          | kv :: r =>
            @List.Forall_cons _ (fun kv => P (snd kv)) kv r
              (pyvalue_nested_ind P HNone HBool HInt HFloat HStr HBytes HList HDict
                                  (snd kv))
              (go r)
          end) items)
  end.

(** What may follow a number: not a digit, nor the start of a fraction or
    of an exponent. *)
Definition ends_number (rest : pystr) : Prop :=
  match rest with
  | [] => True
  | c :: _ => is_digit c = false /\ c <> 46 /\ c <> 101 /\ c <> 69
  end.

(** How the text of a value starts: with a character that is neither white
    space nor a closing bracket. *)
Definition starts_value (text : pystr) : Prop :=
  match text with
  | c :: _ => is_ws c = false /\ c <> 93
  | [] => False
  end.

(** What follows a value inside a text that [json.dumps] wrote: nothing, a
    comma, or a closing bracket or brace. *)
Definition follows_value (rest : pystr) : Prop :=
  match rest with
  | [] => True
  | c :: _ => c = 44 \/ c = 93 \/ c = 125
  end.

Definition ascii_text (text : pystr) : Prop := Forall (fun c => c < 128) text.

(** The text [t] reads back as [v], whatever follows a value. *)
Definition reads_back (v : pyvalue) (t : pystr) : Prop :=
  forall fuel rest,
    (length t <= fuel)%nat -> follows_value rest ->
    parse_value fuel (t ++ rest) = Some (v, rest).

(** The text of one item of a dict. *)
Definition member_text (kv : pyvalue * pyvalue) (part : pystr) : Prop :=
  exists k t,
    fst kv = PStr k /\ valid_text k = true /\ starts_value t /\
    reads_back (snd kv) t /\
    part = encode_basestring_ascii k ++ u ": " ++ t.

Definition all_str_keys (items : list (pyvalue * pyvalue)) : Prop :=
  Forall (fun kv => exists k, fst kv = PStr k) items.

(** The states of the runs below. *)
Module Inputs.
Import RefNode RefTransport.

(** [b"hello"] *)
Definition hello : bytes := map byte_of_N (u "hello").

(** A client constructed with the default arguments and never connected. *)
Definition s_new : state transport := start fresh_node empty_fs.

(** A client after [connect], in front of a daemon with nothing stored. *)
Definition s_connected : state transport := after connect (start_ip4 fresh_node empty_fs).

(** The same after [close]. *)
Definition s_closed : state transport := after close s_connected.

(** A client after [connect], in front of a daemon that holds the single
    byte [ff], which is not UTF-8. *)
Definition s_stored_xff : state transport :=
  after connect (start_ip4 (node_with [[xff]]) empty_fs).

(** A client after [connect], in front of a daemon that holds [b"hello"]. *)
Definition s_stored_hello : state transport :=
  after connect (start_ip4 (node_with [hello]) empty_fs).

(** The same, with [/home] and [/tmp] directories, [/tmp/old] a file, and
    [/home] the working directory. *)
Definition s_with_files : state transport :=
  mkState (st_self s_stored_hello) (st_node s_stored_hello)
          (mkFs [u "home"]
                (<[ [u "tmp"; u "old"] := FFile [x00] ]>
                   (<[ [u "tmp"] := FDir ]> (<[ [u "home"] := FDir ]> ∅)))).

(** [json.dumps(v).encode()] *)
Definition written (v : pyvalue) : bytes :=
  match json_dumps v with
  | Ok text => map byte_of_N text
  | Raise _ => []
  end.

(** A client after [connect], in front of a daemon that holds the written
    form of [v]. *)
Definition s_stored_json (v : pyvalue) : state transport :=
  after connect (start_ip4 (node_with [written v]) empty_fs).

(** The client of [s_stored_hello] after the daemon has stopped. *)
Definition s_daemon_down : state transport :=
  mkState (st_self s_stored_hello) down_node (st_fs s_stored_hello).

End Inputs.

(* ===================================================================== *)
(** * More vocabulary: the codecs, the callers, the other operations *)
(* ===================================================================== *)

(** The bytes [bs] are one well-formed sequence, and it decodes to [c]: the
    tests of [utf8_decode] on the first byte and on those that follow it. *)
Definition decodes_as (bs : bytes) (c : N) : bool :=
  match bs with
  | [b0] => (bN b0 <? 0x80) && (bN b0 =? c)
  | [b0; b1] =>
    negb (bN b0 <? 0x80) && ((0xC2 <=? bN b0) && (bN b0 <=? 0xDF))
    && is_cont (bN b1)
    && (N.lor (N.shiftl (N.land (bN b0) 0x1F) 6) (cont_bits (bN b1)) =? c)
  | [b0; b1; b2] =>
    negb (bN b0 <? 0x80) && negb ((0xC2 <=? bN b0) && (bN b0 <=? 0xDF))
    && ((0xE0 <=? bN b0) && (bN b0 <=? 0xEF))
    && (second_of_3 (bN b0) (bN b1) && is_cont (bN b2))
    && (N.lor (N.shiftl (N.land (bN b0) 0x0F) 12)
          (N.lor (N.shiftl (cont_bits (bN b1)) 6) (cont_bits (bN b2))) =? c)
  | [b0; b1; b2; b3] =>
    negb (bN b0 <? 0x80) && negb ((0xC2 <=? bN b0) && (bN b0 <=? 0xDF))
    && negb ((0xE0 <=? bN b0) && (bN b0 <=? 0xEF))
    && ((0xF0 <=? bN b0) && (bN b0 <=? 0xF4))
    && (second_of_4 (bN b0) (bN b1) && is_cont (bN b2) && is_cont (bN b3))
    && (N.lor (N.shiftl (N.land (bN b0) 0x07) 18)
          (N.lor (N.shiftl (cont_bits (bN b1)) 12)
             (N.lor (N.shiftl (cont_bits (bN b2)) 6) (cont_bits (bN b3)))) =? c)
  | _ => false
  end.

(** A code point that has no encoding, or whose encoding decodes to it. *)
Definition char_round_trips (c : N) : bool :=
  negb (valid_char c)
  || match utf8_encode_char c with
     | Some bs => decodes_as bs c
     | None => false
     end.

(** Checking the code points from [0] upwards, one at a time. *)
Definition check_next (st : N * bool) : N * bool :=
  (N.succ (fst st), snd st && char_round_trips (fst st)).

Section Callers.

Context {T : Transport}.

(** [async with client: body], as the interpreter runs it: [__aenter__]
    first; when it raises, neither the body nor [__aexit__] runs.  After the
    body, [__aexit__] in every case.  [__aexit__] returns [None], a false
    value, so an exception of the body goes on after it; an exception of
    [__aexit__] itself takes its place. *)
Definition async_with {A} (body : M T A) : M T A :=
  let* _ := aenter in
  fun s =>
    match body s with
    | (Ok a, s1) => (let* _ := aexit in ret a) s1
    | (Raise e, s1) =>
      match aexit s1 with
      | (Ok _, s2) => (Raise e, s2)
      | (Raise e', s2) => (Raise e', s2)
      end
    end.

End Callers.

Section MoreStatements.

Context {T : Transport}.

(** A statement that leaves every file and directory as it was. *)
Definition keeps_fs {A} (m : M T A) : Prop :=
  forall s, st_fs (snd (m s)) = st_fs s.

(** The outcome of an operation behind [except Exception as e: raise
    C(f"<prefix>{e}")]: a value, or an exception of the class [c] whose
    message is the prefix and then the message of its cause. *)
Definition wraps_as {A} (c : exc_class) (prefix : pystr) (r : result A) : Prop :=
  match r with
  | Ok _ => True
  | Raise e => exn_class e = c /\ exists cause, exn_str e = prefix ++ cause
  end.

(** What a data operation answers when the call of the library raised [e]
    and left the node as [n']. *)
Definition failed_with {A} (prefix : pystr) (e : exn) (s : state T) (n' : node T)
  : result A * state T :=
  (Raise (mkExn IPFSError (prefix ++ exn_str e)),
   mkState (st_self s) n' (st_fs s)).

(** The state [s] with another client object in the place of [self]. *)
Definition with_self (self' : IPFSClient T) (s : state T) : state T :=
  mkState self' (st_node s) (st_fs s).

(** A statement that reads nothing of [self] but [self._client], and assigns
    nothing to [self]. *)
Definition reads_only_client {A} (m : M T A) : Prop :=
  forall s self',
    _client self' = _client (st_self s) ->
    st_self (snd (m s)) = st_self s /\
    m (with_self self' s) = (fst (m s), with_self self' (snd (m s))).

(** The statement [m] has the same outcome from [s'] as from [s], and leaves
    the same node and the same file system. *)
Definition same_outcome {A} (m : M T A) (s s' : state T) : Prop :=
  fst (m s') = fst (m s) /\
  st_node (snd (m s')) = st_node (snd (m s)) /\
  st_fs (snd (m s')) = st_fs (snd (m s)).

End MoreStatements.


(** An entry of a pin listing that is a dict without ["Hash"]. *)
Definition entry_without_hash (kv : pyvalue * pyvalue) : Prop :=
  exists d, snd kv = PDict d /\ dict_get (u "Hash") d = None.

(** The key that [json.dumps] writes for [k], as a value: a string stays,
    a number, a boolean and [None] become the string of their text. *)
Definition key_as_written (k : pyvalue) : pyvalue :=
  match json_key k with
  | Ok s => PStr s
  | Raise _ => k
  end.

(** The value [v] with every key of every dict in it as [json.dumps] writes
    it. *)
Fixpoint keys_as_written (v : pyvalue) : pyvalue :=
  match v with
  | PList items => PList (map keys_as_written items)
  | PDict items =>
    PDict (map (fun kv : pyvalue * pyvalue =>
                  (key_as_written (fst kv), keys_as_written (snd kv))) items)
  | _ => v
  end.

(** The reference node behind a library that answers [pin.ls] in another
    shape, and the states of the runs on it. *)
Module OtherListings.
Import RefNode RefTransport Inputs.

(** The library whose [pin.ls] answers [shape pins] for the pins of the
    node. *)
Definition listing_transport (shape : list pystr -> pyvalue) : Transport :=
  mkTransport ref_node unit ref_connect ref_close ref_add ref_add_bytes ref_cat
              ref_pin_add ref_pin_rm
              (fun _ _ n => request n (Ok (shape (rn_pins n)), n))
              ref_stats_bw ref_id.

(** An answer without ["Keys"]. *)
Definition no_keys (pins : list pystr) : pyvalue := PDict [].

(** After [connect] and [pin] of [b"hello"], which the daemon holds. *)
Definition s_pinned (shape : list pystr -> pyvalue) : state (listing_transport shape) :=
  snd (pin (cid_of hello)
         (snd (connect (mkState (T := listing_transport shape)
                                (IPFSClient_init (u "127.0.0.1/tcp") 5001 (u "ip4"))
                                (node_with [hello]) empty_fs)))).

End OtherListings.

(* ===================================================================== *)
(** * Running the codecs *)
(* ===================================================================== *)

Example utf8_decode_ascii :
  utf8_decode [x68; x69] = Some (u "hi").
Proof. reflexivity. Qed.

Example utf8_decode_e_acute :
  utf8_decode [xc3; xa9] = Some [0xE9].
Proof. reflexivity. Qed.

Example utf8_decode_xff : utf8_decode [xff] = None.
Proof. reflexivity. Qed.

Example utf8_encode_euro :
  utf8_encode [0x20AC] = Some [xe2; x82; xac].
Proof. reflexivity. Qed.

Example json_dumps_a_1 :
  json_dumps dict_a_1 = Ok ([123; 34] ++ u "a" ++ [34] ++ u ": 1}").
Proof. reflexivity. Qed.

Example json_loads_a_1 :
  json_loads ([123; 34] ++ u "a" ++ [34] ++ u ": 1}") = Ok dict_a_1.
Proof. vm_compute. reflexivity. Qed.

Example json_loads_nested :
  json_loads (u "[1, -20, [true, null], {}, 1.5e3 ]")
  = Ok (PList [PInt 1; PInt (-20); PList [PBool true; PNone]; PDict [];
               PFloat (u "1.5e3")]).
Proof. vm_compute. reflexivity. Qed.

Example json_loads_text : raises_class JSONDecodeError (json_loads (u "hello")).
Proof. vm_compute. reflexivity. Qed.

Example json_loads_extra : raises_class JSONDecodeError (json_loads (u "01")).
Proof. vm_compute. reflexivity. Qed.

(* ===================================================================== *)
(** * [json.loads] inverts [json.dumps] *)
(* ===================================================================== *)

(* ------------------------------------------------------------------ *)
(** ** Numbers *)

Lemma digit_cons_chars (d : Decimal.uint) :
  digits_uint (uint_chars d) = d.
Proof.
  induction d; simpl; try reflexivity; unfold digit_cons; simpl; rewrite IHd; reflexivity.
Qed.

Lemma take_digits_chars (d : Decimal.uint) (rest : pystr) :
  ends_number rest ->
  take_digits (uint_chars d ++ rest) = (uint_chars d, rest).
Proof.
  intros Hrest. induction d; simpl; try (rewrite IHd; reflexivity).
  destruct rest as [| c r]; [reflexivity | ].
  simpl. destruct Hrest as [-> _]. reflexivity.
Qed.

Lemma nzhead_not_D0 (d d' : Decimal.uint) : Decimal.nzhead d <> Decimal.D0 d'.
Proof. induction d; simpl; try discriminate. exact IHd. Qed.

Lemma unorm_D0 (d : Decimal.uint) :
  Decimal.unorm (Decimal.D0 d) = Decimal.D0 d -> d = Decimal.Nil.
Proof.
  unfold Decimal.unorm. simpl.
  destruct (Decimal.nzhead d) eqn:Hnz; intros H; try discriminate.
  - injection H as <-. reflexivity.
  - exfalso. exact (nzhead_not_D0 _ _ Hnz).
Qed.

Lemma pos_to_uint_unorm (p : positive) :
  Decimal.unorm (Pos.to_uint p) = Pos.to_uint p.
Proof.
  rewrite <- (DecimalPos.Unsigned.to_of (Pos.to_uint p)).
  rewrite DecimalPos.Unsigned.of_to. reflexivity.
Qed.

Lemma eat_same (c : N) (r : pystr) : eat c (c :: r) = Some r.
Proof. unfold eat. rewrite N.eqb_refl. reflexivity. Qed.

Lemma eat_other (c x : N) (r : pystr) : x <> c -> eat c (x :: r) = None.
Proof. intros H. unfold eat. apply N.eqb_neq in H. rewrite H. reflexivity. Qed.

(** The tail of [parse_number], once the integer part [ds] has been read and
    nothing of a fraction or of an exponent follows. *)
Lemma number_tail (neg : bool) (ds rest : pystr) :
  ends_number rest ->
  (let '(frac, r2) :=
      match eat 46 rest with
      | Some r =>
        match take_digits r with
        | ([], _) => ([], rest)
        | (fd, rest') => (46 :: fd, rest')
        end
      | None => ([], rest)
      end in
    let '(ex, r3) :=
      match r2 with
      | e :: r =>
        if (e =? 101) || (e =? 69) then
          let '(sign, r') :=
            match r with
            | sg :: r'' => if (sg =? 43) || (sg =? 45) then ([sg], r'') else ([], r)
            | [] => ([], r)
            end in
          match take_digits r' with
          | ([], _) => ([], r2)
          | (ed, rest') => (e :: sign ++ ed, rest')
          end
        else ([], r2)
      | [] => ([], r2)
      end in
    match frac, ex with
    | [], [] => Some (PInt (int_of_lexeme neg ds), r3)
    | _, _ => Some (PFloat ((if neg then [45] else []) ++ ds ++ frac ++ ex), r3)
    end) = Some (PInt (int_of_lexeme neg ds), rest).
Proof.
  intros Hrest. destruct rest as [| c r]; [reflexivity | ].
  destruct Hrest as (_ & H46 & H101 & H69).
  rewrite eat_other by exact H46.
  apply N.eqb_neq in H101, H69. rewrite H101, H69. reflexivity.
Qed.

Lemma parse_digits (neg : bool) (d : Decimal.uint) (rest : pystr) :
  Decimal.unorm d = d ->
  ends_number rest ->
  match uint_chars d ++ rest with
  | c :: r =>
      if c =? 48 then Some ([48], r)
      else if is_digit c then let '(ds, rest) := take_digits r in Some (c :: ds, rest)
      else None
  | [] => None
  end = Some (uint_chars d, rest).
Proof.
  intros Hnorm Hrest.
  destruct d; simpl;
    try (rewrite take_digits_chars by exact Hrest; reflexivity).
  - unfold Decimal.unorm in Hnorm. simpl in Hnorm. discriminate Hnorm.
  - apply unorm_D0 in Hnorm. subst d. reflexivity.
Qed.

Lemma to_int_cases (z : Z) :
  exists d, Decimal.unorm d = d /\
    (Z.to_int z = Decimal.Pos d \/ Z.to_int z = Decimal.Neg d).
Proof.
  destruct z as [| p | p]; simpl.
  - exists (Decimal.D0 Decimal.Nil). auto.
  - exists (Pos.to_uint p). split; [apply pos_to_uint_unorm | auto].
  - exists (Pos.to_uint p). split; [apply pos_to_uint_unorm | auto].
Qed.

Lemma uint_chars_head (d : Decimal.uint) (rest : pystr) :
  d <> Decimal.Nil ->
  exists c r, uint_chars d ++ rest = c :: r /\ is_digit c = true.
Proof.
  destruct d; intros H; try contradiction; simpl; eauto.
Qed.

Lemma unorm_not_nil (d : Decimal.uint) : Decimal.unorm d = d -> d <> Decimal.Nil.
Proof. intros H ->. discriminate H. Qed.

(** [int(repr(z))] is [z], in the middle of a text. *)
Lemma parse_number_int_repr (z : Z) (rest : pystr) :
  ends_number rest ->
  parse_number (int_repr z ++ rest) = Some (PInt z, rest).
Proof.
  intros Hrest. unfold parse_number, int_repr.
  destruct (to_int_cases z) as (d & Hnorm & [Hz | Hz]).
  - rewrite Hz.
    destruct (uint_chars_head d rest (unorm_not_nil d Hnorm)) as (c & r & Hcr & Hc).
    assert (Hminus : eat 45 (uint_chars d ++ rest) = None).
    { rewrite Hcr. apply eat_other. intros ->. discriminate Hc. }
    rewrite Hminus. rewrite (parse_digits false d rest Hnorm Hrest).
    rewrite number_tail by exact Hrest.
    unfold int_of_lexeme. rewrite digit_cons_chars, <- Hz, DecimalZ.of_to. reflexivity.
  - rewrite Hz. change ((45 :: uint_chars d) ++ rest) with (45 :: (uint_chars d ++ rest)).
    rewrite eat_same. rewrite (parse_digits true d rest Hnorm Hrest).
    rewrite number_tail by exact Hrest.
    unfold int_of_lexeme. rewrite digit_cons_chars, <- Hz, DecimalZ.of_to. reflexivity.
Qed.

(* ------------------------------------------------------------------ *)
(** ** Strings *)

Lemma lor_disjoint (a b k : N) : b < 2 ^ k -> N.lor (a * 2 ^ k) b = a * 2 ^ k + b.
Proof.
  intros Hb.
  assert (Hland : N.land (a * 2 ^ k) b = 0).
  { apply N.bits_inj_0. intros i. rewrite N.land_spec.
    destruct (N.lt_ge_cases i k) as [Hlt | Hge].
    - rewrite N.mul_pow2_bits_low by exact Hlt. reflexivity.
    - rewrite <- (N.mod_small b (2 ^ k)) by exact Hb.
      rewrite N.mod_pow2_bits_high by exact Hge. apply andb_false_r. }
  rewrite N.add_nocarry_lxor by exact Hland.
  rewrite N.lxor_lor by exact Hland. reflexivity.
Qed.

Lemma land_low (a k : N) : N.land a (N.ones k) = a mod 2 ^ k.
Proof. apply N.land_ones. Qed.

Lemma hexval_hexdigit (d : N) : d < 16 -> hexval (hexdigit d) = Some d.
Proof.
  intros Hd.
  assert (H : d = 0 \/ d = 1 \/ d = 2 \/ d = 3 \/ d = 4 \/ d = 5 \/ d = 6 \/ d = 7 \/
              d = 8 \/ d = 9 \/ d = 10 \/ d = 11 \/ d = 12 \/ d = 13 \/ d = 14 \/ d = 15)
    by lia.
  repeat (destruct H as [-> | H]; [reflexivity | ]). subst d. reflexivity.
Qed.

Lemma nibble_lt (a : N) : N.land a 15 < 16.
Proof.
  change 15 with (N.ones 4). rewrite land_low. apply N.mod_lt. discriminate.
Qed.

Lemma nibbles (n : N) :
  n < 65536 ->
  ((N.land (N.shiftr n 12) 15 * 16 + N.land (N.shiftr n 8) 15) * 16
   + N.land (N.shiftr n 4) 15) * 16 + N.land n 15 = n.
Proof.
  intros Hn. change 15 with (N.ones 4). rewrite !land_low, !N.shiftr_div_pow2.
  change (2 ^ 4) with 16. change (2 ^ 8) with 256. change (2 ^ 12) with 4096.
  pose proof (N.div_mod n 16 ltac:(discriminate)).
  pose proof (N.div_mod (n / 16) 16 ltac:(discriminate)).
  pose proof (N.div_mod (n / 16 / 16) 16 ltac:(discriminate)).
  pose proof (N.mod_lt n 16 ltac:(discriminate)).
  pose proof (N.mod_lt (n / 16) 16 ltac:(discriminate)).
  pose proof (N.mod_lt (n / 16 / 16) 16 ltac:(discriminate)).
  assert (H256 : n / 256 = n / 16 / 16) by (rewrite N.Div0.div_div; reflexivity).
  assert (H4096 : n / 4096 = n / 16 / 16 / 16) by (rewrite !N.Div0.div_div; reflexivity).
  assert (Hsmall : n / 16 / 16 / 16 < 16).
  { rewrite <- H4096. apply N.Div0.div_lt_upper_bound. exact Hn. }
  rewrite H256, H4096. rewrite (N.mod_small (n / 16 / 16 / 16)) by exact Hsmall.
  lia.
Qed.

(** The four digits of [hex4] read back. *)
Lemma decode_hex4 (n : N) (rest : pystr) :
  n < 65536 -> decode_uXXXX (hex4 n ++ rest) = Some (n, rest).
Proof.
  intros Hn. unfold hex4, decode_uXXXX. cbn [app].
  rewrite !hexval_hexdigit by apply nibble_lt.
  rewrite nibbles by exact Hn. reflexivity.
Qed.

(** The two halves of a code point above U+FFFF, as [escape_char] writes
    them and [scanstring] joins them. *)
Lemma surrogate_pair (c : N) :
  0x10000 <= c -> c < 0x110000 ->
  let n := c - 0x10000 in
  let s1 := N.lor 0xd800 (N.land (N.shiftr n 10) 0x3ff) in
  let s2 := N.lor 0xdc00 (N.land n 0x3ff) in
  (0xd800 <= s1 <= 0xdbff) /\ (0xdc00 <= s2 <= 0xdfff) /\
  0x10000 + N.lor (N.shiftl (s1 - 0xd800) 10) (s2 - 0xdc00) = c.
Proof.
  intros Hlo Hhi n s1 s2.
  assert (Hn : n < 1024 * 1024) by (unfold n; lia).
  assert (Hh : N.land (N.shiftr n 10) 0x3ff = n / 1024).
  { change 0x3ff with (N.ones 10). rewrite land_low, N.shiftr_div_pow2.
    change (2 ^ 10) with 1024. apply N.mod_small.
    apply N.Div0.div_lt_upper_bound. exact Hn. }
  assert (Hl : N.land n 0x3ff = n mod 1024).
  { change 0x3ff with (N.ones 10). rewrite land_low. reflexivity. }
  assert (Hhlt : n / 1024 < 1024) by (apply N.Div0.div_lt_upper_bound; exact Hn).
  assert (Hllt : n mod 1024 < 1024) by (apply N.mod_lt; discriminate).
  assert (H1 : s1 = 0xd800 + n / 1024).
  { unfold s1. rewrite Hh. change 0xd800 with (54 * 2 ^ 10).
    apply lor_disjoint. exact Hhlt. }
  assert (H2 : s2 = 0xdc00 + n mod 1024).
  { unfold s2. rewrite Hl. change 0xdc00 with (55 * 2 ^ 10).
    apply lor_disjoint. exact Hllt. }
  split; [lia | ]. split; [lia | ].
  rewrite H1, H2.
  replace (0xd800 + n / 1024 - 0xd800) with (n / 1024) by lia.
  replace (0xdc00 + n mod 1024 - 0xdc00) with (n mod 1024) by lia.
  rewrite N.shiftl_mul_pow2, lor_disjoint by exact Hllt.
  change (2 ^ 10) with 1024.
  pose proof (N.div_mod n 1024 ltac:(discriminate)). unfold n in *. lia.
Qed.

Lemma strip_prefix_app (prefix rest : pystr) :
  strip_prefix prefix (prefix ++ rest) = Some rest.
Proof.
  induction prefix as [| p prefix IH]; [reflexivity | ].
  simpl. rewrite N.eqb_refl. exact IH.
Qed.

(** One character of a string, written by [escape_char], is one step of
    [scanstring]. *)
Lemma scan_escaped_char (c : N) (fuel : nat) (rest : pystr) :
  valid_char c = true ->
  scanstring (S fuel) (escape_char c ++ rest) =
  match scanstring fuel rest with
  | Some (str, rest') => Some (c :: str, rest')
  | None => None
  end.
Proof.
  intros Hvalid. unfold valid_char, is_surrogate in Hvalid.
  apply andb_true_iff in Hvalid as [Hmax Hsur].
  apply N.ltb_lt in Hmax. apply negb_true_iff in Hsur.
  unfold escape_char.
  destruct (c =? 34) eqn:E34; [apply N.eqb_eq in E34; subst c; reflexivity | ].
  destruct (c =? 92) eqn:E92; [apply N.eqb_eq in E92; subst c; reflexivity | ].
  destruct (c =? 10) eqn:E10; [apply N.eqb_eq in E10; subst c; reflexivity | ].
  destruct (c =? 13) eqn:E13; [apply N.eqb_eq in E13; subst c; reflexivity | ].
  destruct (c =? 9) eqn:E9; [apply N.eqb_eq in E9; subst c; reflexivity | ].
  destruct (c =? 12) eqn:E12; [apply N.eqb_eq in E12; subst c; reflexivity | ].
  destruct (c =? 8) eqn:E8; [apply N.eqb_eq in E8; subst c; reflexivity | ].
  destruct ((32 <=? c) && (c <=? 126)) eqn:Eprint.
  - apply andb_true_iff in Eprint as [Hlo _]. apply N.leb_le in Hlo.
    assert (Hctl : (c <? 32) = false) by (apply N.ltb_ge; exact Hlo).
    cbn [app scanstring]. rewrite E34, E92, Hctl. reflexivity.
  - destruct (c <? 65536) eqn:Ebmp.
    + apply N.ltb_lt in Ebmp.
      change ((92 :: 117 :: hex4 c) ++ rest) with (92 :: 117 :: (hex4 c ++ rest)).
      cbn [scanstring]. change (92 =? 34) with false. change (92 =? 92) with true.
      change (117 =? 117) with true. cbv beta iota.
      rewrite decode_hex4 by exact Ebmp.
      assert (Hhigh : (55296 <=? c) && (c <=? 56319) = false).
      { apply andb_false_iff. apply andb_false_iff in Hsur as [H | H].
        - left. exact H.
        - right. apply N.leb_gt. apply N.leb_gt in H. lia. }
      rewrite Hhigh. reflexivity.
    + apply N.ltb_ge in Ebmp.
      destruct (surrogate_pair c Ebmp Hmax) as ([H1lo H1hi] & [H2lo H2hi] & Hjoin).
      cbv zeta in *.
      set (s1 := N.lor 55296 (N.land (N.shiftr (c - 65536) 10) 1023)) in *.
      set (s2 := N.lor 56320 (N.land (c - 65536) 1023)) in *.
      change (((92 :: 117 :: hex4 s1) ++ 92 :: 117 :: hex4 s2) ++ rest)
        with (92 :: 117 :: (hex4 s1 ++ [92; 117] ++ (hex4 s2 ++ rest))).
      cbn [scanstring]. change (92 =? 34) with false. change (92 =? 92) with true.
      change (117 =? 117) with true. cbv beta iota.
      rewrite decode_hex4 by lia.
      assert (Hhigh : (55296 <=? s1) && (s1 <=? 56319) = true).
      { apply andb_true_iff. split; apply N.leb_le; assumption. }
      assert (Hlow : (56320 <=? s2) && (s2 <=? 57343) = true).
      { apply andb_true_iff. split; apply N.leb_le; assumption. }
      rewrite Hhigh, strip_prefix_app, decode_hex4 by lia.
      rewrite Hlow, Hjoin. reflexivity.
Qed.

(** The text of a string reads back as the string. *)
Lemma scan_escaped (s : pystr) (fuel : nat) (rest : pystr) :
  valid_text s = true ->
  (length s < fuel)%nat ->
  scanstring fuel (flat_map escape_char s ++ 34 :: rest) = Some (s, rest).
Proof.
  revert fuel. induction s as [| c s IH]; intros fuel Hvalid Hfuel.
  - destruct fuel; [simpl in Hfuel; lia | reflexivity].
  - simpl in Hvalid. apply andb_true_iff in Hvalid as [Hc Hs].
    destruct fuel as [| fuel]; [simpl in Hfuel; lia | ].
    cbn [flat_map]. rewrite <- app_assoc.
    rewrite scan_escaped_char by exact Hc.
    rewrite IH; [reflexivity | exact Hs | simpl in Hfuel; lia].
Qed.

(* ------------------------------------------------------------------ *)
(** ** The text that [json.dumps] writes *)

Lemma follows_value_ends_number rest : follows_value rest -> ends_number rest.
Proof.
  destruct rest as [| c r]; [auto | ]. simpl.
  intros [-> | [-> | ->]]; repeat split; discriminate.
Qed.

Lemma mapM_Forall2 {A B} (f : A -> result B) (xs : list A) (ys : list B) :
  mapM f xs = Ok ys -> Forall2 (fun x y => f x = Ok y) xs ys.
Proof.
  revert ys. induction xs as [| x xs IH]; intros ys H; simpl in H.
  - injection H as <-. constructor.
  - destruct (f x) as [y | e] eqn:Hx; [ | discriminate].
    destruct (mapM f xs) as [ys' | e]; [ | discriminate].
    injection H as <-. constructor; auto.
Qed.

Lemma hexdigit_ascii (d : N) : d < 16 -> hexdigit d < 128.
Proof. intros H. unfold hexdigit. destruct (d <? 10); lia. Qed.

Lemma hex4_ascii (n : N) : ascii_text (hex4 n).
Proof.
  unfold hex4, ascii_text. repeat constructor; apply hexdigit_ascii, nibble_lt.
Qed.

Lemma escape_char_ascii (c : N) : ascii_text (escape_char c).
Proof.
  unfold escape_char, ascii_text.
  repeat match goal with
         | |- context [if ?b then _ else _] => destruct b eqn:?
         end;
    try (repeat constructor; lia).
  - apply andb_true_iff in Heqb6 as [_ H]. apply N.leb_le in H.
    apply List.Forall_cons; [lia | apply List.Forall_nil].
  - apply List.Forall_cons; [lia | ]. apply List.Forall_cons; [lia | ].
    apply hex4_ascii.
  - apply Forall_app. split;
      (apply List.Forall_cons; [lia | ]; apply List.Forall_cons; [lia | ];
       apply hex4_ascii).
Qed.

Lemma escape_char_length (c : N) : (1 <= length (escape_char c))%nat.
Proof.
  unfold escape_char.
  repeat match goal with
         | |- context [if ?b then _ else _] => destruct b
         end; simpl; lia.
Qed.

Lemma escaped_ascii (s : pystr) : ascii_text (flat_map escape_char s).
Proof.
  induction s as [| c s IH]; simpl; [constructor | ].
  apply Forall_app. split; [apply escape_char_ascii | exact IH].
Qed.

Lemma escaped_length (s : pystr) : (length s <= length (flat_map escape_char s))%nat.
Proof.
  induction s as [| c s IH]; simpl; [lia | ].
  rewrite length_app. pose proof (escape_char_length c). lia.
Qed.

Lemma basestring_ascii (s : pystr) : ascii_text (encode_basestring_ascii s).
Proof.
  unfold encode_basestring_ascii. constructor; [lia | ].
  apply Forall_app. split; [apply escaped_ascii | repeat constructor; lia].
Qed.

Lemma uint_chars_ascii (d : Decimal.uint) : ascii_text (uint_chars d).
Proof. induction d; simpl; constructor; auto; lia. Qed.

Lemma int_repr_ascii (z : Z) : ascii_text (int_repr z).
Proof.
  unfold int_repr. destruct (Z.to_int z).
  - apply uint_chars_ascii.
  - constructor; [lia | apply uint_chars_ascii].
Qed.

Lemma int_repr_head (z : Z) :
  exists c r, int_repr z = c :: r /\ (c = 45 \/ is_digit c = true).
Proof.
  unfold int_repr. destruct (to_int_cases z) as (d & Hnorm & [-> | ->]).
  - destruct (uint_chars_head d [] (unorm_not_nil d Hnorm)) as (c & r & Hcr & Hc).
    rewrite app_nil_r in Hcr. eauto.
  - eauto.
Qed.

Lemma digit_starts (c : N) : c = 45 \/ is_digit c = true -> is_ws c = false /\ c <> 93.
Proof.
  unfold is_digit, is_ws. intros [-> | H]; [split; [reflexivity | discriminate] | ].
  apply andb_true_iff in H as [H1 H2]. apply N.leb_le in H1, H2.
  split; [ | lia].
  repeat (apply orb_false_iff; split); apply N.eqb_neq; lia.
Qed.

Lemma join_ascii (sep : pystr) (parts : list pystr) :
  ascii_text sep -> Forall ascii_text parts -> ascii_text (join sep parts).
Proof.
  intros Hsep. induction 1 as [| p parts Hp _ IH]; simpl; [constructor | ].
  destruct parts as [| q parts]; [exact Hp | ].
  apply Forall_app. split; [exact Hp | ].
  apply Forall_app. split; [exact Hsep | exact IH].
Qed.

Lemma sep_ascii : ascii_text (u ", ").
Proof. repeat constructor; lia. Qed.

(** [json.dumps] succeeds on a JSON value; its text is ASCII and starts as a
    value does. *)
Lemma dumps_json_value (v : pyvalue) :
  json_value v = true ->
  exists text, json_dumps v = Ok text /\ ascii_text text /\ starts_value text.
Proof.
  induction v as [| b | z | lit | s | b | items IH | items IH] using pyvalue_nested_ind;
    intros Hv; try discriminate Hv.
  - exists (u "null"). split; [reflexivity | ].
    split; [repeat constructor; lia | split; [reflexivity | discriminate]].
  - destruct b.
    + exists (u "true"). split; [reflexivity | ].
      split; [repeat constructor; lia | split; [reflexivity | discriminate]].
    + exists (u "false"). split; [reflexivity | ].
      split; [repeat constructor; lia | split; [reflexivity | discriminate]].
  - exists (int_repr z). split; [reflexivity | ]. split; [apply int_repr_ascii | ].
    destruct (int_repr_head z) as (c & r & -> & Hc). apply digit_starts, Hc.
  - exists (encode_basestring_ascii s). split; [reflexivity | ].
    split; [apply basestring_ascii | split; [reflexivity | discriminate]].
  - assert (Hparts : exists parts, mapM json_dumps items = Ok parts /\
                                   Forall ascii_text parts).
    { simpl in Hv. induction IH as [| x items Hx _ IHitems].
      - exists []. split; [reflexivity | constructor].
      - simpl in Hv. apply andb_true_iff in Hv as [Hvx Hvs].
        destruct (Hx Hvx) as (t & Ht & Hascii & _).
        destruct (IHitems Hvs) as (ts & Hts & Hall).
        exists (t :: ts). split; [ | constructor; assumption].
        simpl. rewrite Ht, Hts. reflexivity. }
    destruct Hparts as (parts & Hparts & Hascii).
    exists (91 :: join (u ", ") parts ++ [93]). split.
    + cbn [json_dumps]. rewrite Hparts. reflexivity.
    + split; [ | split; [reflexivity | discriminate]].
      constructor; [lia | ]. apply Forall_app. split.
      * apply join_ascii; [apply sep_ascii | exact Hascii].
      * repeat constructor; lia.
  - set (member := fun kv : pyvalue * pyvalue =>
                     match json_key (fst kv) with
                     | Ok k =>
                       match json_dumps (snd kv) with
                       | Ok t => Ok (encode_basestring_ascii k ++ u ": " ++ t)
                       | Raise e => Raise e
                       end
                     | Raise e => Raise e
                     end).
    assert (Hparts : exists parts, mapM member items = Ok parts /\
                                   Forall ascii_text parts).
    { simpl in Hv. apply andb_true_iff in Hv as [_ Hv].
      induction IH as [| [k x] items Hx _ IHitems].
      - exists []. split; [reflexivity | constructor].
      - simpl in Hv. apply andb_true_iff in Hv as [Hvx Hvs].
        apply andb_true_iff in Hvx as [Hk Hvx].
        destruct k; try discriminate Hk.
        destruct (Hx Hvx) as (t & Ht & Hascii & _).
        destruct (IHitems Hvs) as (ts & Hts & Hall).
        exists ((encode_basestring_ascii s ++ u ": " ++ t) :: ts). split.
        + simpl. unfold member at 1. simpl. simpl in Ht. rewrite Ht, Hts. reflexivity.
        + constructor; [ | exact Hall].
          apply Forall_app. split; [apply basestring_ascii | ].
          apply Forall_app. split; [repeat constructor; lia | exact Hascii]. }
    destruct Hparts as (parts & Hparts & Hascii).
    exists (123 :: join (u ", ") parts ++ [125]). split.
    + cbn [json_dumps]. fold member. rewrite Hparts. reflexivity.
    + split; [ | split; [reflexivity | discriminate]].
      constructor; [lia | ]. apply Forall_app. split.
      * apply join_ascii; [apply sep_ascii | exact Hascii].
      * repeat constructor; lia.
Qed.

(* ------------------------------------------------------------------ *)
(** ** One step of the parser *)

Lemma parse_elements_S (fuel : nat) (s : pystr) :
  parse_elements (S fuel) s =
  match parse_value fuel s with
  | None => None
  | Some (v, r) =>
    let r0 := skip_ws r in
    match eat 93 r0 with
    | Some rest => Some ([v], rest)
    | None =>
      match eat 44 r0 with
      | None => None
      | Some r1 =>
        match parse_elements fuel (skip_ws r1) with
        | None => None
        | Some (vs, rest) => Some (v :: vs, rest)
        end
      end
    end
  end.
Proof. reflexivity. Qed.

Lemma parse_members_S (fuel : nat) (s : pystr) :
  parse_members (S fuel) s =
  match scanstring (length s) s with
  | None => None
  | Some (key, r) =>
    match eat 58 (skip_ws r) with
    | None => None
    | Some r1 =>
      match parse_value fuel (skip_ws r1) with
      | None => None
      | Some (v, r2) =>
        let r0 := skip_ws r2 in
        match eat 125 r0 with
        | Some rest => Some ([(key, v)], rest)
        | None =>
          match eat 44 r0 with
          | None => None
          | Some r3 =>
            match eat 34 (skip_ws r3) with
            | None => None
            | Some r4 =>
              match parse_members fuel r4 with
              | None => None
              | Some (kvs, rest) => Some ((key, v) :: kvs, rest)
              end
            end
          end
        end
      end
    end
  end.
Proof. reflexivity. Qed.

Lemma parse_value_string (fuel : nat) (r : pystr) :
  parse_value (S fuel) (34 :: r) =
  match scanstring (length r) r with
  | None => None
  | Some (str, rest) => Some (PStr str, rest)
  end.
Proof. reflexivity. Qed.

Lemma parse_value_array (fuel : nat) (r : pystr) :
  parse_value (S fuel) (91 :: r) =
  match eat 93 (skip_ws r) with
  | Some rest => Some (PList [], rest)
  | None =>
    match parse_elements fuel (skip_ws r) with
    | None => None
    | Some (items, rest) => Some (PList items, rest)
    end
  end.
Proof. reflexivity. Qed.

Lemma parse_value_object (fuel : nat) (r : pystr) :
  parse_value (S fuel) (123 :: r) =
  match eat 125 (skip_ws r) with
  | Some rest => Some (PDict [], rest)
  | None =>
    match eat 34 (skip_ws r) with
    | None => None
    | Some r1 =>
      match parse_members fuel r1 with
      | None => None
      | Some (pairs, rest) => Some (PDict (dict_of_pairs pairs), rest)
      end
    end
  end.
Proof. reflexivity. Qed.

Lemma parse_value_atom (fuel : nat) (c : N) (r : pystr) :
  c <> 34 -> c <> 123 -> c <> 91 ->
  parse_value (S fuel) (c :: r) = parse_atom (c :: r).
Proof.
  intros H1 H2 H3. apply N.eqb_neq in H1, H2, H3.
  cbn [parse_value]. rewrite H1, H2, H3. reflexivity.
Qed.

Lemma skip_ws_value (text rest : pystr) :
  starts_value text -> skip_ws (text ++ rest) = text ++ rest.
Proof.
  destruct text as [| c t]; [contradiction | ]. intros [Hws _].
  simpl. rewrite Hws. reflexivity.
Qed.

Lemma strip_prefix_differ (p c : N) (ps r : pystr) :
  p <> c -> strip_prefix (p :: ps) (c :: r) = None.
Proof. intros H. simpl. apply N.eqb_neq in H. rewrite H. reflexivity. Qed.

(* ------------------------------------------------------------------ *)
(** ** Scalars *)

Lemma parse_atom_int (z : Z) (rest : pystr) :
  follows_value rest ->
  parse_atom (int_repr z ++ rest) = Some (PInt z, rest).
Proof.
  intros Hrest. unfold parse_atom.
  destruct (int_repr_head z) as (c & r & Hz & Hc).
  assert (Hletters : c <> 110 /\ c <> 116 /\ c <> 102).
  { destruct Hc as [-> | Hc]; [repeat split; discriminate | ].
    unfold is_digit in Hc. apply andb_true_iff in Hc as [_ Hc].
    apply N.leb_le in Hc. repeat split; lia. }
  destruct Hletters as (Hn & Ht & Hf).
  rewrite Hz. cbn [app].
  change (u "null") with (110 :: u "ull"). rewrite strip_prefix_differ by congruence.
  change (u "true") with (116 :: u "rue"). rewrite strip_prefix_differ by congruence.
  change (u "false") with (102 :: u "alse"). rewrite strip_prefix_differ by congruence.
  change (c :: r ++ rest) with ((c :: r) ++ rest). rewrite <- Hz.
  rewrite parse_number_int_repr by (apply follows_value_ends_number, Hrest).
  reflexivity.
Qed.

Lemma parse_value_int (z : Z) (fuel : nat) (rest : pystr) :
  follows_value rest ->
  parse_value (S fuel) (int_repr z ++ rest) = Some (PInt z, rest).
Proof.
  intros Hrest. rewrite <- parse_atom_int by exact Hrest.
  destruct (int_repr_head z) as (c & r & Hz & Hc). rewrite Hz. cbn [app].
  apply parse_value_atom.
  - destruct Hc as [-> | Hc]; [discriminate | ]. intros ->. discriminate Hc.
  - destruct Hc as [-> | Hc]; [discriminate | ]. intros ->. discriminate Hc.
  - destruct Hc as [-> | Hc]; [discriminate | ]. intros ->. discriminate Hc.
Qed.

Lemma parse_value_encoded_string (s : pystr) (fuel : nat) (rest : pystr) :
  valid_text s = true ->
  parse_value (S fuel) (encode_basestring_ascii s ++ rest) = Some (PStr s, rest).
Proof.
  intros Hs. unfold encode_basestring_ascii.
  change ((34 :: flat_map escape_char s ++ [34]) ++ rest)
    with (34 :: ((flat_map escape_char s ++ [34]) ++ rest)).
  rewrite parse_value_string, <- app_assoc. cbn [app].
  rewrite scan_escaped; [reflexivity | exact Hs | ].
  rewrite length_app. simpl. pose proof (escaped_length s). lia.
Qed.

(* ------------------------------------------------------------------ *)
(** ** Lists *)

Lemma parse_elements_join (items : list pyvalue) (parts : list pystr) :
  Forall2 (fun v t => starts_value t /\ reads_back v t) items parts ->
  items <> [] ->
  forall fuel rest,
    (length (join (u ", ") parts) < fuel)%nat ->
    parse_elements fuel (join (u ", ") parts ++ 93 :: rest) = Some (items, rest).
Proof.
  induction 1 as [| v t items parts [Hstart Hback] Hrest IH]; [contradiction | ].
  intros _ fuel rest Hfuel.
  destruct fuel as [| fuel]; [lia | ].
  rewrite parse_elements_S.
  destruct Hrest as [| v' t' items' parts' Hv' Hrest'].
  - cbn [join] in *.
    rewrite Hback; [ | lia | right; left; reflexivity].
    cbv zeta. cbn [skip_ws is_ws N.eqb Pos.eqb orb]. rewrite eat_same. reflexivity.
  - change (join (u ", ") (t :: t' :: parts'))
      with (t ++ u ", " ++ join (u ", ") (t' :: parts')) in *.
    rewrite !length_app in Hfuel. change (length (u ", ")) with 2%nat in Hfuel.
    change (length (u ": ")) with 2%nat in Hfuel.
    rewrite <- !app_assoc.
    change (u ", " ++ join (u ", ") (t' :: parts') ++ 93 :: rest)
      with (44 :: 32 :: (join (u ", ") (t' :: parts') ++ 93 :: rest)).
    rewrite Hback; [ | lia | left; reflexivity].
    cbv zeta. cbn [skip_ws is_ws N.eqb Pos.eqb orb].
    rewrite eat_other by discriminate. rewrite eat_same.
    cbn [skip_ws is_ws N.eqb Pos.eqb orb].
    assert (Hskip : skip_ws (join (u ", ") (t' :: parts') ++ 93 :: rest)
                    = join (u ", ") (t' :: parts') ++ 93 :: rest).
    { destruct Hv' as [Hstart' _]. destruct t' as [| c t'']; [contradiction | ].
      destruct Hstart' as [Hws _].
      destruct parts'; cbn [join app skip_ws]; rewrite Hws; reflexivity. }
    rewrite Hskip.
    rewrite IH; [reflexivity | discriminate | lia].
Qed.

(* ------------------------------------------------------------------ *)
(** ** Dicts *)

Lemma parse_members_join (items : list (pyvalue * pyvalue)) (parts : list pystr) :
  Forall2 member_text items parts ->
  items <> [] ->
  forall fuel rest,
    (length (join (u ", ") parts) <= fuel)%nat ->
    exists body,
      join (u ", ") parts = 34 :: body /\
      parse_members fuel (body ++ 125 :: rest) = Some (str_pairs items, rest).
Proof.
  induction 1 as [| [kk v] part items parts Hmember Hrest IH]; [contradiction | ].
  intros _ fuel rest Hfuel.
  destruct Hmember as (k & t & Hk & Hvalid & Hstart & Hback & ->).
  simpl in Hk. subst kk. cbn [str_pairs].
  unfold encode_basestring_ascii in *.
  destruct Hrest as [| kv' part' items' parts' Hm' Hrest'].
  - cbn [join] in *.
    exists (flat_map escape_char k ++ [34] ++ u ": " ++ t).
    split; [cbn [app]; rewrite <- ?app_assoc; reflexivity | ].
    rewrite !length_app in Hfuel. change (length (u ", ")) with 2%nat in Hfuel.
    change (length (u ": ")) with 2%nat in Hfuel.
    destruct fuel as [| fuel]; [simpl in Hfuel; lia | ].
    rewrite parse_members_S.
    rewrite <- !app_assoc. cbn [app].
    rewrite scan_escaped;
      [ | exact Hvalid
        | rewrite length_app; simpl; pose proof (escaped_length k); lia].
    change (u ": " ++ t ++ 125 :: rest) with (58 :: 32 :: (t ++ 125 :: rest)).
    cbn [skip_ws is_ws N.eqb Pos.eqb orb]. rewrite eat_same.
    cbn [skip_ws is_ws N.eqb Pos.eqb orb].
    rewrite skip_ws_value by exact Hstart.
    rewrite Hback; [ | lia | right; right; reflexivity].
    cbv zeta. cbn [skip_ws is_ws N.eqb Pos.eqb orb]. rewrite eat_same. reflexivity.
  - change (join (u ", ") (((34 :: flat_map escape_char k ++ [34]) ++ u ": " ++ t)
                           :: part' :: parts'))
      with (((34 :: flat_map escape_char k ++ [34]) ++ u ": " ++ t)
              ++ u ", " ++ join (u ", ") (part' :: parts')) in *.
    rewrite !length_app in Hfuel. change (length (u ", ")) with 2%nat in Hfuel.
    change (length (u ": ")) with 2%nat in Hfuel.
    destruct fuel as [| fuel]; [simpl in Hfuel; lia | ].
    destruct (IH ltac:(discriminate) fuel rest) as (body' & Hbody' & Hparse').
    { lia. }
    exists (flat_map escape_char k ++ [34] ++ u ": " ++ t ++ u ", " ++ 34 :: body').
    split.
    { rewrite Hbody'. cbn [app]. rewrite <- ?app_assoc. reflexivity. }
    rewrite parse_members_S.
    rewrite <- !app_assoc. cbn [app].
    rewrite scan_escaped;
      [ | exact Hvalid
        | rewrite !length_app; simpl; pose proof (escaped_length k); lia].
    change (u ": " ++ t ++ u ", " ++ 34 :: body' ++ 125 :: rest)
      with (58 :: 32 :: (t ++ 44 :: 32 :: 34 :: (body' ++ 125 :: rest))).
    cbn [skip_ws is_ws N.eqb Pos.eqb orb]. rewrite eat_same.
    cbn [skip_ws is_ws N.eqb Pos.eqb orb].
    rewrite skip_ws_value by exact Hstart.
    rewrite Hback; [ | lia | left; reflexivity].
    cbv zeta. cbn [skip_ws is_ws N.eqb Pos.eqb orb].
    rewrite eat_other by discriminate. rewrite eat_same.
    cbn [skip_ws is_ws N.eqb Pos.eqb orb]. rewrite eat_same.
    rewrite Hparse'. reflexivity.
Qed.

(** [dict(pairs)] of pairs with distinct keys is the pairs. *)
Lemma dict_set_new (k : pystr) (v : pyvalue) (d : list (pyvalue * pyvalue)) :
  k ∉ str_keys d -> dict_set k v d = d ++ [(PStr k, v)].
Proof.
  induction d as [| [k' v'] d IH]; intros Hk; [reflexivity | ].
  destruct k'; simpl in *; try (rewrite IH by exact Hk; reflexivity).
  apply not_elem_of_cons in Hk as [Hne Hk].
  rewrite bool_decide_eq_false_2 by exact Hne.
  rewrite IH by exact Hk. reflexivity.
Qed.

Lemma str_keys_app (d1 d2 : list (pyvalue * pyvalue)) :
  str_keys (d1 ++ d2) = str_keys d1 ++ str_keys d2.
Proof.
  induction d1 as [| [k v] d1 IH]; [reflexivity | ].
  destruct k; simpl; rewrite ?IH; reflexivity.
Qed.

Lemma dict_of_distinct_pairs (acc items : list (pyvalue * pyvalue)) :
  all_str_keys items ->
  NoDup (str_keys acc ++ str_keys items) ->
  fold_left (fun d kv => dict_set (fst kv) (snd kv) d) (str_pairs items) acc
  = acc ++ items.
Proof.
  intros Hall. revert acc. induction Hall as [| [k v] items [k' Hk] _ IH];
    intros acc Hnodup.
  - simpl. rewrite app_nil_r. reflexivity.
  - simpl in Hk. subst k. cbn [str_pairs fold_left fst snd].
    cbn [str_keys] in Hnodup.
    rewrite dict_set_new.
    + rewrite IH.
      * rewrite <- app_assoc. reflexivity.
      * rewrite str_keys_app. cbn [str_keys]. rewrite <- app_assoc. exact Hnodup.
    + apply NoDup_app in Hnodup as (_ & Hdisj & _).
      intros Hin. apply (Hdisj k' Hin). left.
Qed.

Lemma dict_of_str_pairs (items : list (pyvalue * pyvalue)) :
  all_str_keys items -> NoDup (str_keys items) ->
  dict_of_pairs (str_pairs items) = items.
Proof.
  intros Hall Hnodup. unfold dict_of_pairs.
  apply (dict_of_distinct_pairs [] items Hall Hnodup).
Qed.

(* ------------------------------------------------------------------ *)
(** ** Values *)

Lemma json_dict_keys (items : list (pyvalue * pyvalue)) :
  json_value (PDict items) = true -> all_str_keys items /\ NoDup (str_keys items).
Proof.
  cbn [json_value]. intros H. apply andb_true_iff in H as [Hnodup Hall].
  split; [ | apply bool_decide_eq_true_1 in Hnodup; exact Hnodup].
  clear Hnodup. induction items as [| [k v] items IH]; [constructor | ].
  simpl in Hall. apply andb_true_iff in Hall as [Hkv Hall].
  apply andb_true_iff in Hkv as [Hk _].
  constructor; [ | apply IH, Hall].
  destruct k; try discriminate Hk. eexists. reflexivity.
Qed.

(** What [json.dumps] writes for a JSON value, [json.loads] reads back as
    that value. *)
Lemma parse_dumps (v : pyvalue) :
  json_value v = true ->
  forall text, json_dumps v = Ok text -> reads_back v text.
Proof.
  induction v as [| b | z | lit | s | b | items IH | items IH] using pyvalue_nested_ind;
    intros Hv text Hdumps fuel rest Hfuel Hrest; try discriminate Hv.
  - injection Hdumps as <-.
    destruct fuel as [| fuel]; [simpl in Hfuel; lia | ]. reflexivity.
  - destruct b; injection Hdumps as <-;
      (destruct fuel as [| fuel]; [simpl in Hfuel; lia | ]); reflexivity.
  - injection Hdumps as <-.
    destruct fuel as [| fuel].
    { destruct (int_repr_head z) as (c & r & Hz & _). rewrite Hz in Hfuel.
      simpl in Hfuel. lia. }
    apply parse_value_int, Hrest.
  - injection Hdumps as <-.
    destruct fuel as [| fuel]; [simpl in Hfuel; lia | ].
    apply parse_value_encoded_string. exact Hv.
  - cbn [json_dumps] in Hdumps.
    destruct (mapM json_dumps items) as [parts | e] eqn:Hparts; [ | discriminate].
    injection Hdumps as <-.
    destruct fuel as [| fuel]; [simpl in Hfuel; lia | ].
    change ((91 :: join (u ", ") parts ++ [93]) ++ rest)
      with (91 :: ((join (u ", ") parts ++ [93]) ++ rest)).
    rewrite <- app_assoc. cbn [app]. rewrite parse_value_array.
    assert (Hall : Forall2 (fun v t => starts_value t /\ reads_back v t) items parts).
    { apply mapM_Forall2 in Hparts. cbn [json_value] in Hv.
      clear Hfuel. induction Hparts as [| x t items parts Hx _ IHparts].
      - constructor.
      - apply Forall_cons in IH as [IHx IHitems].
        simpl in Hv. apply andb_true_iff in Hv as [Hvx Hvs].
        constructor; [ | apply IHparts; assumption].
        destruct (dumps_json_value x Hvx) as (t' & Ht' & _ & Hstart).
        rewrite Hx in Ht'. injection Ht' as <-.
        split; [exact Hstart | apply IHx; assumption]. }
    destruct items as [| x items].
    + inversion Hall; subst. reflexivity.
    + assert (Hskip : skip_ws (join (u ", ") parts ++ 93 :: rest)
                      = join (u ", ") parts ++ 93 :: rest).
      { inversion Hall as [| x' t items' parts' [Hstart _] _]; subst.
        destruct t as [| c t]; [contradiction | ]. destruct Hstart as [Hws _].
        destruct parts'; cbn [join app skip_ws]; rewrite Hws; reflexivity. }
      assert (Hnot : eat 93 (join (u ", ") parts ++ 93 :: rest) = None).
      { inversion Hall as [| x' t items' parts' [Hstart _] _]; subst.
        destruct t as [| c t]; [contradiction | ]. destruct Hstart as [_ Hc].
        destruct parts'; cbn [join app]; apply eat_other; exact Hc. }
      rewrite Hskip, Hnot.
      rewrite (parse_elements_join (x :: items) parts Hall); [reflexivity | discriminate | ].
      simpl in Hfuel. rewrite length_app in Hfuel. simpl in Hfuel. lia.
  - destruct (json_dict_keys items Hv) as [Hkeys Hnodup].
    cbn [json_dumps] in Hdumps.
    match type of Hdumps with
    | match mapM ?f items with _ => _ end = _ => set (member := f) in *
    end.
    destruct (mapM member items) as [parts | e] eqn:Hparts; [ | discriminate].
    injection Hdumps as <-.
    destruct fuel as [| fuel]; [simpl in Hfuel; lia | ].
    change ((123 :: join (u ", ") parts ++ [125]) ++ rest)
      with (123 :: ((join (u ", ") parts ++ [125]) ++ rest)).
    rewrite <- app_assoc. cbn [app]. rewrite parse_value_object.
    assert (Hall : Forall2 member_text items parts).
    { apply mapM_Forall2 in Hparts. cbn [json_value] in Hv.
      apply andb_true_iff in Hv as [_ Hv].
      clear Hfuel Hkeys Hnodup. induction Hparts as [| [k x] t items parts Hx _ IHparts].
      - constructor.
      - apply Forall_cons in IH as [IHx IHitems].
        simpl in Hv. apply andb_true_iff in Hv as [Hvx Hvs].
        apply andb_true_iff in Hvx as [Hk Hvx].
        constructor; [ | apply IHparts; assumption].
        destruct k as [| | | | k | | | ]; try discriminate Hk.
        destruct (dumps_json_value x Hvx) as (t' & Ht' & _ & Hstart).
        unfold member in Hx. cbn [fst snd json_key] in Hx. rewrite Ht' in Hx.
        injection Hx as <-.
        exists k, t'. repeat split; try assumption.
        apply IHx; assumption. }
    destruct items as [| kv items].
    + inversion Hall; subst. reflexivity.
    + destruct (parse_members_join (kv :: items) parts Hall ltac:(discriminate)
                                   fuel rest) as (body & Hbody & Hparse).
      { simpl in Hfuel. rewrite length_app in Hfuel. simpl in Hfuel. lia. }
      rewrite Hbody. cbn [app skip_ws is_ws N.eqb Pos.eqb orb].
      rewrite eat_other by discriminate. rewrite eat_same, Hparse.
      rewrite dict_of_str_pairs by assumption. reflexivity.
Qed.

(** [json.loads(json.dumps(v))] is [v]. *)
Lemma json_decode_dumps (v : pyvalue) (text : pystr) :
  json_value v = true -> json_dumps v = Ok text -> json_decode text = Some v.
Proof.
  intros Hv Hdumps.
  destruct (dumps_json_value v Hv) as (text' & Hdumps' & Hascii & Hstart).
  rewrite Hdumps in Hdumps'. injection Hdumps' as <-.
  unfold json_decode.
  assert (Hbom : eat 0xFEFF text = None).
  { destruct text as [| c t]; [reflexivity | ].
    apply eat_other. inversion Hascii; subst. lia. }
  rewrite Hbom.
  rewrite <- (app_nil_r text) at 2. rewrite skip_ws_value by exact Hstart.
  rewrite (parse_dumps v Hv text Hdumps (2 * length text + 2)%nat []); [reflexivity | lia | exact I].
Qed.

(* ------------------------------------------------------------------ *)
(** ** UTF-8 on ASCII text *)

Lemma bN_byte_of_N (c : N) : c < 256 -> bN (byte_of_N c) = c.
Proof.
  intros Hc. unfold bN, byte_of_N.
  destruct (Byte.of_N c) as [b |] eqn:Hb.
  - apply Byte.to_of_N. exact Hb.
  - apply Byte.of_N_None_iff in Hb. lia.
Qed.

(** ASCII text is its own UTF-8 encoding. *)
Lemma utf8_encode_ascii (text : pystr) :
  ascii_text text -> utf8_encode text = Some (map byte_of_N text).
Proof.
  induction 1 as [| c text Hc _ IH]; [reflexivity | ].
  simpl. unfold utf8_encode_char.
  apply N.ltb_lt in Hc. rewrite Hc, IH. reflexivity.
Qed.

Lemma utf8_decode_ascii_bytes (text : pystr) :
  ascii_text text -> utf8_decode (map byte_of_N text) = Some text.
Proof.
  induction 1 as [| c text Hc _ IH]; [reflexivity | ].
  cbn [map utf8_decode]. cbv zeta.
  rewrite bN_byte_of_N by lia.
  apply N.ltb_lt in Hc. rewrite Hc, IH. reflexivity.
Qed.

(** From here on the literals stay folded. *)
Opaque u.

(* ===================================================================== *)
(** * The client object under the data operations *)
(* ===================================================================== *)

Section Frame.

Context {T : Transport}.

Lemma keeps_ret {A} (a : A) : keeps_self (T := T) (ret a).
Proof. intros s; reflexivity. Qed.

Lemma keeps_raise {A} (e : exn) : keeps_self (T := T) (@raise T A e).
Proof. intros s; reflexivity. Qed.

Lemma keeps_lift {A} (r : result A) : keeps_self (T := T) (lift r).
Proof. intros s; reflexivity. Qed.

Lemma keeps_get_self : keeps_self (T := T) get_self.
Proof. intros s; reflexivity. Qed.

Lemma keeps_client_attr name : keeps_self (T := T) (client_attr name).
Proof. intros s; unfold client_attr; destruct (_client (st_self s)); reflexivity. Qed.

Lemma keeps_call {A} (f : node T -> result A * node T) : keeps_self (T := T) (call f).
Proof. intros s; unfold call; destruct (f (st_node s)); reflexivity. Qed.

Lemma keeps_call_fs {A} (f : filesystem -> node T -> result A * node T) :
  keeps_self (T := T) (call_fs f).
Proof. intros s; unfold call_fs; destruct (f (st_fs s) (st_node s)); reflexivity. Qed.

Lemma keeps_on_fs {A} (f : filesystem -> result A * filesystem) :
  keeps_self (T := T) (on_fs f).
Proof. intros s; unfold on_fs; destruct (f (st_fs s)); reflexivity. Qed.

Lemma keeps_bind {A B} (m : M T A) (k : A -> M T B) :
  keeps_self (T := T) m -> (forall a, keeps_self (T := T) (k a)) -> keeps_self (T := T) (bind m k).
Proof.
  intros Hm Hk s. unfold bind. specialize (Hm s).
  destruct (m s) as [[a | e] s']; simpl in *.
  - rewrite Hk. exact Hm.
  - exact Hm.
Qed.

Lemma keeps_try_except {A} (body : M T A) (handler : exn -> M T A) :
  keeps_self (T := T) body -> (forall e, keeps_self (T := T) (handler e)) ->
  keeps_self (T := T) (try_except body handler).
Proof.
  intros Hb Hh s. unfold try_except. specialize (Hb s).
  destruct (body s) as [[a | e] s']; simpl in *.
  - exact Hb.
  - rewrite Hh. exact Hb.
Qed.

Lemma keeps_try_except_in {A} classes (body handler : M T A) :
  keeps_self (T := T) body -> keeps_self (T := T) handler ->
  keeps_self (T := T) (try_except_in classes body handler).
Proof.
  intros Hb Hh s. unfold try_except_in. specialize (Hb s).
  destruct (body s) as [[a | e] s']; simpl in *.
  - exact Hb.
  - destruct (classes (exn_class e)); simpl; [rewrite Hh|]; exact Hb.
Qed.

(** Going through the statements of a method. *)
Ltac keeps_step :=
  lazymatch goal with
  | |- keeps_self (ret _) => apply keeps_ret
  | |- keeps_self (raise _) => apply keeps_raise
  | |- keeps_self (lift _) => apply keeps_lift
  | |- keeps_self get_self => apply keeps_get_self
  | |- keeps_self (client_attr _) => apply keeps_client_attr
  | |- keeps_self (call _) => apply keeps_call
  | |- keeps_self (call_fs _) => apply keeps_call_fs
  | |- keeps_self (on_fs _) => apply keeps_on_fs
  | |- keeps_self (bind _ _) => apply keeps_bind; [ | intros ? ]
  | |- keeps_self (try_except _ _) => apply keeps_try_except; [ | intros ? ]
  | |- keeps_self (try_except_in _ _ _) => apply keeps_try_except_in
  | |- keeps_self (match ?x with _ => _ end) => destruct x
  | |- keeps_self (let _ := _ in _) => cbv zeta
  end.

Lemma add_file_keeps file_path flag : keeps_self (T := T) (add_file file_path flag).
Proof. unfold add_file. repeat keeps_step. Qed.

Lemma add_data_keeps data flag : keeps_self (T := T) (add_data data flag).
Proof. unfold add_data. repeat keeps_step. Qed.

Lemma get_file_keeps hash output_path : keeps_self (T := T) (get_file hash output_path).
Proof. unfold get_file. repeat keeps_step. Qed.

Lemma get_data_keeps hash : keeps_self (T := T) (get_data hash).
Proof. unfold get_data. repeat keeps_step. Qed.

Lemma pin_keeps hash : keeps_self (T := T) (pin hash).
Proof. unfold pin. repeat keeps_step. Qed.

Lemma unpin_keeps hash : keeps_self (T := T) (unpin hash).
Proof. unfold unpin. repeat keeps_step. Qed.

Lemma list_pins_keeps : keeps_self (T := T) list_pins.
Proof. unfold list_pins. repeat keeps_step. Qed.

Lemma get_stats_keeps : keeps_self (T := T) get_stats.
Proof. unfold get_stats. repeat keeps_step. Qed.

Lemma is_connected_keeps : keeps_self (T := T) is_connected.
Proof. unfold is_connected. repeat keeps_step. Qed.

Lemma close_keeps : keeps_self (T := T) close.
Proof. unfold close. repeat keeps_step. Qed.

(** [connect] assigns [self._client] after the library has answered: when
    the library raises, nothing is assigned. *)
Lemma connect_failed_keeps (s : state T) :
  raises (fst (connect s)) -> st_self (snd (connect s)) = st_self s.
Proof.
  unfold connect, try_except, bind, get_self, call, set_client, raise. simpl.
  destruct (lib_connect T _ (st_node s)) as [[c | e] n']; simpl.
  - contradiction.
  - reflexivity.
Qed.

(** C10.  Every data operation leaves the client object as it was, whatever
    the outcome: [host], [port], [protocol], [api_url] and [_client] all keep
    their values.  A [connect] that raises leaves the object, so [_client]
    too, as it was. *)
Theorem data_operations_leave_client_unchanged
    (s : state T) (file_path : path_like) (flag : bool) (data : payload)
    (hash : pystr) (output_path : option path_like) :
  st_self (snd (add_file file_path flag s)) = st_self s /\
  st_self (snd (add_data data flag s)) = st_self s /\
  st_self (snd (get_file hash output_path s)) = st_self s /\
  st_self (snd (get_data hash s)) = st_self s /\
  st_self (snd (pin hash s)) = st_self s /\
  st_self (snd (unpin hash s)) = st_self s /\
  st_self (snd (list_pins s)) = st_self s /\
  st_self (snd (get_stats s)) = st_self s /\
  st_self (snd (is_connected s)) = st_self s /\
  (raises (fst (connect s)) -> st_self (snd (connect s)) = st_self s).
Proof.
  repeat split.
  - apply add_file_keeps.
  - apply add_data_keeps.
  - apply get_file_keeps.
  - apply get_data_keeps.
  - apply pin_keeps.
  - apply unpin_keeps.
  - apply list_pins_keeps.
  - apply get_stats_keeps.
  - apply is_connected_keeps.
  - apply connect_failed_keeps.
Qed.

End Frame.

(* ===================================================================== *)
(** * The kinds of error that leave the client *)
(* ===================================================================== *)

Section ErrorKinds.

Context {T : Transport}.

(** [try: ... except Exception as e: raise IPFSError(f"...{e}")] lets nothing
    but [IPFSError] out. *)
Lemma wrapped_fails_only_with_IPFSError {A} (body : M T A) (prefix : pystr) s :
  fails_only_with IPFSError
    (fst (try_except body
            (fun e => raise (mkExn IPFSError (prefix ++ exn_str e))) s)).
Proof.
  unfold try_except, raise. destruct (body s) as [[a | e] s']; simpl; auto.
Qed.

Lemma add_file_fails_only_with_IPFSError file_path flag (s : state T) :
  fails_only_with IPFSError (fst (add_file file_path flag s)).
Proof. apply wrapped_fails_only_with_IPFSError. Qed.

Lemma add_data_fails_only_with_IPFSError data flag (s : state T) :
  fails_only_with IPFSError (fst (add_data data flag s)).
Proof. apply wrapped_fails_only_with_IPFSError. Qed.

Lemma get_file_fails_only_with_IPFSError hash output_path (s : state T) :
  fails_only_with IPFSError (fst (get_file hash output_path s)).
Proof. apply wrapped_fails_only_with_IPFSError. Qed.

Lemma get_data_fails_only_with_IPFSError hash (s : state T) :
  fails_only_with IPFSError (fst (get_data hash s)).
Proof. apply wrapped_fails_only_with_IPFSError. Qed.

Lemma pin_fails_only_with_IPFSError hash (s : state T) :
  fails_only_with IPFSError (fst (pin hash s)).
Proof. apply wrapped_fails_only_with_IPFSError. Qed.

Lemma unpin_fails_only_with_IPFSError hash (s : state T) :
  fails_only_with IPFSError (fst (unpin hash s)).
Proof. apply wrapped_fails_only_with_IPFSError. Qed.

Lemma list_pins_fails_only_with_IPFSError (s : state T) :
  fails_only_with IPFSError (fst (list_pins s)).
Proof. apply wrapped_fails_only_with_IPFSError. Qed.

Lemma get_stats_fails_only_with_IPFSError (s : state T) :
  fails_only_with IPFSError (fst (get_stats s)).
Proof. apply wrapped_fails_only_with_IPFSError. Qed.

Lemma connect_fails_only_with_IPFSConnectionError (s : state T) :
  fails_only_with IPFSConnectionError (fst (connect s)).
Proof.
  unfold connect, try_except, raise. 
  match goal with |- context [?b s] => destruct (b s) as [[a | e] s'] end;
    simpl; auto.
Qed.

(** [close] has no [try]: what the library's [close] raises is what [close]
    raises. *)
Lemma close_passes_library_exception (s : state T) c e n' :
  _client (st_self s) = Some c ->
  lib_close T c (st_node s) = (Raise e, n') ->
  fst (close s) = Raise e.
Proof.
  intros Hc Hl. unfold close, bind, get_self, call. simpl.
  rewrite Hc, Hl. reflexivity.
Qed.



(** C6.  [is_connected] never raises.  It returns [True] when the identity
    probe returns and [False] in every other case: the client was never
    connected, or the library raised, whatever it raised. *)
Theorem is_connected_never_raises (s : state T) :
  fst (is_connected s) = Ok (probe_succeeds s).
Proof.
  unfold is_connected, probe_succeeds, try_except, bind, client_attr, call, ret.
  destruct (_client (st_self s)) as [c |]; simpl.
  - destruct (lib_id T c (st_node s)) as [[v | e] n']; reflexivity.
  - reflexivity.
Qed.

End ErrorKinds.

(* ===================================================================== *)
(** * Before [connect] and after [close] *)
(* ===================================================================== *)

Section Unconnected.

Context {T : Transport}.

Lemma state_eta (s : state T) : mkState (st_self s) (st_node s) (st_fs s) = s.
Proof. destruct s; reflexivity. Qed.

(** Closing [raised_before_the_node] once the method has been run. *)
Ltac stopped := rewrite ?state_eta; split; [ exact eq_refl | reflexivity ].

Lemma add_file_unconnected file_path flag (s : state T) :
  _client (st_self s) = None -> raised_before_the_node (add_file file_path flag) s.
Proof.
  intros Hc. unfold raised_before_the_node, add_file, try_except, bind, on_fs,
    client_attr, raise. simpl.
  destruct (fs_exists (Path_of file_path) (st_fs s)); simpl.
  - rewrite Hc. simpl. stopped.
  - stopped.
Qed.

Lemma add_data_unconnected data flag (s : state T) :
  _client (st_self s) = None -> raised_before_the_node (add_data data flag) s.
Proof.
  intros Hc. unfold raised_before_the_node, add_data, try_except, bind, lift,
    ret, client_attr, raise.
  destruct data as [str | b | items]; cbv beta iota.
  - destruct (str_encode str); simpl; rewrite ?Hc; stopped.
  - rewrite Hc. stopped.
  - destruct (json_dumps (PDict items)) as [text | e]; cbv beta iota; [ | stopped ].
    destruct (str_encode text); simpl; rewrite ?Hc; stopped.
Qed.

Lemma get_file_unconnected hash output_path (s : state T) :
  _client (st_self s) = None -> raised_before_the_node (get_file hash output_path) s.
Proof.
  intros Hc. unfold raised_before_the_node, get_file, try_except, bind,
    client_attr, raise. simpl. rewrite Hc. stopped.
Qed.

Lemma get_data_unconnected hash (s : state T) :
  _client (st_self s) = None -> raised_before_the_node (get_data hash) s.
Proof.
  intros Hc. unfold raised_before_the_node, get_data, try_except, bind,
    client_attr, raise. simpl. rewrite Hc. stopped.
Qed.

Lemma pin_unconnected hash (s : state T) :
  _client (st_self s) = None -> raised_before_the_node (pin hash) s.
Proof.
  intros Hc. unfold raised_before_the_node, pin, try_except, bind,
    client_attr, raise. simpl. rewrite Hc. stopped.
Qed.

Lemma unpin_unconnected hash (s : state T) :
  _client (st_self s) = None -> raised_before_the_node (unpin hash) s.
Proof.
  intros Hc. unfold raised_before_the_node, unpin, try_except, bind,
    client_attr, raise. simpl. rewrite Hc. stopped.
Qed.

Lemma list_pins_unconnected (s : state T) :
  _client (st_self s) = None -> raised_before_the_node list_pins s.
Proof.
  intros Hc. unfold raised_before_the_node, list_pins, try_except, bind,
    client_attr, raise. simpl. rewrite Hc. stopped.
Qed.

Lemma get_stats_unconnected (s : state T) :
  _client (st_self s) = None -> raised_before_the_node get_stats s.
Proof.
  intros Hc. unfold raised_before_the_node, get_stats, try_except, bind,
    client_attr, raise. simpl. rewrite Hc. stopped.
Qed.

(** C3, as the code has it.  On a client that was constructed and never
    connected, every data operation raises [IPFSError], the base kind, and
    leaves the client, the node and the file system as they were: it does
    not connect and it does not reach the node. *)
Theorem unconnected_operations_raise_IPFSError
    (host : pystr) (port : Z) (protocol : pystr) (n : node T) (fs : filesystem)
    (file_path : path_like) (flag : bool) (data : payload) (hash : pystr)
    (output_path : option path_like) :
  let s := mkState (IPFSClient_init host port protocol) n fs in
  raised_before_the_node (add_file file_path flag) s /\
  raised_before_the_node (add_data data flag) s /\
  raised_before_the_node (get_file hash output_path) s /\
  raised_before_the_node (get_data hash) s /\
  raised_before_the_node (pin hash) s /\
  raised_before_the_node (unpin hash) s /\
  raised_before_the_node list_pins s /\
  raised_before_the_node get_stats s.
Proof.
  intros s.
  assert (Hc : _client (st_self s) = None) by reflexivity.
  repeat match goal with |- _ /\ _ => split end.
  - apply add_file_unconnected, Hc.
  - apply add_data_unconnected, Hc.
  - apply get_file_unconnected, Hc.
  - apply get_data_unconnected, Hc.
  - apply pin_unconnected, Hc.
  - apply unpin_unconnected, Hc.
  - apply list_pins_unconnected, Hc.
  - apply get_stats_unconnected, Hc.
Qed.

End Unconnected.

Section Closed.

Context {T : Transport}.

Lemma connect_succeeded (s0 s1 : state T) :
  connect s0 = (Ok tt, s1) -> exists c, _client (st_self s1) = Some c.
Proof.
  unfold connect, try_except, bind, get_self, call, set_client, raise. simpl.
  destruct (lib_connect T _ (st_node s0)) as [[c | e] n']; simpl.
  - intros H. injection H as <-. exists c. reflexivity.
  - discriminate.
Qed.

(** [close] calls the library and assigns nothing. *)
Lemma close_with_client (s : state T) c :
  _client (st_self s) = Some c ->
  close s = (fst (lib_close T c (st_node s)),
             mkState (st_self s) (snd (lib_close T c (st_node s))) (st_fs s)).
Proof.
  intros Hc. unfold close, bind, get_self, call. simpl. rewrite Hc.
  destruct (lib_close T c (st_node s)); reflexivity.
Qed.


(** C4, as the code has it.  The client has no Closed state.  [close] calls
    the [close] of the library and assigns nothing: after a [connect] that
    succeeded and a [close], the client is as [connect] left it, with the
    client object in [self._client], the file system is as it was, and the
    node is as the [close] of the library left it.  Every data operation
    then runs as it does on a connected client: it returns, or it raises
    [IPFSError], the base kind, and so never [IPFSConnectionError]. *)
Theorem closed_client_runs_as_a_connected_client
    (s0 s1 : state T) (file_path : path_like) (flag : bool) (data : payload)
    (hash : pystr) (output_path : option path_like) :
  connect s0 = (Ok tt, s1) ->
  let s2 := snd (close s1) in
  (exists c,
     _client (st_self s1) = Some c /\
     s2 = mkState (st_self s1) (snd (lib_close T c (st_node s1))) (st_fs s1)) /\
  fails_only_with IPFSError (fst (add_file file_path flag s2)) /\
  fails_only_with IPFSError (fst (add_data data flag s2)) /\
  fails_only_with IPFSError (fst (get_file hash output_path s2)) /\
  fails_only_with IPFSError (fst (get_data hash s2)) /\
  fails_only_with IPFSError (fst (pin hash s2)) /\
  fails_only_with IPFSError (fst (unpin hash s2)) /\
  fails_only_with IPFSError (fst (list_pins s2)) /\
  fails_only_with IPFSError (fst (get_stats s2)).
Proof.
  intros Hconnect s2.
  destruct (connect_succeeded _ _ Hconnect) as [c Hc].
  split.
  - exists c. split; [exact Hc | ].
    unfold s2. rewrite (close_with_client s1 c Hc). reflexivity.
  - repeat match goal with |- _ /\ _ => split end.
    + apply add_file_fails_only_with_IPFSError.
    + apply add_data_fails_only_with_IPFSError.
    + apply get_file_fails_only_with_IPFSError.
    + apply get_data_fails_only_with_IPFSError.
    + apply pin_fails_only_with_IPFSError.
    + apply unpin_fails_only_with_IPFSError.
    + apply list_pins_fails_only_with_IPFSError.
    + apply get_stats_fails_only_with_IPFSError.
Qed.


(** What [get_data] does with bytes that are not UTF-8: [data.decode()]
    raises [UnicodeDecodeError] in the [try], the handler runs
    [data.decode()] again, and the outer [except] turns the second
    [UnicodeDecodeError] into an [IPFSError]. *)
Lemma get_data_of_undecodable_bytes (s : state T) c hash data n' :
  _client (st_self s) = Some c ->
  lib_cat T c hash (st_node s) = (Ok data, n') ->
  utf8_decode data = None ->
  raises_class IPFSError (fst (get_data hash s)).
Proof.
  intros Hc Hcat Hdec.
  unfold get_data, try_except, try_except_in, bind, client_attr, call, lift,
    ret, raise, bytes_decode.
  rewrite Hc. simpl. rewrite Hcat. simpl. rewrite Hdec. simpl. reflexivity.
Qed.

(** With bytes that are UTF-8 and not JSON, [get_data] returns the text. *)
Lemma get_data_of_text (s : state T) c hash data n' text :
  _client (st_self s) = Some c ->
  lib_cat T c hash (st_node s) = (Ok data, n') ->
  utf8_decode data = Some text ->
  json_decode text = None ->
  fst (get_data hash s) = Ok (PStr text).
Proof.
  intros Hc Hcat Hdec Hjson.
  unfold get_data, try_except, try_except_in, bind, client_attr, call, lift,
    ret, raise, bytes_decode, json_loads.
  rewrite Hc. simpl. rewrite Hcat. simpl. rewrite Hdec. simpl.
  rewrite Hjson. reflexivity.
Qed.

(** With bytes that are UTF-8 and JSON, [get_data] returns the value. *)
Lemma get_data_of_json (s : state T) c hash data n' text v :
  _client (st_self s) = Some c ->
  lib_cat T c hash (st_node s) = (Ok data, n') ->
  utf8_decode data = Some text ->
  json_decode text = Some v ->
  fst (get_data hash s) = Ok v.
Proof.
  intros Hc Hcat Hdec Hjson.
  unfold get_data, try_except, try_except_in, bind, client_attr, call, lift,
    ret, raise, bytes_decode, json_loads.
  rewrite Hc. simpl. rewrite Hcat. simpl. rewrite Hdec. simpl.
  rewrite Hjson. reflexivity.
Qed.

End Closed.

(* ===================================================================== *)
(** * [add_data] and [get_data] *)
(* ===================================================================== *)

Section RoundTrip.

Context {T : Transport}.

(** [add_data] of a dict is [add_data] of the bytes of its written form. *)
Lemma add_data_dict_as_bytes (s : state T) items flag text :
  json_dumps (PDict items) = Ok text ->
  ascii_text text ->
  add_data (DDict items) flag s = add_data (DBytes (map byte_of_N text)) flag s.
Proof.
  intros Hdumps Hascii.
  unfold add_data, try_except, bind, lift, ret, client_attr, call, raise, str_encode.
  rewrite Hdumps. cbv beta iota. rewrite (utf8_encode_ascii text Hascii).
  reflexivity.
Qed.

(** [add_data] with a client object, up to the call of the library. *)
Lemma add_data_bytes_with_client (s : state T) c b flag :
  _client (st_self s) = Some c ->
  add_data (DBytes b) flag s
  = (match fst (lib_add_bytes T c b flag (st_node s)) with
     | Ok id => Ok id
     | Raise e => Raise (mkExn IPFSError (u "Failed to add data: " ++ exn_str e))
     end,
     mkState (st_self s) (snd (lib_add_bytes T c b flag (st_node s))) (st_fs s)).
Proof.
  intros Hc.
  unfold add_data, try_except, bind, ret, client_attr, call, raise.
  rewrite Hc. cbn [st_node st_self st_fs].
  destruct (lib_add_bytes T c b flag (st_node s)) as [[id | e] n1]; reflexivity.
Qed.

End RoundTrip.

(* ===================================================================== *)
(** * [get_file] and the file system *)
(* ===================================================================== *)

Section FileSystem.

Lemma fs_lookup_insert (q q' : fspath) (n : fnode) (fs : filesystem) :
  q <> [] ->
  fs_lookup (fs_insert q n fs) q' = if decide (q = q') then Some n else fs_lookup fs q'.
Proof.
  intros Hq. unfold fs_lookup, fs_insert. simpl.
  destruct q' as [| x q'].
  - destruct (decide (q = [])); [contradiction | reflexivity].
  - rewrite lookup_insert. destruct (decide (q = x :: q')); reflexivity.
Qed.

Lemma snoc_not_nil (d : fspath) (n : pystr) : d ++ [n] <> [].
Proof. destruct d; discriminate. Qed.


(** What [make_dirs] leaves: the working directory, every entry that is not
    longer than [done], and every entry longer than the deepest directory. *)
Lemma make_dirs_frame done todo fs :
  fs_cwd (snd (make_dirs done todo fs)) = fs_cwd fs /\
  forall q, (length q <= length done)%nat \/ (length done + length todo < length q)%nat ->
            fs_lookup (snd (make_dirs done todo fs)) q = fs_lookup fs q.
Proof.
  revert done fs. induction todo as [| n rest IH]; intros done fs.
  - simpl. auto.
  - simpl. destruct (fs_lookup fs (done ++ [n])) as [[| b] |] eqn:Hl.
    + destruct (IH (done ++ [n]) fs) as [Hcwd Hq]. split; [exact Hcwd | ].
      intros q Hlen. apply Hq. rewrite length_app. simpl in *. lia.
    + simpl. auto.
    + destruct (IH (done ++ [n]) (fs_insert (done ++ [n]) FDir fs)) as [Hcwd Hq].
      split; [exact Hcwd | ].
      intros q Hlen. rewrite Hq by (rewrite length_app; simpl in *; lia).
      rewrite fs_lookup_insert by apply snoc_not_nil.
      case_decide as Heq; [ | reflexivity]. subst q.
      rewrite length_app in Hlen. simpl in Hlen. lia.
Qed.







Context {T : Transport}.



End FileSystem.

(* ===================================================================== *)
(** * The client in front of the reference library *)
(* ===================================================================== *)

Module Runs.
Import RefNode RefTransport Inputs.

(** [connect] in front of a daemon that does not answer. *)
Example connect_refused :
  fst (connect (start_ip4 down_node empty_fs))
  = Raise (mkExn IPFSConnectionError
                 (u "Failed to connect to IPFS daemon: connection refused")).
Proof. vm_compute. reflexivity. Qed.

(** [connect] with the default arguments: the address is
    [/http/127.0.0.1/5001], which is no multiaddr, and the library refuses
    it in front of a daemon that answers. *)
Example connect_with_the_default_arguments :
  raises_class IPFSConnectionError (fst (connect s_new)) /\
  _client (st_self (after connect s_new)) = None.
Proof. split; vm_compute; reflexivity. Qed.

(** C1, at the failing input.  The node holds the single byte [ff] under an
    identifier: [get_file] returns that byte, so the fetch succeeds, and
    [get_data] raises [IPFSError] where the raw bytes were to be returned. *)
Theorem get_data_raises_on_bytes_that_are_not_utf8 :
  fst (get_file (cid_of [xff]) None s_stored_xff) = Ok [xff] /\
  fst (get_data (cid_of [xff]) s_stored_xff)
  = Raise (mkExn IPFSError
             (u "Failed to get data: 'utf-8' codec can't decode bytes: invalid data")).
Proof. split; vm_compute; reflexivity. Qed.


(** C3 fails as stated: [add_data] on a client that was never connected
    neither connects nor raises [IPFSConnectionError]. *)
Lemma unconnected_add_data_neither_connects_nor_refuses :
  ~ connects_or_refuses (add_data (DBytes []) true) s_new.
Proof.
  unfold connects_or_refuses. intros [H | H].
  - apply H. vm_compute. reflexivity.
  - vm_compute in H. discriminate H.
Qed.

(** C4 fails as stated: after [connect] and [close], [get_file] returns the
    bytes that the node holds, and [pin] of an identifier that the node does
    not know raises [IPFSError], not [IPFSConnectionError]. *)
Lemma closed_client_get_file_returns_the_bytes :
  connect (start_ip4 (node_with [hello]) empty_fs) = (Ok tt, s_stored_hello) /\
  fst (close s_stored_hello) = Ok tt /\
  fst (get_file (cid_of hello) None (after close s_stored_hello)) = Ok hello /\
  ~ raises_class IPFSConnectionError
      (fst (get_file (cid_of hello) None (after close s_stored_hello))) /\
  raises_class IPFSError (fst (pin (u "QmX") (after close s_stored_hello))) /\
  ~ raises_class IPFSConnectionError (fst (pin (u "QmX") (after close s_stored_hello))).
Proof.
  repeat split; try (vm_compute; reflexivity);
    intros H; vm_compute in H; solve [exact H | discriminate H].
Qed.

(** The theorem of C4 at the reference library. *)
Lemma closed_client_on_the_reference_library :
  connect (start_ip4 (node_with [hello]) empty_fs) = (Ok tt, s_stored_hello) /\
  after close s_stored_hello = s_stored_hello /\
  fails_only_with IPFSError (fst (pin (u "QmX") (after close s_stored_hello))).
Proof.
  assert (Hconnect : connect (start_ip4 (node_with [hello]) empty_fs)
                     = (Ok tt, s_stored_hello)) by (vm_compute; reflexivity).
  pose proof (closed_client_runs_as_a_connected_client
                (start_ip4 (node_with [hello]) empty_fs) s_stored_hello
                (PLStr (u "f")) true (DBytes []) (u "QmX") None Hconnect) as H.
  cbv zeta in H. destruct H as ((c & _ & Hstate) & _ & _ & _ & _ & Hpin & _).
  split; [exact Hconnect | ].
  split; [ | exact Hpin].
  unfold after. rewrite Hstate. destruct c. vm_compute. reflexivity.
Defined.




(** C8, at the failing input.  [json.dumps] writes [{"a": 1}], and the
    bytes go to [add_bytes] with the keyword [pin], which [add_bytes] does
    not take: [add_data] raises [IPFSError], with [pin=True] as with
    [pin=False], and the node has stored nothing, so that there is no
    identifier to read back.  [add_file], which calls [add], stores a file
    with the same bytes, and [get_data] of its identifier returns the
    dict. *)
Theorem add_data_of_a_dict_raises :
  ~ raises (json_dumps dict_a_1) /\
  raises_class IPFSError (fst (add_data (DDict items_a_1) true s_connected)) /\
  raises_class IPFSError (fst (add_data (DDict items_a_1) false s_connected)) /\
  after (add_data (DDict items_a_1) true) s_connected = s_connected /\
  (let s := mkState (st_self s_connected) (st_node s_connected)
                    (mkFs [] (<[ [u "d.json"] := FFile (written dict_a_1) ]> ∅)) in
   let r := add_file (PLStr (u "/d.json")) true s in
   fst r = Ok (PStr (cid_of (written dict_a_1))) /\
   fst (get_data (cid_of (written dict_a_1)) (snd r)) = Ok dict_a_1).
Proof.
  cbv zeta. split; [vm_compute; intros [] | ].
  repeat split; vm_compute; reflexivity.
Qed.

(** [add_data] never returns in front of the reference library, whatever
    the payload. *)
Example add_data_never_returns (data : payload) (flag : bool) (s : state transport) :
  raises_class IPFSError (fst (add_data data flag s)).
Proof.
  unfold add_data, try_except, bind, lift, ret, client_attr, call, raise.
  destruct data as [text | b | items]; cbn [fst snd].
  - destruct (str_encode text) as [b | e]; cbn [fst snd]; [ | reflexivity].
    destruct (_client (st_self s)); reflexivity.
  - destruct (_client (st_self s)); reflexivity.
  - destruct (json_dumps (PDict items)) as [text | e]; cbn [fst snd]; [ | reflexivity].
    destruct (str_encode text) as [b | e]; cbn [fst snd]; [ | reflexivity].
    destruct (_client (st_self s)); reflexivity.
Qed.

(** C9, at the failing input.  The node holds a block; [pin] of its
    identifier returns [True], and the node lists the identifier as a key
    under ["Keys"], with the type of the pin under it.  [list_pins] reads
    ["Hash"] in that entry and raises [IPFSError] for the [KeyError]: it
    returns no list, and so none that contains the identifier. *)
Theorem list_pins_after_pin_raises :
  let id := cid_of hello in
  fst (pin id s_stored_hello) = Ok true /\
  lib_pin_ls transport tt (u "recursive") (st_node (after (pin id) s_stored_hello))
  = (Ok (PDict [(PStr (u "Keys"),
                 PDict [(PStr id, PDict [(PStr (u "Type"), PStr (u "recursive"))])])]),
     st_node (after (pin id) s_stored_hello)) /\
  fst (list_pins (after (pin id) s_stored_hello))
  = Raise (mkExn IPFSError (u "Failed to list pins: 'Hash'")).
Proof. cbv zeta. repeat split; vm_compute; reflexivity. Qed.

(** What [get_data] makes of the written form of a dict: [{"a": 1}] comes
    back as it is, [{1: 2}] with the string key ["1"]. *)
Example written_dicts_come_back :
  fst (get_data (cid_of (written dict_a_1)) (s_stored_json dict_a_1)) = Ok dict_a_1 /\
  fst (get_data (cid_of (written (PDict items_1_2))) (s_stored_json (PDict items_1_2)))
  = Ok (PDict [(PStr (u "1"), PInt 2)]).
Proof. split; vm_compute; reflexivity. Qed.

(** A string that pairs a high with a low surrogate is written as two
    escapes and read back as one character: [{"a": "\ud800\udc00"}] comes
    back as [{"a": "\U00010000"}]. *)
Example paired_surrogates_come_back_joined :
  let d := PDict [(PStr (u "a"), PStr [0xD800; 0xDC00])] in
  fst (get_data (cid_of (written d)) (s_stored_json d))
  = Ok (PDict [(PStr (u "a"), PStr [0x10000])]).
Proof. vm_compute. reflexivity. Qed.

(** Bytes that are UTF-8 and not JSON come back as text. *)
Example text_comes_back_as_text :
  fst (get_data (cid_of hello) s_stored_hello) = Ok (PStr (u "hello")).
Proof. vm_compute. reflexivity. Qed.

End Runs.

(* ===================================================================== *)
(** * UTF-8, there and back *)
(* ===================================================================== *)

(** [str.encode()] and then [bytes.decode()] give the string back.  The
    decoder reads one sequence at a time, and [decodes_as] holds its tests on
    a sequence; that the encoding of a code point passes them is checked by
    running the check on each of the 0x110000 code points. *)
Lemma decodes_as_sound (bs : bytes) (c : N) (rest : bytes) :
  decodes_as bs c = true ->
  utf8_decode (bs ++ rest) = option_map (cons c) (utf8_decode rest).
Proof.
  destruct bs as [| b0 [| b1 [| b2 [| b3 [| b4 bs]]]]]; try discriminate;
    unfold decodes_as; rewrite ?andb_true_iff, ?negb_true_iff; intros H;
    cbn [app utf8_decode].
  - destruct H as [H0 Hc]. apply N.eqb_eq in Hc. rewrite H0, Hc. reflexivity.
  - destruct H as [[[H0 H1] H2] Hc]. apply N.eqb_eq in Hc.
    rewrite H0. destruct H1 as [-> ->]. cbn [andb]. rewrite H2, Hc. reflexivity.
  - destruct H as [[[[H0 H1] H2] H3] Hc]. apply N.eqb_eq in Hc.
    rewrite H0, H1. destruct H2 as [-> ->]. cbn [andb].
    destruct H3 as [-> ->]. cbn [andb]. rewrite Hc. reflexivity.
  - destruct H as [[[[[H0 H1] H2] H3] H4] Hc]. apply N.eqb_eq in Hc.
    rewrite H0, H1, H2. destruct H3 as [-> ->]. cbn [andb].
    destruct H4 as [[-> ->] ->]. cbn [andb]. rewrite Hc. reflexivity.
Qed.

Lemma all_code_points_checked :
  N.iter 0x110000 check_next (0, true) = (0x110000, true).
Proof. vm_cast_no_check (eq_refl (0x110000, true)). Qed.

(** A check that ran up to [n] and stayed true saw every code point below
    [n]. *)
Lemma checked_below (n : N) :
  snd (N.iter n check_next (0, true)) = true ->
  forall c, c < n -> char_round_trips c = true.
Proof.
  intros Hn.
  assert (H : fst (N.iter n check_next (0, true)) = n /\
              (snd (N.iter n check_next (0, true)) = true ->
               forall c, c < n -> char_round_trips c = true)).
  { clear Hn.
    apply (N.iter_ind _ check_next (0, true)
             (fun n st => fst st = n /\
                          (snd st = true ->
                           forall c, c < n -> char_round_trips c = true))).
    - split; [reflexivity | intros _ c Hc; lia].
    - intros m [k ok] [Hk IH]. simpl in *. subst k. split; [reflexivity | ].
      intros Hok c Hc. apply andb_true_iff in Hok as [Hok Hm].
      destruct (N.eq_dec c m) as [-> | Hne]; [exact Hm | ].
      apply IH; [exact Hok | lia]. }
  apply H, Hn.
Qed.

(** Every code point that has an encoding decodes from it. *)
Lemma utf8_char_round_trip (c : N) :
  valid_char c = true ->
  exists bs, utf8_encode_char c = Some bs /\
             forall rest, utf8_decode (bs ++ rest) = option_map (cons c) (utf8_decode rest).
Proof.
  intros Hv.
  assert (Hc : c < 0x110000).
  { unfold valid_char in Hv. apply andb_true_iff in Hv as [Hv _].
    apply N.ltb_lt, Hv. }
  pose proof (checked_below 0x110000) as H.
  rewrite all_code_points_checked in H. specialize (H eq_refl c Hc).
  unfold char_round_trips in H. rewrite Hv in H. cbn [negb orb] in H.
  destruct (utf8_encode_char c) as [bs |]; [ | discriminate].
  exists bs. split; [reflexivity | ].
  intros rest. apply decodes_as_sound, H.
Qed.

(** [s.encode().decode() == s] for every text [s]. *)
Lemma utf8_round_trip (text : pystr) :
  valid_text text = true ->
  exists b, utf8_encode text = Some b /\ utf8_decode b = Some text.
Proof.
  induction text as [| c text IH]; intros Hv.
  - exists []. split; reflexivity.
  - cbn [valid_text forallb] in Hv. apply andb_true_iff in Hv as [Hc Hv].
    destruct (IH Hv) as (b & Henc & Hdec).
    destruct (utf8_char_round_trip c Hc) as (bs & Hbs & Hstep).
    exists (bs ++ b). split.
    + cbn [utf8_encode]. rewrite Hbs, Henc. reflexivity.
    + rewrite Hstep, Hdec. reflexivity.
Qed.

Lemma utf8_encode_char_invalid (c : N) :
  valid_char c = false -> utf8_encode_char c = None.
Proof.
  unfold valid_char, utf8_encode_char, is_surrogate. intros H.
  apply andb_false_iff in H.
  destruct (N.ltb_spec c 0x80); [exfalso | ].
  { destruct H as [H | H].
    - apply N.ltb_ge in H. lia.
    - apply negb_false_iff, andb_true_iff in H as [H _]. apply N.leb_le in H. lia. }
  destruct (N.ltb_spec c 0x800); [exfalso | ].
  { destruct H as [H | H].
    - apply N.ltb_ge in H. lia.
    - apply negb_false_iff, andb_true_iff in H as [H _]. apply N.leb_le in H. lia. }
  destruct ((0xD800 <=? c) && (c <=? 0xDFFF)) eqn:Hs; [reflexivity | ].
  destruct H as [H | H]; [ | discriminate].
  apply N.ltb_ge in H.
  destruct (N.ltb_spec c 0x10000); [lia | ].
  destruct (N.ltb_spec c 0x110000); [lia | reflexivity].
Qed.

(** A string with a code point that has no encoding cannot be encoded. *)
Lemma utf8_encode_invalid (text : pystr) :
  valid_text text = false -> utf8_encode text = None.
Proof.
  induction text as [| c text IH]; intros Hv.
  - discriminate.
  - cbn [valid_text forallb] in Hv. cbn [utf8_encode].
    apply andb_false_iff in Hv as [Hc | Hv].
    + rewrite (utf8_encode_char_invalid c Hc). reflexivity.
    + rewrite (IH Hv). destruct (utf8_encode_char c); reflexivity.
Qed.

(* ===================================================================== *)
(** * The file system under the operations *)
(* ===================================================================== *)

Section FsFrame.

Context {T : Transport}.

Lemma keeps_fs_ret {A} (a : A) : keeps_fs (T := T) (ret a).
Proof. intros s; reflexivity. Qed.

Lemma keeps_fs_raise {A} (e : exn) : keeps_fs (T := T) (@raise T A e).
Proof. intros s; reflexivity. Qed.

Lemma keeps_fs_lift {A} (r : result A) : keeps_fs (T := T) (lift r).
Proof. intros s; reflexivity. Qed.

Lemma keeps_fs_get_self : keeps_fs (T := T) get_self.
Proof. intros s; reflexivity. Qed.

Lemma keeps_fs_set_client v : keeps_fs (T := T) (set_client v).
Proof. intros s; reflexivity. Qed.

Lemma keeps_fs_client_attr name : keeps_fs (T := T) (client_attr name).
Proof. intros s; unfold client_attr; destruct (_client (st_self s)); reflexivity. Qed.

Lemma keeps_fs_call {A} (f : node T -> result A * node T) : keeps_fs (T := T) (call f).
Proof. intros s; unfold call; destruct (f (st_node s)); reflexivity. Qed.

Lemma keeps_fs_call_fs {A} (f : filesystem -> node T -> result A * node T) :
  keeps_fs (T := T) (call_fs f).
Proof. intros s; unfold call_fs; destruct (f (st_fs s) (st_node s)); reflexivity. Qed.

(** [file_path.exists()] looks and does not touch. *)
Lemma keeps_fs_exists (p : pypath) :
  keeps_fs (T := T) (on_fs (fun fs => (Ok (fs_exists p fs), fs))).
Proof. intros s; reflexivity. Qed.

Lemma keeps_fs_bind {A B} (m : M T A) (k : A -> M T B) :
  keeps_fs (T := T) m -> (forall a, keeps_fs (T := T) (k a)) ->
  keeps_fs (T := T) (bind m k).
Proof.
  intros Hm Hk s. unfold bind. specialize (Hm s).
  destruct (m s) as [[a | e] s']; simpl in *.
  - rewrite Hk. exact Hm.
  - exact Hm.
Qed.

Lemma keeps_fs_try_except {A} (body : M T A) (handler : exn -> M T A) :
  keeps_fs (T := T) body -> (forall e, keeps_fs (T := T) (handler e)) ->
  keeps_fs (T := T) (try_except body handler).
Proof.
  intros Hb Hh s. unfold try_except. specialize (Hb s).
  destruct (body s) as [[a | e] s']; simpl in *.
  - exact Hb.
  - rewrite Hh. exact Hb.
Qed.

Lemma keeps_fs_try_except_in {A} classes (body handler : M T A) :
  keeps_fs (T := T) body -> keeps_fs (T := T) handler ->
  keeps_fs (T := T) (try_except_in classes body handler).
Proof.
  intros Hb Hh s. unfold try_except_in. specialize (Hb s).
  destruct (body s) as [[a | e] s']; simpl in *.
  - exact Hb.
  - destruct (classes (exn_class e)); simpl; [rewrite Hh|]; exact Hb.
Qed.

(** Going through the statements of a method that writes no file. *)
Ltac keeps_fs_step :=
  lazymatch goal with
  | |- keeps_fs (ret _) => apply keeps_fs_ret
  | |- keeps_fs (raise _) => apply keeps_fs_raise
  | |- keeps_fs (lift _) => apply keeps_fs_lift
  | |- keeps_fs get_self => apply keeps_fs_get_self
  | |- keeps_fs (set_client _) => apply keeps_fs_set_client
  | |- keeps_fs (client_attr _) => apply keeps_fs_client_attr
  | |- keeps_fs (call _) => apply keeps_fs_call
  | |- keeps_fs (call_fs _) => apply keeps_fs_call_fs
  | |- keeps_fs (on_fs (fun fs => (Ok (fs_exists _ fs), fs))) => apply keeps_fs_exists
  | |- keeps_fs (bind _ _) => apply keeps_fs_bind; [ | intros ? ]
  | |- keeps_fs (try_except _ _) => apply keeps_fs_try_except; [ | intros ? ]
  | |- keeps_fs (try_except_in _ _ _) => apply keeps_fs_try_except_in
  | |- keeps_fs (match ?x with _ => _ end) => destruct x
  | |- keeps_fs (let _ := _ in _) => cbv zeta
  end.

(** X1.  Of all the operations, only [get_file] with an output path that is
    a true value writes to the file system.  [connect], [close], [add_file]
    (which only looks whether the file exists), [add_data], [get_data],
    [pin], [unpin], [list_pins], [get_stats] and [is_connected] leave every
    file and directory as it was, whatever their outcome; so does [get_file]
    without an output path, and with the empty string for one.  (A call of
    the library changes the node; it is the client's own statements that this
    is about.) *)
Theorem only_get_file_with_a_path_writes
    (s : state T) (file_path : path_like) (flag : bool) (data : payload)
    (hash : pystr) :
  st_fs (snd (connect s)) = st_fs s /\
  st_fs (snd (close s)) = st_fs s /\
  st_fs (snd (add_file file_path flag s)) = st_fs s /\
  st_fs (snd (add_data data flag s)) = st_fs s /\
  st_fs (snd (get_data hash s)) = st_fs s /\
  st_fs (snd (pin hash s)) = st_fs s /\
  st_fs (snd (unpin hash s)) = st_fs s /\
  st_fs (snd (list_pins s)) = st_fs s /\
  st_fs (snd (get_stats s)) = st_fs s /\
  st_fs (snd (is_connected s)) = st_fs s /\
  st_fs (snd (get_file hash None s)) = st_fs s /\
  st_fs (snd (get_file hash (Some (PLStr [])) s)) = st_fs s.
Proof.
  repeat match goal with |- _ /\ _ => split end;
    match goal with |- st_fs (snd (?m s)) = _ => revert s; change (keeps_fs m) end.
  - unfold connect. repeat keeps_fs_step.
  - unfold close. repeat keeps_fs_step.
  - unfold add_file. repeat keeps_fs_step.
  - unfold add_data. repeat keeps_fs_step.
  - unfold get_data. repeat keeps_fs_step.
  - unfold pin. repeat keeps_fs_step.
  - unfold unpin. repeat keeps_fs_step.
  - unfold list_pins. repeat keeps_fs_step.
  - unfold get_stats. repeat keeps_fs_step.
  - unfold is_connected. repeat keeps_fs_step.
  - unfold get_file. repeat keeps_fs_step.
  - unfold get_file. cbn [path_like_truthy]. repeat keeps_fs_step.
Qed.

End FsFrame.

(* ===================================================================== *)
(** * What an exception of the client says *)
(* ===================================================================== *)

Section Messages.

Context {T : Transport}.

Lemma try_except_wraps_as {A} (body : M T A) (c : exc_class) (prefix : pystr) s :
  wraps_as c prefix
    (fst (try_except body (fun e => raise (mkExn c (prefix ++ exn_str e))) s)).
Proof.
  unfold try_except, raise. destruct (body s) as [[a | e] s']; simpl; [exact I | ].
  split; [reflexivity | exists (exn_str e); reflexivity].
Qed.

(** X2.  Whatever goes wrong inside [connect] or one of the eight data
    operations, what comes out is an exception of one class whose message
    begins with one prefix: [IPFSConnectionError] and
    ["Failed to connect to IPFS daemon: "] for [connect], [IPFSError] and
    the operation's own prefix for a data operation.  None of them raises
    [IPFSTimeoutError]. *)
Theorem failures_carry_the_prefix_of_the_operation
    (s : state T) (file_path : path_like) (flag : bool) (data : payload)
    (hash : pystr) (output_path : option path_like) :
  wraps_as IPFSConnectionError (u "Failed to connect to IPFS daemon: ")
           (fst (connect s)) /\
  wraps_as IPFSError (u "Failed to add file: ") (fst (add_file file_path flag s)) /\
  wraps_as IPFSError (u "Failed to add data: ") (fst (add_data data flag s)) /\
  wraps_as IPFSError (u "Failed to get file: ") (fst (get_file hash output_path s)) /\
  wraps_as IPFSError (u "Failed to get data: ") (fst (get_data hash s)) /\
  wraps_as IPFSError (u "Failed to pin content: ") (fst (pin hash s)) /\
  wraps_as IPFSError (u "Failed to unpin content: ") (fst (unpin hash s)) /\
  wraps_as IPFSError (u "Failed to list pins: ") (fst (list_pins s)) /\
  wraps_as IPFSError (u "Failed to get stats: ") (fst (get_stats s)).
Proof.
  repeat match goal with |- _ /\ _ => split end; apply try_except_wraps_as.
Qed.

(** X3.  On a client that holds a client object of the library, an
    exception of the library's call, of whatever class, comes out of the data
    operation as an [IPFSError] whose message is the operation's prefix and
    then the library's message; the class of the cause is not kept.  The
    node is as the failed call left it and the file system as it was: when the
    fetch of [get_file] fails, no directory is created and no file is
    written. *)
Theorem library_failure_comes_out_as_IPFSError
    (s : state T) (c : handle T) (e : exn) (n' : node T)
    (file_path : path_like) (flag : bool) (b : bytes) (hash : pystr)
    (output_path : option path_like) :
  _client (st_self s) = Some c ->
  (fs_exists (Path_of file_path) (st_fs s) = true ->
   lib_add T c (path_str (Path_of file_path)) flag (st_fs s) (st_node s) = (Raise e, n') ->
   add_file file_path flag s = failed_with (u "Failed to add file: ") e s n') /\
  (lib_add_bytes T c b flag (st_node s) = (Raise e, n') ->
   add_data (DBytes b) flag s = failed_with (u "Failed to add data: ") e s n') /\
  (lib_cat T c hash (st_node s) = (Raise e, n') ->
   get_file hash output_path s = failed_with (u "Failed to get file: ") e s n' /\
   get_data hash s = failed_with (u "Failed to get data: ") e s n') /\
  (lib_pin_add T c hash (st_node s) = (Raise e, n') ->
   pin hash s = failed_with (u "Failed to pin content: ") e s n') /\
  (lib_pin_rm T c hash (st_node s) = (Raise e, n') ->
   unpin hash s = failed_with (u "Failed to unpin content: ") e s n') /\
  (lib_pin_ls T c (u "recursive") (st_node s) = (Raise e, n') ->
   list_pins s = failed_with (u "Failed to list pins: ") e s n') /\
  (lib_stats_bw T c (st_node s) = (Raise e, n') ->
   get_stats s = failed_with (u "Failed to get stats: ") e s n').
Proof.
  intros Hc. unfold failed_with.
  repeat match goal with |- _ /\ _ => split end.
  - intros Hex Hl.
    unfold add_file, try_except, bind, on_fs, client_attr, call_fs, lift, raise.
    cbn [fst snd st_self st_node st_fs]. rewrite Hex. cbn [negb fst snd st_self st_node st_fs].
    rewrite Hc. cbn [st_self st_node st_fs]. rewrite Hl. reflexivity.
  - intros Hl.
    unfold add_data, try_except, bind, ret, client_attr, call, raise.
    rewrite Hc. cbn [st_self st_node st_fs]. rewrite Hl. reflexivity.
  - intros Hl. split.
    + unfold get_file, try_except, bind, client_attr, call, raise.
      rewrite Hc. cbn [st_self st_node st_fs]. rewrite Hl. reflexivity.
    + unfold get_data, try_except, bind, client_attr, call, raise.
      rewrite Hc. cbn [st_self st_node st_fs]. rewrite Hl. reflexivity.
  - intros Hl.
    unfold pin, try_except, bind, client_attr, call, raise.
    rewrite Hc. cbn [st_self st_node st_fs]. rewrite Hl. reflexivity.
  - intros Hl.
    unfold unpin, try_except, bind, client_attr, call, raise.
    rewrite Hc. cbn [st_self st_node st_fs]. rewrite Hl. reflexivity.
  - intros Hl.
    unfold list_pins, try_except, bind, client_attr, call, raise.
    rewrite Hc. cbn [st_self st_node st_fs]. rewrite Hl. reflexivity.
  - intros Hl.
    unfold get_stats, try_except, bind, client_attr, call, raise.
    rewrite Hc. cbn [st_self st_node st_fs]. rewrite Hl. reflexivity.
Qed.

End Messages.

(* ===================================================================== *)
(** * [add_file] *)
(* ===================================================================== *)

Section AddFile.

Context {T : Transport}.

(** X4.  When nothing exists at the path, an ordinary path, [add_file]
    raises [IPFSError] without a call of the library, on a connected client
    as on any other: the client, the node and the file system are as they
    were.  The [IPFSError] that the method raises for the missing file is
    caught by its own [except Exception], so the message has both prefixes:
    ["Failed to add file: File not found: <path>"], the path as [str(Path)]
    writes it. *)
Theorem add_file_of_a_missing_file
    (s : state T) (file_path : path_like) (flag : bool) :
  ordinary_path (Path_of file_path) = true ->
  fs_exists (Path_of file_path) (st_fs s) = false ->
  add_file file_path flag s
  = (Raise (mkExn IPFSError
              (u "Failed to add file: " ++ u "File not found: "
                 ++ path_str (Path_of file_path))),
     s).
Proof.
  intros _ Hex.
  unfold add_file, try_except, bind, on_fs, raise.
  cbn [fst snd st_self st_node st_fs]. rewrite Hex.
  cbn [negb fst snd exn_str]. rewrite state_eta. reflexivity.
Qed.

(** X5.  With a file at the path and a client object, [add_file] hands
    [str(Path(file_path))] to the library and returns what the answer holds
    under ["Hash"].  An answer that is a dict without ["Hash"] makes it raise
    [IPFSError] with the message ["Failed to add file: 'Hash'"], and an
    answer that is a list, which a string cannot index, with the message
    ["Failed to add file: list indices must be integers or slices, not str"];
    in both cases the call of the library has returned, and the node is as
    that call left it. *)
Theorem add_file_returns_the_Hash_of_the_answer
    (s : state T) (c : handle T) (file_path : path_like) (flag : bool)
    (answer : pyvalue) (n' : node T) :
  _client (st_self s) = Some c ->
  fs_exists (Path_of file_path) (st_fs s) = true ->
  lib_add T c (path_str (Path_of file_path)) flag (st_fs s) (st_node s)
  = (Ok answer, n') ->
  snd (add_file file_path flag s) = mkState (st_self s) n' (st_fs s) /\
  (forall d, answer = PDict d ->
     fst (add_file file_path flag s)
     = match dict_get (u "Hash") d with
       | Some h => Ok h
       | None =>
         Raise (mkExn IPFSError (u "Failed to add file: " ++ str_repr (u "Hash")))
       end) /\
  (forall items, answer = PList items ->
     fst (add_file file_path flag s)
     = Raise (mkExn IPFSError
                (u "Failed to add file: "
                   ++ u "list indices must be integers or slices, not str"))).
Proof.
  intros Hc Hex Hl.
  unfold add_file, try_except, bind, on_fs, client_attr, call_fs, lift, raise.
  cbn [fst snd st_self st_node st_fs]. rewrite Hex.
  cbn [negb fst snd st_self st_node st_fs].
  rewrite Hc. cbn [st_self st_node st_fs]. rewrite Hl.
  split; [ | split].
  - destruct (py_getitem answer (u "Hash")); reflexivity.
  - intros d ->. unfold py_getitem. destruct (dict_get (u "Hash") d); reflexivity.
  - intros items ->. reflexivity.
Qed.

End AddFile.

(* ===================================================================== *)
(** * [add_data], and what comes back *)
(* ===================================================================== *)

Section Payloads.

Context {T : Transport}.

(** X6.  [add_data] turns its argument into bytes before it touches the
    library.  A string with a code point that UTF-8 cannot encode (a lone
    surrogate), and a dict that [json.dumps] refuses (a [bytes] value in it,
    a key that is no string, number, boolean or [None]), make it raise
    [IPFSError]; the node is not reached, and nothing is stored. *)
Theorem add_data_refuses_before_the_node (s : state T) (flag : bool) :
  (forall text, valid_text text = false ->
     raised_before_the_node (add_data (DStr text) flag) s) /\
  (forall items, raises (json_dumps (PDict items)) ->
     raised_before_the_node (add_data (DDict items) flag) s).
Proof.
  split.
  - intros text Hv.
    unfold raised_before_the_node, add_data, try_except, bind, lift, raise,
      str_encode.
    rewrite (utf8_encode_invalid text Hv). cbn [fst snd].
    split; [exact eq_refl | reflexivity].
  - intros items Hr.
    unfold raised_before_the_node, add_data, try_except, bind, lift, raise.
    destruct (json_dumps (PDict items)) as [text | e]; [contradiction | ].
    cbn [fst snd]. split; [exact eq_refl | reflexivity].
Qed.

(** X8.  A string of text (no surrogate code points) goes to the library
    as its UTF-8 encoding: [add_data] of the string is [add_data] of those
    bytes.  And [get_data] of an identifier under which the node returns
    those bytes gives the same string when it is not a JSON document, and the
    value it denotes when it is one: ["hello"] comes back as ["hello"],
    ["12"] as the integer [12], ["null"] as [None].  (The limits of the
    interpreter, on the depth of nesting and on the digits of an integer,
    are outside the model.) *)
Theorem text_goes_out_encoded_and_comes_back_as_text_or_value
    (s : state T) (text : pystr) (flag : bool) :
  valid_text text = true ->
  exists b,
    utf8_encode text = Some b /\
    add_data (DStr text) flag s = add_data (DBytes b) flag s /\
    forall (s' : state T) (c : handle T) (hash : pystr) (n' : node T),
      _client (st_self s') = Some c ->
      lib_cat T c hash (st_node s') = (Ok b, n') ->
      fst (get_data hash s')
      = Ok (match json_decode text with
            | Some v => v
            | None => PStr text
            end).
Proof.
  intros Hv.
  destruct (utf8_round_trip text Hv) as (b & Henc & Hdec).
  exists b. split; [exact Henc | ]. split.
  - unfold add_data, try_except, bind, lift, ret, client_attr, call, raise,
      str_encode.
    rewrite Henc. reflexivity.
  - intros s' c hash n' Hc Hcat.
    destruct (json_decode text) as [v |] eqn:Hjson.
    + apply (get_data_of_json s' c hash b n' text v Hc Hcat Hdec Hjson).
    + apply (get_data_of_text s' c hash b n' text Hc Hcat Hdec Hjson).
Qed.

(** X9.  What [get_data] makes of the bytes that the node returned.  Bytes
    that are UTF-8 and a JSON document give the value of the document, of
    whatever type: a dict, and as well a list, a number, a boolean, [None] or
    a string.  Bytes that are UTF-8 and no JSON document give the text.
    Bytes that are not UTF-8 give an [IPFSError]; raw bytes are never
    returned.  The node is as the fetch left it.  (The limits of the
    interpreter are outside the model.) *)
Theorem get_data_returns_the_value_or_the_text
    (s : state T) (c : handle T) (hash : pystr) (data : bytes) (n' : node T) :
  _client (st_self s) = Some c ->
  lib_cat T c hash (st_node s) = (Ok data, n') ->
  match utf8_decode data with
  | Some text =>
    fst (get_data hash s)
    = Ok (match json_decode text with
          | Some v => v
          | None => PStr text
          end)
  | None => raises_class IPFSError (fst (get_data hash s))
  end /\
  snd (get_data hash s) = mkState (st_self s) n' (st_fs s).
Proof.
  intros Hc Hcat. split.
  - destruct (utf8_decode data) as [text |] eqn:Hdec.
    + destruct (json_decode text) as [v |] eqn:Hjson.
      * apply (get_data_of_json s c hash data n' text v Hc Hcat Hdec Hjson).
      * apply (get_data_of_text s c hash data n' text Hc Hcat Hdec Hjson).
    + apply (get_data_of_undecodable_bytes s c hash data n' Hc Hcat Hdec).
  - unfold get_data, try_except, try_except_in, bind, client_attr, call, lift,
      ret, raise, bytes_decode, json_loads.
    rewrite Hc. cbn [fst snd st_node st_self st_fs]. rewrite Hcat.
    cbn [fst snd st_node st_self st_fs].
    destruct (utf8_decode data) as [text |]; cbn [fst snd exn_class is_decode_error].
    + destruct (json_decode text); reflexivity.
    + reflexivity.
Qed.

End Payloads.

(* ===================================================================== *)
(** * [get_file] onto a directory *)
(* ===================================================================== *)

Section OntoDirectory.


Context {T : Transport}.


End OntoDirectory.

(* ===================================================================== *)
(** * [list_pins] and the listing it reads *)
(* ===================================================================== *)


(** The comprehension stops at the first entry without ["Hash"]. *)
Lemma hashes_of_entries_missing (entries : list (pyvalue * pyvalue)) :
  Forall (fun kv => exists d, snd kv = PDict d) entries ->
  Exists entry_without_hash entries ->
  mapM (fun pin => py_getitem pin (u "Hash")) (map snd entries)
  = Raise (mkExn KeyError (str_repr (u "Hash"))).
Proof.
  induction 1 as [| kv entries (d & Hkv) _ IH]; intros Hex.
  - inversion Hex.
  - cbn [map mapM]. rewrite Hkv. unfold py_getitem at 1.
    destruct (dict_get (u "Hash") d) as [h |] eqn:Hd; [ | reflexivity].
    assert (Hrest : Exists entry_without_hash entries).
    { inversion Hex as [? ? (d' & Hkv' & Hd') | ? ? Hrest]; subst.
      - rewrite Hkv in Hkv'. injection Hkv' as <-. congruence.
      - exact Hrest. }
    cbn [map mapM] in IH. rewrite (IH Hrest). reflexivity.
Qed.

Section Listing.

Context {T : Transport}.

(** [list_pins] up to the answer of the library. *)
Lemma list_pins_of_answer (s : state T) c pins n' :
  _client (st_self s) = Some c ->
  lib_pin_ls T c (u "recursive") (st_node s) = (Ok pins, n') ->
  list_pins s
  = (match
       match py_getitem pins (u "Keys") with
       | Ok keys =>
         match py_values keys with
         | Ok entries => mapM (fun pin => py_getitem pin (u "Hash")) entries
         | Raise e => Raise e
         end
       | Raise e => Raise e
       end
     with
     | Ok l => Ok l
     | Raise e => Raise (mkExn IPFSError (u "Failed to list pins: " ++ exn_str e))
     end,
     mkState (st_self s) n' (st_fs s)).
Proof.
  intros Hc Hls.
  unfold list_pins, try_except, bind, client_attr, call, lift, raise.
  rewrite Hc. cbn [fst snd st_node st_self st_fs]. rewrite Hls.
  cbn [fst snd st_node st_self st_fs].
  destruct (py_getitem pins (u "Keys")) as [keys | e]; [ | reflexivity].
  destruct (py_values keys) as [entries | e]; [ | reflexivity].
  destruct (mapM _ entries); reflexivity.
Qed.


(** X12.  An answer without ["Keys"] makes [list_pins] raise [IPFSError]
    with the message ["Failed to list pins: 'Keys'"].  An answer whose
    entries are dicts, one of them without ["Hash"], makes it raise
    ["Failed to list pins: 'Hash'"]: one such entry is enough, the hashes of
    the other entries are not returned. *)
Theorem list_pins_needs_Keys_and_Hash
    (s : state T) (c : handle T) (top : list (pyvalue * pyvalue)) (n' : node T) :
  _client (st_self s) = Some c ->
  lib_pin_ls T c (u "recursive") (st_node s) = (Ok (PDict top), n') ->
  (dict_get (u "Keys") top = None ->
   fst (list_pins s)
   = Raise (mkExn IPFSError (u "Failed to list pins: " ++ str_repr (u "Keys")))) /\
  (forall entries,
     dict_get (u "Keys") top = Some (PDict entries) ->
     Forall (fun kv => exists d, snd kv = PDict d) entries ->
     Exists entry_without_hash entries ->
     fst (list_pins s)
     = Raise (mkExn IPFSError (u "Failed to list pins: " ++ str_repr (u "Hash")))).
Proof.
  intros Hc Hls.
  rewrite (list_pins_of_answer s c (PDict top) n' Hc Hls). cbn [fst]. split.
  - intros Hkeys. unfold py_getitem at 1. rewrite Hkeys. reflexivity.
  - intros entries Hkeys Hdicts Hmissing.
    unfold py_getitem at 1. rewrite Hkeys. cbn [py_values].
    rewrite (hashes_of_entries_missing entries Hdicts Hmissing). reflexivity.
Qed.

(** X13.  [pin] and [unpin] never return [False]: each returns [True] or
    raises [IPFSError], so the value tells a caller nothing that the return
    itself does not. *)
Theorem pin_and_unpin_return_True_or_raise (s : state T) (hash : pystr) :
  (fst (pin hash s) = Ok true \/ raises_class IPFSError (fst (pin hash s))) /\
  (fst (unpin hash s) = Ok true \/ raises_class IPFSError (fst (unpin hash s))).
Proof.
  split.
  - unfold pin, try_except, bind, ret, raise.
    destruct (client_attr "pin" s) as [[c | e] s1]; [ | right; exact eq_refl].
    destruct (call (lib_pin_add T c hash) s1) as [[v | e] s2];
      [left; reflexivity | right; exact eq_refl].
  - unfold unpin, try_except, bind, ret, raise.
    destruct (client_attr "pin" s) as [[c | e] s1]; [ | right; exact eq_refl].
    destruct (call (lib_pin_rm T c hash) s1) as [[v | e] s2];
      [left; reflexivity | right; exact eq_refl].
Qed.

End Listing.

(* ===================================================================== *)
(** * What the operations read of the client *)
(* ===================================================================== *)

Section Reads.

Context {T : Transport}.

Lemma reads_ret {A} (a : A) : reads_only_client (T := T) (ret a).
Proof. intros s self' _. split; reflexivity. Qed.

Lemma reads_raise {A} (e : exn) : reads_only_client (T := T) (@raise T A e).
Proof. intros s self' _. split; reflexivity. Qed.

Lemma reads_lift {A} (r : result A) : reads_only_client (T := T) (lift r).
Proof. intros s self' _. split; reflexivity. Qed.

Lemma reads_client_attr name : reads_only_client (T := T) (client_attr name).
Proof.
  intros s self' H. unfold client_attr, with_self. cbn [st_self]. rewrite H.
  destruct (_client (st_self s)); split; reflexivity.
Qed.

Lemma reads_call {A} (f : node T -> result A * node T) :
  reads_only_client (T := T) (call f).
Proof.
  intros s self' _. unfold call, with_self. cbn [st_self st_node st_fs].
  destruct (f (st_node s)); split; reflexivity.
Qed.

Lemma reads_call_fs {A} (f : filesystem -> node T -> result A * node T) :
  reads_only_client (T := T) (call_fs f).
Proof.
  intros s self' _. unfold call_fs, with_self. cbn [st_self st_node st_fs].
  destruct (f (st_fs s) (st_node s)); split; reflexivity.
Qed.

Lemma reads_on_fs {A} (f : filesystem -> result A * filesystem) :
  reads_only_client (T := T) (on_fs f).
Proof.
  intros s self' _. unfold on_fs, with_self. cbn [st_self st_node st_fs].
  destruct (f (st_fs s)); split; reflexivity.
Qed.

Lemma reads_bind {A B} (m : M T A) (k : A -> M T B) :
  reads_only_client (T := T) m -> (forall a, reads_only_client (T := T) (k a)) ->
  reads_only_client (T := T) (bind m k).
Proof.
  intros Hm Hk s self' H. unfold bind.
  destruct (Hm s self' H) as [Hself Hrun]. rewrite Hrun.
  destruct (m s) as [[a | e] s1]; cbn [fst snd] in *.
  - rewrite <- Hself in H. destruct (Hk a s1 self' H) as [Hself' Hrun'].
    split; [congruence | exact Hrun'].
  - split; [exact Hself | reflexivity].
Qed.

Lemma reads_try_except {A} (body : M T A) (handler : exn -> M T A) :
  reads_only_client (T := T) body ->
  (forall e, reads_only_client (T := T) (handler e)) ->
  reads_only_client (T := T) (try_except body handler).
Proof.
  intros Hb Hh s self' H. unfold try_except.
  destruct (Hb s self' H) as [Hself Hrun]. rewrite Hrun.
  destruct (body s) as [[a | e] s1]; cbn [fst snd] in *.
  - split; [exact Hself | reflexivity].
  - rewrite <- Hself in H. destruct (Hh e s1 self' H) as [Hself' Hrun'].
    split; [congruence | exact Hrun'].
Qed.

Lemma reads_try_except_in {A} classes (body handler : M T A) :
  reads_only_client (T := T) body -> reads_only_client (T := T) handler ->
  reads_only_client (T := T) (try_except_in classes body handler).
Proof.
  intros Hb Hh s self' H. unfold try_except_in.
  destruct (Hb s self' H) as [Hself Hrun]. rewrite Hrun.
  destruct (body s) as [[a | e] s1]; cbn [fst snd] in *.
  - split; [exact Hself | reflexivity].
  - destruct (classes (exn_class e)).
    + rewrite <- Hself in H. destruct (Hh s1 self' H) as [Hself' Hrun'].
      split; [congruence | exact Hrun'].
    + split; [exact Hself | reflexivity].
Qed.

(** Going through the statements of a data operation. *)
Ltac reads_step :=
  lazymatch goal with
  | |- reads_only_client (ret _) => apply reads_ret
  | |- reads_only_client (raise _) => apply reads_raise
  | |- reads_only_client (lift _) => apply reads_lift
  | |- reads_only_client (client_attr _) => apply reads_client_attr
  | |- reads_only_client (call _) => apply reads_call
  | |- reads_only_client (call_fs _) => apply reads_call_fs
  | |- reads_only_client (on_fs _) => apply reads_on_fs
  | |- reads_only_client (bind _ _) => apply reads_bind; [ | intros ? ]
  | |- reads_only_client (try_except _ _) => apply reads_try_except; [ | intros ? ]
  | |- reads_only_client (try_except_in _ _ _) => apply reads_try_except_in
  | |- reads_only_client (match ?x with _ => _ end) => destruct x
  | |- reads_only_client (let _ := _ in _) => cbv zeta
  end.

Lemma reads_same_outcome {A} (m : M T A) (s : state T) (self' : IPFSClient T) :
  reads_only_client m ->
  _client self' = _client (st_self s) ->
  same_outcome m s (with_self self' s).
Proof.
  intros Hm H. destruct (Hm s self' H) as [_ Hrun].
  unfold same_outcome. rewrite Hrun. repeat split; reflexivity.
Qed.

(** [close] reads [self._client] and nothing else of [self]. *)
Lemma reads_close : reads_only_client (T := T) close.
Proof.
  intros s self' H. unfold close, bind, get_self, ret, call, with_self.
  cbn [fst snd st_self st_node st_fs]. rewrite H.
  destruct (_client (st_self s)) as [c |]; [ | split; reflexivity].
  cbn [st_node st_self st_fs].
  destruct (lib_close T c (st_node s)); split; reflexivity.
Qed.

(** X14.  Of the client object, the eight data operations, [is_connected]
    and [close] read [_client] and nothing else: with the same [_client],
    they have the same outcome and leave the same node and the same file
    system, whatever [host], [port], [protocol] and [api_url] hold.
    [connect] reads [host], [port] and [protocol]: with the same three, it
    has the same outcome and, when it returns, assigns the same client
    object.  So [api_url], which [__init__] computes, is read by no
    operation at all. *)
Theorem operations_read_only_what_they_use
    (s : state T) (self' : IPFSClient T) (file_path : path_like) (flag : bool)
    (data : payload) (hash : pystr) (output_path : option path_like) :
  let s' := with_self self' s in
  (_client self' = _client (st_self s) ->
   same_outcome (add_file file_path flag) s s' /\
   same_outcome (add_data data flag) s s' /\
   same_outcome (get_file hash output_path) s s' /\
   same_outcome (get_data hash) s s' /\
   same_outcome (pin hash) s s' /\
   same_outcome (unpin hash) s s' /\
   same_outcome list_pins s s' /\
   same_outcome get_stats s s' /\
   same_outcome is_connected s s' /\
   same_outcome close s s') /\
  (host self' = host (st_self s) -> port self' = port (st_self s) ->
   protocol self' = protocol (st_self s) ->
   same_outcome connect s s' /\
   (fst (connect s) = Ok tt ->
    _client (st_self (snd (connect s'))) = _client (st_self (snd (connect s))))).
Proof.
  intros s'. subst s'. split.
  - intros H.
    repeat match goal with |- _ /\ _ => split end;
      try (apply reads_same_outcome; [ | exact H]).
    + unfold add_file. repeat reads_step.
    + unfold add_data. repeat reads_step.
    + unfold get_file. repeat reads_step.
    + unfold get_data. repeat reads_step.
    + unfold pin. repeat reads_step.
    + unfold unpin. repeat reads_step.
    + unfold list_pins. repeat reads_step.
    + unfold get_stats. repeat reads_step.
    + unfold is_connected. repeat reads_step.
    + apply reads_close.
  - intros Hh Hp Hpr.
    unfold same_outcome, connect, try_except, bind, get_self, call, set_client,
      raise, with_self.
    cbn [fst snd st_self st_node st_fs]. rewrite Hh, Hp, Hpr.
    destruct (lib_connect T _ (st_node s)) as [[c | e] n'];
      cbn [fst snd st_self st_node st_fs _client]; repeat split;
      try reflexivity.
    discriminate.
Qed.

End Reads.

(* ===================================================================== *)
(** * The client as a context manager *)
(* ===================================================================== *)

Section ContextManager.

Context {T : Transport}.

(** X15.  [async with client: body].  When [connect] fails, the block
    raises its [IPFSConnectionError] and the body does not run.  When
    [connect] returns, the body runs and [close] runs after it, whether the
    body returned or raised.  [__aexit__] returns [None], so it swallows
    nothing: the block raises whenever the body does, and it raises the
    body's own exception when [close] returns.  And as [close] assigns
    nothing, a body that assigns nothing to the client leaves it, after the
    block, with the client object that [connect] put there. *)
Theorem async_with_connects_runs_and_closes {A} (body : M T A) (s : state T) :
  (raises (fst (connect s)) ->
   raises_class IPFSConnectionError (fst (async_with body s)) /\
   snd (async_with body s) = snd (connect s)) /\
  (forall s1 s2 a,
     connect s = (Ok tt, s1) -> body s1 = (Ok a, s2) ->
     snd (async_with body s) = snd (close s2) /\
     (fst (close s2) = Ok tt -> fst (async_with body s) = Ok a)) /\
  (forall s1 s2 e,
     connect s = (Ok tt, s1) -> body s1 = (Raise e, s2) ->
     snd (async_with body s) = snd (close s2) /\
     raises (fst (async_with body s)) /\
     (fst (close s2) = Ok tt -> fst (async_with body s) = Raise e)) /\
  (keeps_self body -> fst (connect s) = Ok tt ->
   exists c, _client (st_self (snd (connect s))) = Some c /\
             _client (st_self (snd (async_with body s))) = Some c).
Proof.
  split; [ | split; [ | split ] ].
  - intros Hr. pose proof (connect_fails_only_with_IPFSConnectionError s) as Hk.
    unfold async_with, aenter, bind.
    destruct (connect s) as [[[] | e] s1]; [contradiction | ].
    split; [exact Hk | reflexivity].
  - intros s1 s2 a Hconnect Hbody.
    unfold async_with, aenter, aexit, bind, ret. rewrite Hconnect, Hbody.
    destruct (close s2) as [[[] | e'] s3]; split; try reflexivity; discriminate.
  - intros s1 s2 e Hconnect Hbody.
    unfold async_with, aenter, aexit, bind. rewrite Hconnect, Hbody.
    destruct (close s2) as [[[] | e'] s3];
      (split; [reflexivity | split; [exact I | ] ]);
      [reflexivity | discriminate].
  - intros Hbody Hok.
    destruct (connect s) as [[[] | e] s1] eqn:Hconnect; [ | discriminate].
    destruct (connect_succeeded s s1 Hconnect) as [c Hc].
    exists c. split; [exact Hc | ].
    assert (Hafter : st_self (snd (async_with body s)) = st_self s1).
    { unfold async_with, aenter, aexit, bind, ret. rewrite Hconnect.
      pose proof (Hbody s1) as Hb.
      destruct (body s1) as [[a | e] s2]; cbn [snd] in Hb.
      - pose proof (close_keeps s2) as Hcl.
        destruct (close s2) as [[[] | e'] s3]; cbn [snd] in *; congruence.
      - pose proof (close_keeps s2) as Hcl.
        destruct (close s2) as [[[] | e'] s3]; cbn [snd] in *; congruence. }
    rewrite Hafter. exact Hc.
Qed.

End ContextManager.

(* ===================================================================== *)
(** * The keys of a dict, there and back *)
(* ===================================================================== *)

Lemma json_key_as_written (k : pyvalue) : json_key (key_as_written k) = json_key k.
Proof.
  unfold key_as_written. destruct (json_key k) as [s | e] eqn:Hk; [reflexivity | exact Hk].
Qed.

Lemma mapM_map_ext {A B C} (f : B -> result C) (g : A -> B) (h : A -> result C)
    (xs : list A) :
  Forall (fun x => f (g x) = h x) xs ->
  mapM f (map g xs) = mapM h xs.
Proof.
  induction 1 as [| x xs Hx _ IH]; [reflexivity | ].
  cbn [map mapM]. rewrite Hx.
  cbn [map mapM] in IH. rewrite IH. reflexivity.
Qed.

(** [json.dumps] writes a value and the value with its keys as written
    alike. *)
Lemma dumps_keys_as_written (v : pyvalue) :
  json_dumps (keys_as_written v) = json_dumps v.
Proof.
  induction v as [| b | z | lit | s | b | items IH | items IH]
    using pyvalue_nested_ind; try reflexivity.
  - cbn [keys_as_written json_dumps].
    rewrite (mapM_map_ext json_dumps keys_as_written json_dumps items IH).
    reflexivity.
  - cbn [keys_as_written json_dumps].
    erewrite mapM_map_ext; [reflexivity | ].
    eapply Forall_impl; [exact IH | ].
    intros [k x] Hx. cbn [fst snd] in *.
    rewrite json_key_as_written, Hx. reflexivity.
Qed.

(** A value whose keys are strings has them as written already. *)
Lemma keys_as_written_of_json_value (v : pyvalue) :
  json_value v = true -> keys_as_written v = v.
Proof.
  induction v as [| b | z | lit | s | b | items IH | items IH]
    using pyvalue_nested_ind; try reflexivity.
  - cbn [json_value keys_as_written]. intros Hv. f_equal.
    induction IH as [| x items Hx _ IHitems]; [reflexivity | ].
    cbn [forallb] in Hv. apply andb_true_iff in Hv as [Hx' Hv].
    cbn [map]. rewrite (Hx Hx'), (IHitems Hv). reflexivity.
  - cbn [json_value keys_as_written]. intros Hv.
    apply andb_true_iff in Hv as [_ Hv]. f_equal.
    induction IH as [| [k x] items Hx _ IHitems]; [reflexivity | ].
    cbn [forallb fst snd] in Hv, Hx. apply andb_true_iff in Hv as [Hkx Hv].
    apply andb_true_iff in Hkx as [Hk Hx'].
    cbn [map fst snd]. rewrite (Hx Hx'), (IHitems Hv).
    destruct k; try discriminate. reflexivity.
Qed.

Section KeysAsWritten.

Context {T : Transport}.

(** X16.  [json.dumps] writes every key of a dict as a string: the text of
    an integer, [true], [false] and [null] for the booleans and [None].
    [add_data] of a dict is [add_data] of the bytes of that written form,
    and what [get_data] returns for an identifier under which the node
    returns those bytes is the dict with its keys, and the keys of every dict
    inside it, as they were written: [{1: 2}] comes back as [{"1": 2}].  This
    holds for a dict whose written form has distinct keys and JSON values
    other than floats.  A dict of JSON values whose keys are strings already
    is its own written form.  (The limits of the interpreter, on the depth
    of nesting and on the digits of an integer, are outside the model.) *)
Theorem dict_goes_out_written_and_comes_back_with_the_keys_as_written
    (s : state T) (items : list (pyvalue * pyvalue)) (flag : bool) :
  json_value (keys_as_written (PDict items)) = true ->
  exists text,
    json_dumps (PDict items) = Ok text /\
    add_data (DDict items) flag s = add_data (DBytes (map byte_of_N text)) flag s /\
    (forall (s' : state T) (c : handle T) (hash : pystr) (n' : node T),
       _client (st_self s') = Some c ->
       lib_cat T c hash (st_node s') = (Ok (map byte_of_N text), n') ->
       fst (get_data hash s') = Ok (keys_as_written (PDict items))) /\
    (json_value (PDict items) = true -> keys_as_written (PDict items) = PDict items).
Proof.
  intros Hjson.
  destruct (dumps_json_value _ Hjson) as (text & Hwritten & Hascii & _).
  pose proof Hwritten as Hdumps. rewrite dumps_keys_as_written in Hdumps.
  exists text. split; [exact Hdumps | ].
  split; [apply add_data_dict_as_bytes; assumption | ].
  split; [ | apply keys_as_written_of_json_value].
  intros s' c hash n' Hc Hcat.
  apply (get_data_of_json s' c hash (map byte_of_N text) n' text).
  - exact Hc.
  - exact Hcat.
  - apply utf8_decode_ascii_bytes, Hascii.
  - apply json_decode_dumps; assumption.
Qed.

End KeysAsWritten.

(* ===================================================================== *)
(** * [get_file] and the files it does not write *)
(* ===================================================================== *)

Section OtherFiles.

(** [make_dirs] creates directories where there was nothing: what was there
    stays. *)
Lemma make_dirs_keeps_entries done todo fs (q : fspath) (x : fnode) :
  fs_lookup fs q = Some x ->
  fs_lookup (snd (make_dirs done todo fs)) q = Some x.
Proof.
  revert done fs. induction todo as [| n rest IH]; intros done fs Hq.
  - exact Hq.
  - cbn [make_dirs]. destruct (fs_lookup fs (done ++ [n])) as [[| b] |] eqn:Hl.
    + apply IH, Hq.
    + exact Hq.
    + apply IH. rewrite fs_lookup_insert by apply snoc_not_nil.
      case_decide as Heq; [ | exact Hq]. subst q. congruence.
Qed.

Lemma mkdir_parents_keeps_entries (p : pypath) fs (q : fspath) (x : fnode) :
  fs_lookup fs q = Some x ->
  fs_lookup (snd (fs_mkdir_parents p fs)) q = Some x /\
  fs_cwd (snd (fs_mkdir_parents p fs)) = fs_cwd fs.
Proof.
  intros Hq. unfold fs_mkdir_parents.
  pose proof (make_dirs_keeps_entries [] (resolve fs p) fs q x Hq) as Hk.
  destruct (make_dirs_frame [] (resolve fs p) fs) as [Hcwd _].
  destruct (make_dirs [] (resolve fs p) fs) as [[c |] fs']; cbn [snd] in *; auto.
Qed.

(** [write_bytes] changes the entry at its path and no other. *)
Lemma write_bytes_keeps_entries (p : pypath) (data : bytes) fs (q : fspath) (x : fnode) :
  fs_lookup fs q = Some x ->
  q <> resolve fs p ->
  fs_lookup (snd (fs_write_bytes p data fs)) q = Some x.
Proof.
  intros Hq Hne. unfold fs_write_bytes.
  destruct (walk_dirs fs [] (removelast (resolve fs p))); [exact Hq | ].
  destruct (fs_lookup fs (resolve fs p)) as [[| b] |] eqn:Hl; cbn [snd];
    try exact Hq.
  - rewrite fs_lookup_insert.
    + case_decide; [congruence | exact Hq].
    + intros Hnil. rewrite Hnil in Hl. discriminate.
  - rewrite fs_lookup_insert.
    + case_decide; [congruence | exact Hq].
    + intros Hnil. rewrite Hnil in Hl. discriminate.
Qed.

Context {T : Transport}.

(** X17.  [get_file] creates directories and writes one file; it removes
    nothing and overwrites nothing else.  With an ordinary path for the
    output path, or none, and whatever the outcome, every file and directory
    that was there before the call, other than the file at the output path,
    is there after it with the content it had. *)
Theorem get_file_keeps_the_other_files
    (s : state T) (hash : pystr) (output_path : option path_like)
    (q : fspath) (x : fnode) :
  fs_lookup (st_fs s) q = Some x ->
  (forall op, output_path = Some op ->
     ordinary_path (Path_of op) = true /\ q <> resolve (st_fs s) (Path_of op)) ->
  fs_lookup (st_fs (snd (get_file hash output_path s))) q = Some x.
Proof.
  intros Hq Hne.
  unfold get_file, try_except, bind, client_attr, call, on_fs, ret, raise.
  destruct (_client (st_self s)) as [c |]; cbn [fst snd st_fs st_self st_node];
    [ | exact Hq].
  destruct (lib_cat T c hash (st_node s)) as [[data | e] n'];
    cbn [fst snd st_fs st_self st_node]; [ | exact Hq].
  destruct output_path as [op |]; cbn [fst snd st_fs]; [ | exact Hq].
  destruct (path_like_truthy op); cbn [fst snd st_fs]; [ | exact Hq].
  destruct (Hne op eq_refl) as [_ Hne'].
  clear Hne. rename Hne' into Hne.
  destruct (mkdir_parents_keeps_entries (path_parent (Path_of op)) (st_fs s) q x Hq)
    as [Hq1 Hcwd].
  destruct (fs_mkdir_parents (path_parent (Path_of op)) (st_fs s)) as [[[] | e] fs1];
    cbn [fst snd st_fs st_self st_node] in *; [ | exact Hq1].
  assert (Hne1 : q <> resolve fs1 (Path_of op)).
  { unfold resolve in *. rewrite Hcwd. exact Hne. }
  pose proof (write_bytes_keeps_entries (Path_of op) data fs1 q x Hq1 Hne1) as Hw.
  destruct (fs_write_bytes (Path_of op) data fs1) as [[[] | e] fs2];
    cbn [fst snd st_fs] in *; exact Hw.
Qed.

End OtherFiles.

(* ===================================================================== *)
(** * [connect], when it returns *)
(* ===================================================================== *)

Section Connect.

Context {T : Transport}.

(** X18.  A [connect] that returns has asked the library for the
    address ["/<protocol>/<host>/<port>"] made of the client's three
    attributes, and has put the object it got into [_client], in the place of
    whatever was there: an object held before is dropped, not closed.
    [host], [port], [protocol] and [api_url] keep their values, the node is as
    the library's [connect] left it, and the file system is as it was. *)
Theorem connect_assigns_the_client_object (s s1 : state T) :
  connect s = (Ok tt, s1) ->
  let self := st_self s in
  exists c,
    lib_connect T (u "/" ++ protocol self ++ u "/" ++ host self ++ u "/"
                     ++ int_repr (port self))
                (st_node s)
    = (Ok c, st_node s1) /\
    st_self s1 = mkClient (host self) (port self) (protocol self) (api_url self)
                          (Some c) /\
    st_fs s1 = st_fs s.
Proof.
  unfold connect, try_except, bind, get_self, call, set_client, raise.
  cbn [fst snd st_self st_node st_fs].
  destruct (lib_connect T _ (st_node s)) as [[c | e] n'];
    cbn [fst snd st_self st_node st_fs]; [ | discriminate].
  intros H. injection H as <-. exists c. repeat split; reflexivity.
Qed.

End Connect.

(* ===================================================================== *)
(** * More runs in front of the reference library *)
(* ===================================================================== *)

Module MoreRuns.
Import RefNode RefTransport Inputs OtherListings.

(** [repr] of a string: single quotes, double quotes around a string that
    holds a single quote and no double one, and a backslash before a
    backslash. *)
Example repr_of_strings :
  str_repr (u "Hash") = [39] ++ u "Hash" ++ [39] /\
  str_repr (u "it's") = [34] ++ u "it's" ++ [34] /\
  str_repr (u "a\b") = [39] ++ u "a\\b" ++ [39].
Proof. repeat split; vm_compute; reflexivity. Qed.

(** [str(Path(s))]: a slash twice at the start is kept, a slash twice
    elsewhere, a single dot and a slash at the end are not. *)
Example str_of_paths :
  path_str (Path_of_str (u "//tmp/nope")) = u "//tmp/nope" /\
  path_str (Path_of_str (u "///tmp/nope")) = u "/tmp/nope" /\
  path_str (Path_of_str (u "a//b/./c/")) = u "a/b/c" /\
  path_str (Path_of_str (u "/tmp/out/../old")) = u "/tmp/out/../old" /\
  path_str (Path_of_str []) = u "." /\
  path_str (path_parent (Path_of_str (u "//tmp/nope"))) = u "//tmp".
Proof. repeat split; vm_compute; reflexivity. Qed.

(** The theorem of X3 after the daemon has stopped: the library raises its
    [ConnectionError], and [pin] and [get_file] raise [IPFSError] with its
    message.  And on any client: the client object of the library has no
    attribute [stats], and [get_stats] raises [IPFSError] with the message
    of the [AttributeError]. *)
Lemma library_failure_after_the_daemon_stopped :
  let e := lib_error "ConnectionError" "connection refused" in
  lib_pin_add transport tt (u "QmX") (st_node s_daemon_down)
  = (Raise e, st_node s_daemon_down) /\
  pin (u "QmX") s_daemon_down
  = (Raise (mkExn IPFSError (u "Failed to pin content: " ++ u "connection refused")),
     s_daemon_down) /\
  fst (get_file (u "QmX") (Some (PLStr (u "/tmp/x"))) s_daemon_down)
  = Raise (mkExn IPFSError (u "Failed to get file: " ++ u "connection refused")) /\
  fst (get_stats s_connected)
  = Raise (mkExn IPFSError
             (u "Failed to get stats: " ++ u "'Client' object has no attribute 'stats'")).
Proof.
  cbv zeta.
  pose proof (library_failure_comes_out_as_IPFSError
                s_daemon_down tt (lib_error "ConnectionError" "connection refused")
                (st_node s_daemon_down) (PLStr (u "f")) true [] (u "QmX")
                (Some (PLStr (u "/tmp/x"))) eq_refl)
    as (_ & _ & Hcat & Hpin & _).
  pose proof (library_failure_comes_out_as_IPFSError
                s_connected tt
                (mkExn AttributeError (u "'Client' object has no attribute 'stats'"))
                (st_node s_connected) (PLStr (u "f")) true [] (u "QmX")
                None eq_refl)
    as (_ & _ & _ & _ & _ & _ & Hstats).
  split; [vm_compute; reflexivity | ].
  split; [exact (Hpin eq_refl) | ].
  split; [exact (f_equal fst (proj1 (Hcat eq_refl))) | ].
  exact (f_equal fst (Hstats eq_refl)).
Defined.

(** The theorem of X4 for two paths with nothing at them. *)
Lemma add_file_of_a_missing_file_on_the_reference_library :
  fs_exists (Path_of (PLStr (u "/tmp//nope"))) (st_fs s_with_files) = false /\
  add_file (PLStr (u "/tmp//nope")) true s_with_files
  = (Raise (mkExn IPFSError (u "Failed to add file: File not found: /tmp/nope")),
     s_with_files) /\
  add_file (PLStr (u "//tmp/nope")) true s_with_files
  = (Raise (mkExn IPFSError (u "Failed to add file: File not found: //tmp/nope")),
     s_with_files).
Proof.
  split; [vm_compute; reflexivity | ]. split.
  - rewrite (add_file_of_a_missing_file s_with_files (PLStr (u "/tmp//nope")) true
               eq_refl eq_refl).
    vm_compute. reflexivity.
  - rewrite (add_file_of_a_missing_file s_with_files (PLStr (u "//tmp/nope")) true
               eq_refl eq_refl).
    vm_compute. reflexivity.
Defined.

(** The theorem of X5 for the file [/tmp/old], which holds one zero byte. *)
Lemma add_file_on_the_reference_library :
  fs_exists (Path_of (PLStr (u "/tmp/old"))) (st_fs s_with_files) = true /\
  fst (add_file (PLStr (u "/tmp/old")) true s_with_files) = Ok (PStr (cid_of [x00])).
Proof.
  split; [vm_compute; reflexivity | ].
  pose proof (add_file_returns_the_Hash_of_the_answer
                s_with_files tt (PLStr (u "/tmp/old")) true
                (PDict [(PStr (u "Name"), PStr (u "/tmp/old"));
                        (PStr (u "Hash"), PStr (cid_of [x00]));
                        (PStr (u "Size"), PStr (u "1"))])
                (store_block [x00] true (st_node s_with_files))
                eq_refl eq_refl) as H.
  destruct (H eq_refl) as (_ & Hd & _).
  rewrite (Hd _ eq_refl). vm_compute. reflexivity.
Defined.

(** The theorem of X6 on two payloads: a lone surrogate, and a dict with a
    [bytes] value. *)
Lemma add_data_refuses_on_the_reference_library :
  valid_text [0xD800] = false /\
  raises (json_dumps (PDict [(PStr (u "a"), PBytes [x00])])) /\
  raised_before_the_node (add_data (DStr [0xD800]) true) s_connected /\
  raised_before_the_node (add_data (DDict [(PStr (u "a"), PBytes [x00])]) true)
                         s_connected /\
  fst (add_data (DDict [(PStr (u "a"), PBytes [x00])]) true s_connected)
  = Raise (mkExn IPFSError
             (u "Failed to add data: Object of type bytes is not JSON serializable")).
Proof.
  destruct (add_data_refuses_before_the_node s_connected true) as [Hs Hd].
  split; [vm_compute; reflexivity | ].
  split; [vm_compute; exact I | ].
  split; [apply Hs; vm_compute; reflexivity | ].
  split; [apply Hd; vm_compute; exact I | vm_compute; reflexivity].
Defined.

(** The theorem of X8 for ["12"], which comes back as the integer [12]. *)
Lemma text_12_comes_back_as_an_integer :
  let b := map byte_of_N (u "12") in
  let s' := after connect (start_ip4 (node_with [b]) empty_fs) in
  valid_text (u "12") = true /\
  add_data (DStr (u "12")) true s_connected = add_data (DBytes b) true s_connected /\
  fst (get_data (cid_of b) s') = Ok (PInt 12).
Proof.
  cbv zeta.
  assert (Hv : valid_text (u "12") = true) by (vm_compute; reflexivity).
  destruct (text_goes_out_encoded_and_comes_back_as_text_or_value
              s_connected (u "12") true Hv) as (b & Henc & Hadd & Hget).
  assert (Hb : b = map byte_of_N (u "12")).
  { vm_compute in Henc. injection Henc as <-. vm_compute. reflexivity. }
  subst b.
  split; [exact Hv | ]. split; [exact Hadd | ].
  rewrite (Hget (after connect (start_ip4 (node_with [map byte_of_N (u "12")]) empty_fs))
                tt (cid_of (map byte_of_N (u "12")))
                (st_node (after connect
                            (start_ip4 (node_with [map byte_of_N (u "12")]) empty_fs)))
                eq_refl eq_refl).
  vm_compute. reflexivity.
Defined.

(** The theorem of X9 for the bytes of ["hello"]. *)
Lemma get_data_on_the_reference_library :
  utf8_decode hello = Some (u "hello") /\
  json_decode (u "hello") = None /\
  get_data (cid_of hello) s_stored_hello = (Ok (PStr (u "hello")), s_stored_hello).
Proof.
  pose proof (get_data_returns_the_value_or_the_text
                s_stored_hello tt (cid_of hello) hello (st_node s_stored_hello)
                eq_refl eq_refl) as [Hfst Hsnd].
  split; [vm_compute; reflexivity | ].
  split; [vm_compute; reflexivity | ].
  change (utf8_decode hello) with (Some (u "hello")) in Hfst.
  change (json_decode (u "hello")) with (@None pyvalue) in Hfst.
  rewrite (surjective_pairing (get_data (cid_of hello) s_stored_hello)).
  rewrite Hfst, Hsnd. reflexivity.
Defined.



(** The theorem of X12, twice: the listing of the reference library after a
    [pin], which holds the type of the pin and no ["Hash"], and an answer
    without ["Keys"]. *)
Lemma list_pins_on_the_reference_library :
  let s := after (pin (cid_of hello)) s_stored_hello in
  fst (pin (cid_of hello) s_stored_hello) = Ok true /\
  fst (list_pins s) = Raise (mkExn IPFSError (u "Failed to list pins: 'Hash'")) /\
  fst (list_pins (s_pinned no_keys))
  = Raise (mkExn IPFSError (u "Failed to list pins: 'Keys'")).
Proof.
  cbv zeta.
  split; [vm_compute; reflexivity | ]. split.
  - pose proof (list_pins_needs_Keys_and_Hash
                  (after (pin (cid_of hello)) s_stored_hello) tt
                  [(PStr (u "Keys"),
                    PDict [pin_entry (u "recursive") (cid_of hello)])]
                  (st_node (after (pin (cid_of hello)) s_stored_hello))
                  eq_refl eq_refl) as [_ H].
    rewrite (H [pin_entry (u "recursive") (cid_of hello)]).
    + vm_compute. reflexivity.
    + vm_compute. reflexivity.
    + constructor; [eexists; reflexivity | constructor].
    + constructor. eexists. split; [reflexivity | vm_compute; reflexivity].
  - pose proof (list_pins_needs_Keys_and_Hash
                  (s_pinned no_keys) tt [] (st_node (s_pinned no_keys))
                  eq_refl eq_refl) as [H _].
    rewrite (H eq_refl). vm_compute. reflexivity.
Defined.

(** The theorem of X14 on a client whose every attribute but [_client] has
    changed. *)
Lemma data_operations_ignore_host_and_api_url :
  let other := mkClient (T := transport) (u "example.org") 80 (u "https")
                        (u "nowhere") (_client (st_self s_stored_hello)) in
  same_outcome (get_data (cid_of hello)) s_stored_hello
               (with_self other s_stored_hello) /\
  fst (get_data (cid_of hello) (with_self other s_stored_hello))
  = Ok (PStr (u "hello")).
Proof.
  cbv zeta.
  pose proof (operations_read_only_what_they_use
                s_stored_hello
                (mkClient (T := transport) (u "example.org") 80 (u "https")
                          (u "nowhere") (_client (st_self s_stored_hello)))
                (PLStr []) true (DBytes []) (cid_of hello) None) as H.
  cbv zeta in H. destruct H as [H _].
  destruct (H eq_refl) as (_ & _ & _ & Hget & _).
  split; [exact Hget | vm_compute; reflexivity].
Defined.

(** The theorem of X15 in front of a daemon that does not answer, and of one
    that does: the body's exception comes out of the block, the client
    object is still in [_client] afterwards, and the value of a body that
    returns is the value of the block. *)
Lemma async_with_on_the_reference_library :
  let s0 := start_ip4 (node_with [hello]) empty_fs in
  raises_class IPFSConnectionError
    (fst (async_with (pin (u "QmX")) (start_ip4 down_node empty_fs))) /\
  fst (async_with (pin (u "QmX")) s0)
  = Raise (mkExn IPFSError (u "Failed to pin content: block not found")) /\
  _client (st_self (snd (async_with (pin (u "QmX")) s0))) = Some tt /\
  fst (async_with (get_file (cid_of hello) None) s0) = Ok hello.
Proof.
  cbv zeta.
  destruct (async_with_connects_runs_and_closes
              (pin (u "QmX")) (start_ip4 down_node empty_fs)) as (Hdown & _).
  destruct (async_with_connects_runs_and_closes
              (pin (u "QmX")) (start_ip4 (node_with [hello]) empty_fs))
    as (_ & _ & Hraise & Hkeeps).
  destruct (async_with_connects_runs_and_closes
              (get_file (cid_of hello) None) (start_ip4 (node_with [hello]) empty_fs))
    as (_ & Hret & _).
  split; [apply Hdown; vm_compute; exact I | ].
  split.
  { apply (Hraise s_stored_hello s_stored_hello
             (mkExn IPFSError (u "Failed to pin content: block not found")));
      vm_compute; reflexivity. }
  split.
  { destruct (Hkeeps (pin_keeps (u "QmX")) eq_refl) as (c & _ & Hc).
    destruct c. exact Hc. }
  apply (Hret s_stored_hello s_stored_hello); vm_compute; reflexivity.
Defined.

(** The theorem of X16 for [{1: 2}] and for [{"a": 1}]. *)
Lemma dicts_come_back_with_their_keys_as_written :
  let d := PDict items_1_2 in
  json_value (keys_as_written d) = true /\
  add_data (DDict items_1_2) true s_connected
  = add_data (DBytes (written d)) true s_connected /\
  fst (get_data (cid_of (written d)) (s_stored_json d))
  = Ok (PDict [(PStr (u "1"), PInt 2)]) /\
  keys_as_written dict_a_1 = dict_a_1.
Proof.
  cbv zeta.
  assert (Hv : json_value (keys_as_written (PDict items_1_2)) = true)
    by (vm_compute; reflexivity).
  destruct (dict_goes_out_written_and_comes_back_with_the_keys_as_written
              s_connected items_1_2 true Hv) as (text & Hdumps & Hadd & Hget & _).
  assert (Hw : written (PDict items_1_2) = map byte_of_N text).
  { unfold written. rewrite Hdumps. reflexivity. }
  split; [exact Hv | ].
  split; [rewrite Hw; exact Hadd | ].
  split; [ | vm_compute; reflexivity].
  rewrite (Hget (s_stored_json (PDict items_1_2)) tt
                (cid_of (written (PDict items_1_2)))
                (st_node (s_stored_json (PDict items_1_2))) eq_refl).
  - vm_compute. reflexivity.
  - rewrite <- Hw. vm_compute. reflexivity.
Defined.

(** The theorem of X17: [/tmp/old] keeps its byte when [get_file] writes
    [/tmp/out/x.bin]. *)
Lemma get_file_keeps_tmp_old :
  fs_read_bytes (Path_of_str (u "/tmp/old")) (st_fs s_with_files) = Some [x00] /\
  fs_read_bytes (Path_of_str (u "/tmp/old"))
    (st_fs (snd (get_file (cid_of hello) (Some (PLStr (u "/tmp/out/x.bin")))
                          s_with_files)))
  = Some [x00].
Proof.
  split; [vm_compute; reflexivity | ].
  unfold fs_read_bytes.
  change (resolve _ (Path_of_str (u "/tmp/old"))) with [u "tmp"; u "old"].
  rewrite (get_file_keeps_the_other_files
             s_with_files (cid_of hello) (Some (PLStr (u "/tmp/out/x.bin")))
             [u "tmp"; u "old"] (FFile [x00])).
  - reflexivity.
  - vm_compute. reflexivity.
  - intros op Hop. injection Hop as <-.
    split; [vm_compute; reflexivity | vm_compute; discriminate].
Defined.

(** The theorem of X18 for [IPFSClient("127.0.0.1/tcp", 5001, "ip4")]. *)
Lemma connect_on_the_reference_library :
  let s0 := start_ip4 fresh_node empty_fs in
  connect s0 = (Ok tt, s_connected) /\
  exists c,
    lib_connect transport (u "/ip4/127.0.0.1/tcp/5001") (st_node s0)
    = (Ok c, st_node s_connected) /\
    _client (st_self s_connected) = Some c /\
    api_url (st_self s_connected) = u "ip4://127.0.0.1/tcp:5001/api/v0".
Proof.
  cbv zeta.
  assert (H : connect (start_ip4 fresh_node empty_fs) = (Ok tt, s_connected))
    by (vm_compute; reflexivity).
  split; [exact H | ].
  destruct (connect_assigns_the_client_object (start_ip4 fresh_node empty_fs)
              s_connected H)
    as (c & Hlib & Hself & _).
  exists c. split; [ | split].
  - rewrite <- Hlib. vm_compute. reflexivity.
  - rewrite Hself. reflexivity.
  - rewrite Hself. vm_compute. reflexivity.
Defined.

End MoreRuns.
